(** * Kubernetes-acs-autoscaler: the capacity reconciler and the outer loop

    A shallow embedding of [autoscaler/container_service.py] (class
    [ContainerService]) and of the polling loop of [main.py], with the
    properties of the written specification stated over it.

    Python integers are unbounded, hence [Z].  Dictionaries keyed by
    strings are [gmap string _]; indexing a missing key raises [KeyError].
    Objects that the code mutates in place and that are reachable from more
    than one place (the ARM template and the ARM parameters handed to the
    constructor) live in a store indexed by locations.  Every interaction
    with the outside (logger, Kubernetes, Azure SDK, [time.sleep]) is
    recorded, in order, in a trace of events. *)

From Stdlib Require Import ZArith Lia Ascii.
From stdpp Require Import base gmap strings list fin_maps pretty.

Local Open Scope Z_scope.

(** ** Data model *)

(** A Kubernetes node, as far as this module looks at it: [node.name]. *)
Record Node := { node_name : string }.

(** Modelled from the spec: the class [AgentPool] of [autoscaler/agent_pool.py]
    is not part of the sources at hand.  The spec gives it a [name], an
    [actual_capacity] that is the count of its member nodes, and a
    [max_size]; [get_agent_pools] builds it from a name and a list of nodes. *)
Record AgentPool := {
  name : string;
  nodes : list Node;
  max_size : Z
}.

Definition actual_capacity (pool : AgentPool) : Z := Z.of_nat (length (nodes pool)).

(** [instance.agent_pool_profiles[i]] of the container service fetched from
    Azure; only [count] is written by the code. *)
Record AgentPoolProfile := {
  profile_name : string;
  count : Z
}.

(** The managed container service object ([self.instance]). *)
Record Instance := {
  agent_pool_profiles : list AgentPoolProfile;
  service_principal_profile : option string
}.

(** One entry of [template['resources']]: its ['type'], its ['name'] and its
    ['dependsOn'] list, which a resource may lack. *)
Record Resource := {
  rtype : string;
  rname : string;
  dependsOn : option (list string)
}.

(** The ARM template: [template['resources']]. *)
Record Template := { resources : list Resource }.

(** A value of the ARM parameter dictionary: [{'value': n}] as written by
    [deploy_pools], or whatever the parameters file held. *)
Inductive ParamValue :=
| IntValue (n : Z)
| FileValue (raw : string).

(** Locations of the shared store. *)
Abbreviation loc := nat.

(** The attributes of a [ContainerService] object.  [container_service_name]
    and [instance] are only set on the ACS branch of [__init__],
    [arm_parameters] and [arm_template] only on the acs-engine branch, where
    they hold the very objects the caller passed (or [None]). *)
Record ContainerService := {
  resource_group_name : string;
  is_acs_engine : bool;
  container_service_name : option string;
  instance : option Instance;
  arm_parameters : option loc;
  arm_template : option loc;
  max_agent_pool_size : Z;
  agent_pools : list AgentPool;
  desired_agent_pool_capacity : option Z
}.

(** The deferred call handed to [self.deployments.deploy]: each constructor
    stands for one of the three [lambda]s of the module, with the variables
    it closes over. *)
Inductive Operation :=
| OpSetDesiredCapacity (pool : string)
| OpDeployPools (is_scale_up : bool)
| OpDeleteResourcesForNode (node : string).

(** What the code does to the outside world. *)
Inductive Event :=
| LogInfo (msg : string)
| LogWarn (msg : string)
| ReclaimUnschedulableNodes (pool : string) (new_size : Z)
| Deploy (op : Operation) (pool_sizes : gmap string Z)
| VirtualMachinesGet (rg vm : string)
| ResourcesDelete (rg namespace parent kind rname api_version : string)
| OperationWait (rname : string)
| StorageListKeys (rg account : string)
| DeleteBlob (account key container blob : string)
| ContainerServicesGet (rg cs : string)
| ContainerServicesCreateOrUpdate (rg cs : string) (inst : Instance)
| DeploymentsCreateOrUpdate (rg deployment : string) (template : option Template)
    (parameters : option (gmap string ParamValue)) (mode : string)
| Sleep (seconds : Z).

(** The exceptions the modelled code can raise. *)
Inductive Exn :=
| KeyError (key : string)
| IndexError
| NameError (ident : string)
| TypeError
| AttributeError (attr : string)
| ValueError
| OverflowError
| Exception (msg : string).

Inductive Result (A : Type) :=
| Ok (a : A)
| Raise (e : Exn).
Arguments Ok {A} a.
Arguments Raise {A} e.

(** The state a method runs in: the object itself, the store of shared
    dictionaries, and the trace so far (oldest event first). *)
Record State := {
  self : ContainerService;
  templates : gmap loc Template;
  parameters : gmap loc (gmap string ParamValue);
  trace : list Event
}.

(** ** A state and exception monad

    An exception leaves the state as it was when raised: Python does not
    roll back in-place writes. *)
Definition M (A : Type) : Type := State -> Result A * State.

Definition ret {A} (a : A) : M A := fun st => (Ok a, st).

Definition bind {A B} (m : M A) (k : A -> M B) : M B :=
  fun st => match m st with
            | (Ok a, st') => k a st'
            | (Raise e, st') => (Raise e, st')
            end.

Definition raise {A} (e : Exn) : M A := fun st => (Raise e, st).

Notation "'let*' x ':=' c 'in' k" := (bind c (fun x => k))
  (at level 10, x pattern, c at level 100, k at level 200).
Notation "c ';;;' k" := (bind c (fun _ => k))
  (at level 100, k at level 200, right associativity).

Definition emit (e : Event) : M unit :=
  fun st => (Ok tt, {| self := self st; templates := templates st;
                       parameters := parameters st; trace := trace st ++ [e] |}).

Definition get_self : M ContainerService := fun st => (Ok (self st), st).

Definition put_self (s : ContainerService) : M unit :=
  fun st => (Ok tt, {| self := s; templates := templates st;
                       parameters := parameters st; trace := trace st |}).

(** [d[key]] on a dictionary. *)
Definition getitem {V} (d : gmap string V) (key : string) : M V :=
  match d !! key with
  | Some v => ret v
  | None => raise (KeyError key)
  end.

(** [l[i]] on a list, for a non-negative literal index. *)
Definition getindex {A} (l : list A) (i : nat) : M A :=
  match l !! i with
  | Some v => ret v
  | None => raise IndexError
  end.

Definition logger_info (msg : string) : M unit := emit (LogInfo msg).

(** Modelled from the spec: [AgentPool.reclaim_unschedulable_nodes] is not
    part of the sources at hand; the call is recorded as an event. *)
Definition reclaim_unschedulable_nodes (pool : AgentPool) (new_size : Z) : M unit :=
  emit (ReclaimUnschedulableNodes (name pool) new_size).

(** Modelled from the spec: the Deployment Serializer ([self.deployments],
    [autoscaler/deployments.py]) is not part of the sources at hand.  By the
    spec, [deploy(operation, poolSizesSnapshot)] wraps a single mutating call,
    runs it to completion before the next one, and hands back the provider's
    result or error unchanged.  The call is recorded with the snapshot it
    received, then the operation runs. *)
Definition deploy {A} (label : Operation) (operation : M A)
    (pool_sizes : gmap string Z) : M A :=
  emit (Deploy label pool_sizes) ;;; operation.

(** ** [ContainerService.scale_pools] and what it calls *)

(** [set_desired_acs_agent_pool_capacity].  The three writes come before
    the read of [self.acs_client], an attribute set together with
    [container_service_name]. *)
Definition set_desired_acs_agent_pool_capacity (new_desired_capacity : Z) : M unit :=
  let* s := get_self in
  match instance s with
  | None => raise (AttributeError "instance")
  | Some inst =>
    match agent_pool_profiles inst with
    | [] => raise IndexError
    | profile :: others =>
      (* self.instance.agent_pool_profiles[0].count = new_desired_capacity *)
      let profile' := {| profile_name := profile_name profile;
                         count := new_desired_capacity |} in
      (* self.instance.service_principal_profile = None *)
      let inst' := {| agent_pool_profiles := profile' :: others;
                      service_principal_profile := None |} in
      put_self {| resource_group_name := resource_group_name s;
                  is_acs_engine := is_acs_engine s;
                  container_service_name := container_service_name s;
                  instance := Some inst';
                  arm_parameters := arm_parameters s;
                  arm_template := arm_template s;
                  max_agent_pool_size := max_agent_pool_size s;
                  agent_pools := agent_pools s;
                  desired_agent_pool_capacity := Some new_desired_capacity |} ;;;
      match container_service_name s with
      | None => raise (AttributeError "acs_client")
      | Some cs => emit (ContainerServicesCreateOrUpdate (resource_group_name s) cs inst')
      end
    end
  end.

(** [list.pop(i)] with Python's indexing: a negative index counts from the
    end, an index outside the list raises [IndexError]. *)
Definition list_pop {A} (l : list A) (i : Z) : option (list A) :=
  let n := Z.of_nat (length l) in
  let i' := if i <? 0 then i + n else i in
  if (0 <=? i') && (i' <? n) then Some (delete (Z.to_nat i') l) else None.

Definition nsg_type : string := "Microsoft.Network/networkSecurityGroups".
Definition vnet_type : string := "Microsoft.Network/virtualNetworks".
Definition nsg_dependency : string :=
  "[concat('Microsoft.Network/networkSecurityGroups/', variables('nsgName'))]".

(** The inner loop of [prepare_template_for_scale_up]: pop the first
    dependency equal to the security group's, then [break]. *)
Fixpoint pop_nsg_dependency (dependencies : list string) : list string :=
  match dependencies with
  | [] => []
  | d :: ds => if String.eqb d nsg_dependency then ds
               else d :: pop_nsg_dependency ds
  end.

(** The outer loop of [prepare_template_for_scale_up], from index [i] on:
    the resources as the loop leaves them, and either the index of the last
    security group met (or the incoming [nsg_resource_index]) or the
    [KeyError] of a virtual network without ['dependsOn']. *)
Fixpoint scan_resources (rs : list Resource) (i : Z) (nsg_resource_index : Z)
    : Result Z * list Resource :=
  match rs with
  | [] => (Ok nsg_resource_index, [])
  | r :: rest =>
    let nsg_resource_index :=
      if String.eqb (rtype r) nsg_type then i else nsg_resource_index in
    if String.eqb (rtype r) vnet_type then
      match dependsOn r with
      | None => (Raise (KeyError "dependsOn"), r :: rest)
      | Some dependencies =>
        let r' := {| rtype := rtype r; rname := rname r;
                     dependsOn := Some (pop_nsg_dependency dependencies) |} in
        let '(res, rest') := scan_resources rest (i + 1) nsg_resource_index in
        (res, r' :: rest')
      end
    else
      let '(res, rest') := scan_resources rest (i + 1) nsg_resource_index in
      (res, r :: rest')
  end.

(** [prepare_template_for_scale_up] on the value of the template: the
    outcome and the template as the in-place writes leave it. *)
Definition prepare_template (template : Template) : Result unit * Template :=
  match scan_resources (resources template) 0 (-1) with
  | (Raise e, rs) => (Raise e, {| resources := rs |})
  | (Ok nsg_resource_index, rs) =>
    match list_pop rs nsg_resource_index with
    | Some rs' => (Ok tt, {| resources := rs' |})
    | None => (Raise IndexError, {| resources := rs |})
    end
  end.

(** [prepare_template_for_scale_up(template)]: [template] is a reference;
    the dictionary it points to is rewritten in the store. *)
Definition prepare_template_for_scale_up (template : option loc) : M unit :=
  fun st =>
    match template with
    | None => (Raise TypeError, st)
    | Some l =>
      match templates st !! l with
      | None => (Raise TypeError, st)
      | Some t =>
        let '(res, t') := prepare_template t in
        (res, {| self := self st; templates := <[l := t']> (templates st);
                 parameters := parameters st; trace := trace st |})
      end
    end.

(** [self.arm_parameters[key] = value]. *)
Definition set_arm_parameter (key : string) (value : ParamValue) : M unit :=
  fun st =>
    match arm_parameters (self st) with
    | None => (Raise TypeError, st)
    | Some l =>
      match parameters st !! l with
      | None => (Raise TypeError, st)
      | Some ps =>
        (Ok tt, {| self := self st; templates := templates st;
                   parameters := <[l := <[key := value]> ps]> (parameters st);
                   trace := trace st |})
      end
    end.

(** The [for pool in self.agent_pools] loop of [deploy_pools]. *)
Fixpoint deploy_pools_loop (pools : list AgentPool)
    (new_pool_sizes : gmap string Z) (is_scale_up : bool) : M unit :=
  match pools with
  | [] => ret tt
  | pool :: rest =>
    let* grows :=
      (if is_scale_up
       then let* n := getitem new_pool_sizes (name pool) in
            ret (actual_capacity pool <? n)
       else ret false) in
    (if (grows : bool)
     then set_arm_parameter (name pool +:+ "Offset") (IntValue (actual_capacity pool))
     else ret tt) ;;;
    let* n := getitem new_pool_sizes (name pool) in
    set_arm_parameter (name pool +:+ "Count") (IntValue n) ;;;
    deploy_pools_loop rest new_pool_sizes is_scale_up
  end.

(** The dictionary a reference of the object points to: [None] where the
    attribute holds Python's [None].  A reference into nothing does not
    occur in Python and is reported as a [TypeError]. *)
Definition deref {V} (store : gmap loc V) (ref : option loc) : M (option V) :=
  match ref with
  | None => ret None
  | Some l => match store !! l with
              | Some v => ret (Some v)
              | None => raise TypeError
              end
  end.

(** [deploy_pools]: the template and the parameters handed to the provider
    are the stored objects themselves. *)
Definition deploy_pools (new_pool_sizes : gmap string Z) (is_scale_up : bool) : M unit :=
  let* s := get_self in
  deploy_pools_loop (agent_pools s) new_pool_sizes is_scale_up ;;;
  (if is_scale_up then prepare_template_for_scale_up (arm_template s) else ret tt) ;;;
  fun st =>
    (let* template := deref (templates st) (arm_template s) in
     let* params := deref (parameters st) (arm_parameters s) in
     emit (DeploymentsCreateOrUpdate (resource_group_name s)
             "autoscaler-deployment" template params "incremental")) st.

(** The first loop of [scale_pools]: clamps [new_pool_sizes] in place and
    computes [has_changes].  The dictionary is the caller's object; the loop
    hands it back as its writes left it. *)
Fixpoint scale_pools_loop (pools : list AgentPool) (new_pool_sizes : gmap string Z)
    (dry_run : bool) (has_changes : bool) : M (gmap string Z * bool) :=
  match pools with
  | [] => ret (new_pool_sizes, has_changes)
  | pool :: rest =>
    let* new_size := getitem new_pool_sizes (name pool) in
    let new_pool_sizes := <[name pool := Z.min (max_size pool) new_size]> new_pool_sizes in
    let* target := getitem new_pool_sizes (name pool) in
    if target =? actual_capacity pool then
      logger_info ("Pool '" +:+ name pool +:+ "' already at desired capacity ("
                   +:+ pretty (actual_capacity pool) +:+ ")") ;;;
      scale_pools_loop rest new_pool_sizes dry_run has_changes
    else
      (if negb dry_run then
         if new_size >? actual_capacity pool
         then reclaim_unschedulable_nodes pool new_size
         else ret tt
       else
         logger_info ("[Dry run] Would have scaled pool '" +:+ name pool +:+ "' to "
                      +:+ pretty new_size +:+ " agent(s) (currently at "
                      +:+ pretty (actual_capacity pool) +:+ ")")) ;;;
      scale_pools_loop rest new_pool_sizes dry_run true
  end.

(** The second loop of [scale_pools], on the ACS branch: one [deploy] per
    element of [self.agent_pools].  The [lambda] reads [pool] when it runs,
    which is during the [deploy] call of the same iteration. *)
Fixpoint resize_loop (pools : list AgentPool) (new_pool_sizes : gmap string Z) : M unit :=
  match pools with
  | [] => ret tt
  | pool :: rest =>
    deploy (OpSetDesiredCapacity (name pool))
      (let* n := getitem new_pool_sizes (name pool) in
       set_desired_acs_agent_pool_capacity n)
      new_pool_sizes ;;;
    resize_loop rest new_pool_sizes
  end.

(** [scale_pools(new_pool_sizes, dry_run, is_scale_up)].  Python returns
    [None]; the value returned here is the caller's dictionary after the
    in-place clamping. *)
Definition scale_pools (new_pool_sizes : gmap string Z) (dry_run is_scale_up : bool)
    : M (gmap string Z) :=
  let* s := get_self in
  let* clamped := scale_pools_loop (agent_pools s) new_pool_sizes dry_run false in
  let '(new_pool_sizes, has_changes) := clamped in
  (if negb dry_run && has_changes then
     if negb (is_acs_engine s) then
       resize_loop (agent_pools s) new_pool_sizes
     else
       deploy (OpDeployPools is_scale_up) (deploy_pools new_pool_sizes is_scale_up)
         new_pool_sizes
   else ret tt) ;;;
  ret new_pool_sizes.

(** ** [ContainerService.scale_down] *)

Definition scale_down_message (pool : AgentPool) : string :=
  "Tried to scale down pool " +:+ name pool +:+ " to less than 1 agent".

Fixpoint scale_down_loop (pools : list AgentPool) (trim_map : gmap string Z)
    (new_pool_sizes : gmap string Z) : M (gmap string Z) :=
  match pools with
  | [] => ret new_pool_sizes
  | pool :: rest =>
    let* trim := getitem trim_map (name pool) in
    let new_agent_count := actual_capacity pool - trim in
    if new_agent_count <=? 0 then
      raise (Exception (scale_down_message pool))
    else
      let* trim := getitem trim_map (name pool) in
      logger_info ("Scaling down pool " +:+ name pool +:+ " by "
                   +:+ pretty trim +:+ " agents") ;;;
      scale_down_loop rest trim_map (<[name pool := new_agent_count]> new_pool_sizes)
  end.

Definition scale_down (trim_map : gmap string Z) (dry_run : bool) : M unit :=
  let* s := get_self in
  let* new_pool_sizes := scale_down_loop (agent_pools s) trim_map ∅ in
  scale_pools new_pool_sizes dry_run false ;;;
  ret tt.

(** ** Node teardown *)

(** [s.split(sep)] for a one-character separator. *)
Fixpoint split (sep : ascii) (s : string) : list string :=
  match s with
  | EmptyString => [EmptyString]
  | String c s' =>
    if Ascii.eqb c sep then EmptyString :: split sep s'
    else match split sep s' with
         | [] => [String c EmptyString]
         | w :: ws => String c w :: ws
         end
  end.

(** The names bound at the top level of [container_service.py]: its imports,
    [logger] and the class. *)
Definition module_globals : list string :=
  [ "get_mgmt_service_client"; "ResourceManagementClient"; "ContainerServiceClient";
    "StorageManagementClient"; "BlockBlobService"; "time"; "logging"; "utils";
    "AgentPool"; "logger"; "ContainerService" ].

(** Reading a global name: [NameError] when the module does not bind it. *)
Definition global_name (globals : list string) (ident : string) : M unit :=
  if bool_decide (ident ∈ globals) then ret tt else raise (NameError ident).

(** What the Azure SDK answers to the read-only calls of this module. *)
Record Provider := {
  (* [virtual_machines.get(rg, vm).storage_profile.os_disk.vhd.uri] *)
  vhd_uri : string -> string -> string;
  (* the [value]s of [storage_accounts.list_keys(rg, account).keys] *)
  storage_keys : string -> string -> list string;
  (* [container_services.get(rg, name)] *)
  container_service : string -> string -> Instance
}.

Section Service.

Variable provider : Provider.

(** [delete_resources_for_node], in a module whose top level binds
    [globals]. *)
Definition delete_resources_for_node_in (globals : list string) (node : Node) : M unit :=
  logger_info ("deleting node " +:+ node_name node) ;;;
  let* s := get_self in
  let rg := resource_group_name s in
  global_name globals "get_mgmt_service_client" ;;;
  global_name globals "ResourceManagementClient" ;;;
  global_name globals "get_mgmt_service_client" ;;;
  global_name globals "ComputeManagementClient" ;;;
  global_name globals "get_mgmt_service_client" ;;;
  global_name globals "StorageManagementClient" ;;;
  (* save disk location *)
  emit (VirtualMachinesGet rg (node_name node)) ;;;
  let storage_infos := split "/" (vhd_uri provider rg (node_name node)) in
  let* host := getindex storage_infos 2 in
  let* account_name := getindex (split "." host) 0 in
  let* container_name := getindex storage_infos 3 in
  let* blob_name := getindex storage_infos 4 in
  (* delete vm *)
  logger_info "Deleting VM" ;;;
  emit (ResourcesDelete rg "Microsoft.Compute" EmptyString "virtualMachines"
          (node_name node) "2016-03-30") ;;;
  emit (OperationWait (node_name node)) ;;;
  (* delete nic *)
  logger_info "Deleting NIC" ;;;
  let name_parts := split "-" (node_name node) in
  let* p0 := getindex name_parts 0 in
  let* p1 := getindex name_parts 1 in
  let* p2 := getindex name_parts 2 in
  let* p3 := getindex name_parts 3 in
  let nic_name := p0 +:+ "-" +:+ p1 +:+ "-" +:+ p2 +:+ "-nic-" +:+ p3 in
  emit (ResourcesDelete rg "Microsoft.Network" EmptyString "networkInterfaces"
          nic_name "2016-03-30") ;;;
  emit (OperationWait nic_name) ;;;
  (* delete os blob *)
  logger_info "Deleting OS disk" ;;;
  emit (StorageListKeys rg account_name) ;;;
  let* key := getindex (storage_keys provider rg account_name) 0 in
  global_name globals "BlockBlobService" ;;;
  emit (DeleteBlob account_name key container_name blob_name).

(** [delete_resources_for_node] as the module stands. *)
Definition delete_resources_for_node (node : Node) : M unit :=
  delete_resources_for_node_in module_globals node.

(** The loop of [delete_node]: its variable is called [pool], like the
    parameter, so each iteration rebinds the parameter. *)
Fixpoint delete_node_loop (pools : list AgentPool) (pool : AgentPool)
    (pool_sizes : gmap string Z) : AgentPool * gmap string Z :=
  match pools with
  | [] => (pool, pool_sizes)
  | p :: rest =>
    let pool := p in
    delete_node_loop rest pool (<[name pool := actual_capacity pool]> pool_sizes)
  end.

(** [delete_node(pool, node)], in a module whose top level binds [globals]. *)
Definition delete_node_in (globals : list string) (pool : AgentPool) (node : Node) : M unit :=
  let* s := get_self in
  let '(pool, pool_sizes) := delete_node_loop (agent_pools s) pool ∅ in
  let pool_sizes := <[name pool := actual_capacity pool - 1]> pool_sizes in
  deploy (OpDeleteResourcesForNode (node_name node))
    (delete_resources_for_node_in globals node) pool_sizes.

Definition delete_node (pool : AgentPool) (node : Node) : M unit :=
  delete_node_in module_globals pool node.

(** [pools.setdefault(pool_name, []).append(node)] on a dictionary that
    keeps its keys in insertion order. *)
Fixpoint setdefault_append (pool_name : string) (node : Node)
    (pools : list (string * list Node)) : list (string * list Node) :=
  match pools with
  | [] => [(pool_name, [node])]
  | (k, ns) :: rest =>
    if String.eqb k pool_name then (k, ns ++ [node]) :: rest
    else (k, ns) :: setdefault_append pool_name node rest
  end.

(** [utils.get_pool_name] is not part of the sources at hand; it is taken as
    given.  So is the ceiling that [AgentPool]'s constructor, which receives
    a name and the nodes only, gives to its [max_size]. *)
Variable get_pool_name : Node -> string.
Variable agent_pool_max_size : Z.

Definition group_nodes (nodes : list Node) : list (string * list Node) :=
  foldl (fun pools node => setdefault_append (get_pool_name node) node pools) [] nodes.

(** [get_agent_pools]. *)
Definition get_agent_pools (nodes : list Node) : list AgentPool :=
  (fun entry : string * list Node =>
     {| name := entry.1; nodes := entry.2; max_size := agent_pool_max_size |})
  <$> group_nodes nodes.

(** [__init__]: [arm_template] and [arm_parameters] are stored as they are
    passed, without a copy.  A [container_service_name] that is [None] or
    empty selects the acs-engine branch. *)
Definition init (resource_group : string) (nodes : list Node)
    (container_service_name : option string)
    (arm_template arm_parameters : option loc) : M unit :=
  match container_service_name with
  | Some (String c cs) =>
    let cs_name := String c cs in
    emit (ContainerServicesGet resource_group cs_name) ;;;
    put_self {| resource_group_name := resource_group;
                is_acs_engine := false;
                container_service_name := Some cs_name;
                instance := Some (container_service provider resource_group cs_name);
                arm_parameters := None;
                arm_template := None;
                max_agent_pool_size := 100;
                agent_pools := get_agent_pools nodes;
                desired_agent_pool_capacity := None |}
  | _ =>
    put_self {| resource_group_name := resource_group;
                is_acs_engine := true;
                container_service_name := None;
                instance := None;
                arm_parameters := arm_parameters;
                arm_template := arm_template;
                max_agent_pool_size := 100;
                agent_pools := get_agent_pools nodes;
                desired_agent_pool_capacity := None |}
  end.

End Service.

(** ** The polling loop of [main.py] *)

(** The longest sleep, in whole seconds, that [time.sleep] accepts: CPython
    converts the length to nanoseconds in a signed 64-bit integer. *)
Definition time_t_max : Z := Z.quot (2 ^ 63 - 1) 1000000000.

(** [time.sleep(seconds)] for an integer length, as [main] passes it: a
    length whose nanoseconds do not fit raises [OverflowError], whatever its
    sign; a negative length that fits raises [ValueError]. *)
Definition time_sleep (seconds : Z) : Result unit * list Event :=
  if (seconds <? - time_t_max) || (time_t_max <? seconds) then (Raise OverflowError, [])
  else if seconds <? 0 then (Raise ValueError, [])
  else (Ok tt, [Sleep seconds]).

(** The body of [while True], given whether [cluster.scale_loop(debug)]
    returned a true value: the next [backoff] and what the iteration did. *)
Definition loop_iteration (sleep : Z) (scaled : bool) (backoff : Z)
    : Result Z * list Event :=
  if scaled then
    match time_sleep sleep with
    | (Ok _, evs) => (Ok sleep, evs)
    | (Raise e, evs) => (Raise e, evs)
    end
  else
    let warning := LogWarn ("backoff: " +:+ pretty backoff) in
    let backoff := backoff * 2 in
    match time_sleep backoff with
    | (Ok _, evs) => (Ok backoff, warning :: evs)
    | (Raise e, evs) => (Raise e, warning :: evs)
    end.

(** The loop run for as many iterations as [outcomes] has answers of
    [scale_loop]. *)
Fixpoint main_loop (sleep : Z) (outcomes : list bool) (backoff : Z)
    : Result Z * list Event :=
  match outcomes with
  | [] => (Ok backoff, [])
  | scaled :: rest =>
    match loop_iteration sleep scaled backoff with
    | (Ok backoff, evs) =>
      let '(res, evs') := main_loop sleep rest backoff in (res, evs ++ evs')
    | (Raise e, evs) => (Raise e, evs)
    end
  end.

(** [main] from [backoff = sleep] on. *)
Definition main (sleep : Z) (outcomes : list bool) : Result Z * list Event :=
  main_loop sleep outcomes sleep.

(** ** [login] of [azure_login.py] *)

(** A value of a subscription dictionary, as far as [login] looks at it. *)
Inductive PyValue :=
| PyNone
| PyStr (s : string).

(** What [profile.find_subscriptions_on_login] did: it returned the
    subscriptions, or raised one of the two exceptions [login] catches, with
    the text [str(err)] gives. *)
Inductive FindOutcome :=
| Found (subscriptions : list (gmap string PyValue))
| AdalError (msg : string)
| ConnectionError (msg : string).

(** What [login] does: it returns the subscriptions or raises [CLIError]. *)
Inductive LoginResult :=
| LoggedIn (subscriptions : list (gmap string PyValue))
| CLIError (msg : string).

(** [needle in hay] on strings. *)
Fixpoint contains (needle hay : string) : bool :=
  String.prefix needle hay ||
  match hay with
  | EmptyString => false
  | String _ rest => contains needle rest
  end.

Definition suggestion : string :=
  "For cross-check, try 'az login' to authenticate through browser.".

(** The body of the [for sub in all_subscriptions] loop:
    [sub['cloudName'] = sub.pop('environmentName', None)]. *)
Definition rename_environment (sub : gmap string PyValue) : gmap string PyValue :=
  <["cloudName" := default PyNone (sub !! "environmentName")]>
    (delete "environmentName" sub).

Definition login (found : FindOutcome) : LoginResult :=
  match found with
  | AdalError msg =>
    if contains "ID3242:" msg || contains "Server returned an unknown AccountType" msg
    then CLIError ("The user name might be invalid. " +:+ suggestion)
    else if contains "Server returned error in RSTR - ErrorCode" msg
    then CLIError ("Logging in through command line is not supported. " +:+ suggestion)
    else CLIError msg
  | ConnectionError msg =>
    CLIError ("Please ensure you have network connection. Error detail: " +:+ msg)
  | Found subscriptions => LoggedIn (rename_environment <$> subscriptions)
  end.

(** ** Vocabulary of the statements *)

(** The state [st] after the events [evs] and nothing else: the object and
    the store are as before. *)
Definition with_trace (st : State) (evs : list Event) : State :=
  {| self := self st; templates := templates st;
     parameters := parameters st; trace := trace st ++ evs |}.

(** Log lines are the only events that reach neither Kubernetes nor Azure. *)
Definition is_log (e : Event) : bool :=
  match e with
  | LogInfo _ | LogWarn _ => true
  | _ => false
  end.

(** The size [scale_pools] settles on for [pool], given the dictionary it
    reads the candidate from. *)
Definition target (sizes : gmap string Z) (pool : AgentPool) : Z :=
  Z.min (max_size pool) (default 0 (sizes !! name pool)).

Definition at_capacity (sizes : gmap string Z) (pool : AgentPool) : bool :=
  target sizes pool =? actual_capacity pool.

(** One iteration of the first loop of [scale_pools], as a pure function:
    the write to the dictionary and the events. *)
Definition clamp (pool : AgentPool) (sizes : gmap string Z) : gmap string Z :=
  <[name pool := target sizes pool]> sizes.

Definition first_loop_event (dry_run : bool) (sizes : gmap string Z)
    (pool : AgentPool) : list Event :=
  let new_size := default 0 (sizes !! name pool) in
  if at_capacity sizes pool then
    [LogInfo ("Pool '" +:+ name pool +:+ "' already at desired capacity ("
              +:+ pretty (actual_capacity pool) +:+ ")")]
  else if dry_run then
    [LogInfo ("[Dry run] Would have scaled pool '" +:+ name pool +:+ "' to "
              +:+ pretty new_size +:+ " agent(s) (currently at "
              +:+ pretty (actual_capacity pool) +:+ ")")]
  else if new_size >? actual_capacity pool then
    [ReclaimUnschedulableNodes (name pool) new_size]
  else [].

Fixpoint clamp_all (pools : list AgentPool) (sizes : gmap string Z) : gmap string Z :=
  match pools with
  | [] => sizes
  | pool :: rest => clamp_all rest (clamp pool sizes)
  end.

Fixpoint first_loop_events (dry_run : bool) (pools : list AgentPool)
    (sizes : gmap string Z) : list Event :=
  match pools with
  | [] => []
  | pool :: rest =>
    first_loop_event dry_run sizes pool ++ first_loop_events dry_run rest (clamp pool sizes)
  end.

Fixpoint any_change (pools : list AgentPool) (sizes : gmap string Z) : bool :=
  match pools with
  | [] => false
  | pool :: rest => negb (at_capacity sizes pool) || any_change rest (clamp pool sizes)
  end.

(** Every pool has an entry in the dictionary. *)
Definition covers {V} (d : gmap string V) (pools : list AgentPool) : Prop :=
  ∀ pool, pool ∈ pools → is_Some (d !! name pool).

(** The managed service as [set_desired_acs_agent_pool_capacity] needs it:
    a resource group, a service name, and an instance with a first agent
    pool profile. *)
Definition acs_shape (rg cs pn : string) (others : list AgentPoolProfile)
    (s : ContainerService) : Prop :=
  resource_group_name s = rg ∧ container_service_name s = Some cs ∧
  ∃ c spp, instance s = Some {| agent_pool_profiles :=
                                  {| profile_name := pn; count := c |} :: others;
                                service_principal_profile := spp |}.

(** The instance after a resize to [n]: first profile's count written,
    service principal nulled. *)
Definition resized_instance (pn : string) (others : list AgentPoolProfile) (n : Z)
    : Instance :=
  {| agent_pool_profiles := {| profile_name := pn; count := n |} :: others;
     service_principal_profile := None |}.

(** The object after [set_desired_acs_agent_pool_capacity(n)]. *)
Definition after_resize (pn : string) (others : list AgentPoolProfile) (n : Z)
    (s : ContainerService) : ContainerService :=
  {| resource_group_name := resource_group_name s;
     is_acs_engine := is_acs_engine s;
     container_service_name := container_service_name s;
     instance := Some (resized_instance pn others n);
     arm_parameters := arm_parameters s;
     arm_template := arm_template s;
     max_agent_pool_size := max_agent_pool_size s;
     agent_pools := agent_pools s;
     desired_agent_pool_capacity := Some n |}.

(** What one iteration of the resize loop does for [pool]: the serialized
    call, then the update it wraps. *)
Definition resize_event (rg cs pn : string) (others : list AgentPoolProfile)
    (sizes : gmap string Z) (pool : AgentPool) : list Event :=
  [ Deploy (OpSetDesiredCapacity (name pool)) sizes;
    ContainerServicesCreateOrUpdate rg cs
      (resized_instance pn others (default 0 (sizes !! name pool))) ].

Definition resize_events (rg cs pn : string) (others : list AgentPoolProfile)
    (sizes : gmap string Z) (pools : list AgentPool) : list Event :=
  flat_map (resize_event rg cs pn others sizes) pools.

(** The pools a trace resizes, in order, and the pools off their target. *)
Definition resize_calls (evs : list Event) : list string :=
  omap (λ e, match e with
             | Deploy (OpSetDesiredCapacity pool) _ => Some pool
             | _ => None
             end) evs.

Definition changed_pools (sizes : gmap string Z) (pools : list AgentPool) : list string :=
  name <$> List.filter (λ pool, negb (at_capacity sizes pool)) pools.

(** The reading of the fixed-topology step under which only the pools off
    their target are resized. *)
Definition resizes_exactly_changed_pools (st : State) (sizes : gmap string Z)
    (is_scale_up : bool) : Prop :=
  resize_calls (drop (length (trace st))
                     (trace (scale_pools sizes false is_scale_up st).2))
  = changed_pools sizes (agent_pools (self st)).

(** One iteration of the loop of [deploy_pools], as a pure function on the
    parameter dictionary. *)
Definition write_pool (is_scale_up : bool) (sizes : gmap string Z) (pool : AgentPool)
    (ps : gmap string ParamValue) : gmap string ParamValue :=
  let n := default 0 (sizes !! name pool) in
  let ps := if is_scale_up && (actual_capacity pool <? n)
            then <[name pool +:+ "Offset" := IntValue (actual_capacity pool)]> ps
            else ps in
  <[name pool +:+ "Count" := IntValue n]> ps.

Fixpoint write_parameters (is_scale_up : bool) (sizes : gmap string Z)
    (pools : list AgentPool) (ps : gmap string ParamValue) : gmap string ParamValue :=
  match pools with
  | [] => ps
  | pool :: rest => write_parameters is_scale_up sizes rest (write_pool is_scale_up sizes pool ps)
  end.

(** The state with the dictionary at [lp] replaced. *)
Definition with_parameters (st : State) (lp : loc) (ps : gmap string ParamValue) : State :=
  {| self := self st; templates := templates st;
     parameters := <[lp := ps]> (parameters st); trace := trace st |}.

(** An acs-engine service whose two references point into the store. *)
Definition engine_shape (lp lt : loc) (ps : gmap string ParamValue) (t : Template)
    (st : State) : Prop :=
  arm_parameters (self st) = Some lp ∧ parameters st !! lp = Some ps ∧
  arm_template (self st) = Some lt ∧ templates st !! lt = Some t.

(** What [deploy_pools] returns and leaves behind, from a state of that
    shape. *)
Definition deploy_pools_outcome (is_scale_up : bool) (sizes : gmap string Z)
    (lp lt : loc) (ps : gmap string ParamValue) (t : Template) (st : State)
    : Result unit * State :=
  let ps' := write_parameters is_scale_up sizes (agent_pools (self st)) ps in
  let '(res, t') := if is_scale_up then prepare_template t else (Ok tt, t) in
  (res,
   {| self := self st;
      templates := if is_scale_up then <[lt := t']> (templates st) else templates st;
      parameters := <[lp := ps']> (parameters st);
      trace := trace st ++
               match res with
               | Ok _ => [DeploymentsCreateOrUpdate (resource_group_name (self st))
                            "autoscaler-deployment" (Some t') (Some ps') "incremental"]
               | Raise _ => []
               end |}).

(** The serialized calls of a trace. *)
Definition deploy_calls (evs : list Event) : list Operation :=
  omap (λ e, match e with Deploy op _ => Some op | _ => None end) evs.

(** The reading of the templated step under which a scale-up writes an
    offset for every pool. *)
Definition offsets_for_every_pool (st : State) (sizes : gmap string Z) (lp : loc) : Prop :=
  ∀ pool, pool ∈ agent_pools (self st) →
    parameters (scale_pools sizes false true st).2 !! lp
      ≫= (λ ps, ps !! (name pool +:+ "Offset"))
    = Some (IntValue (actual_capacity pool)).

(** What the outer loop of [prepare_template_for_scale_up] does to one
    resource that has the keys it reads. *)
Definition strip_nsg_dependency (r : Resource) : Resource :=
  if String.eqb (rtype r) vnet_type
  then {| rtype := rtype r; rname := rname r;
          dependsOn := pop_nsg_dependency <$> dependsOn r |}
  else r.

(** The index the outer loop ends with: that of the last security group,
    counting from [i], or the incoming one. *)
Fixpoint last_nsg_index (rs : list Resource) (i : Z) (nsg_resource_index : Z) : Z :=
  match rs with
  | [] => nsg_resource_index
  | r :: rest =>
    last_nsg_index rest (i + 1)
      (if String.eqb (rtype r) nsg_type then i else nsg_resource_index)
  end.

(** A resource has the keys the loop reads: a virtual network carries a
    ['dependsOn'] list. *)
Definition readable (r : Resource) : Prop :=
  rtype r = vnet_type → is_Some (dependsOn r).

(** The snapshot the loop of [delete_node] builds on top of [acc]. *)
Definition capacities (pools : list AgentPool) (acc : gmap string Z) : gmap string Z :=
  foldl (λ d pool, <[name pool := actual_capacity pool]> d) acc pools.

(** A computation that only adds events: the object and the store are as
    before, whether it returns or raises. *)
Definition appends {A} (m : M A) : Prop :=
  ∀ st, ∃ res evs, m st = (res, with_trace st evs).

(** The network interfaces a trace deletes, in order. *)
Definition nic_deletions (evs : list Event) : list string :=
  omap (λ e, match e with
             | ResourcesDelete _ namespace _ kind rname _ =>
               if String.eqb namespace "Microsoft.Network"
                  && String.eqb kind "networkInterfaces"
               then Some rname else None
             | _ => None
             end) evs.

(** The module's names with the one [delete_resources_for_node] reads and
    the module does not import. *)
Definition globals_with_compute_client : list string :=
  "ComputeManagementClient" :: module_globals.

(** The node of the spec's teardown scenario. *)
Definition scenario_node : Node := {| node_name := "pool-a-12345-vm-3" |}.

(** The scenario as the spec words it: the interface deleted is
    ["pool-a-12345-nic-3"]. *)
Definition teardown_deletes_nic_3 (provider : Provider) (globals : list string)
    (st : State) : Prop :=
  nic_deletions (drop (length (trace st))
                      (trace (delete_resources_for_node_in provider globals
                                scenario_node st).2))
  = ["pool-a-12345-nic-3"].

(** The reading of [delete_node] under which the owning pool's entry is the
    one decremented: the snapshot handed to the serializer maps the owning
    pool to its capacity less one and every other pool to its capacity. *)
Definition decrements_owning_pool (provider : Provider) (st : State)
    (pool : AgentPool) (node : Node) : Prop :=
  ∃ snapshot evs,
    drop (length (trace st)) (trace (delete_node provider pool node st).2)
    = Deploy (OpDeleteResourcesForNode (node_name node)) snapshot :: evs ∧
    snapshot !! name pool = Some (actual_capacity pool - 1) ∧
    ∀ other, other ∈ agent_pools (self st) → name other ≠ name pool →
             snapshot !! name other = Some (actual_capacity other).

(** ** Sample clusters *)

Definition sample_pool (pool_name : string) (size : nat) (ceiling : Z) : AgentPool :=
  {| name := pool_name;
     nodes := (λ i, {| node_name := "k8s-" +:+ pool_name +:+ "-12345678-" +:+ pretty i |})
              <$> seq 0 size;
     max_size := ceiling |}.

Definition sample_pools : list AgentPool :=
  [sample_pool "poola" 3 5; sample_pool "poolb" 2 5].

(** A managed (ACS) service with two pools. *)
Definition sample_acs : State :=
  {| self := {| resource_group_name := "rg";
                is_acs_engine := false;
                container_service_name := Some "cs";
                instance := Some {| agent_pool_profiles :=
                                      [{| profile_name := "agentpool"; count := 5 |}];
                                    service_principal_profile := Some "principal" |};
                arm_parameters := None;
                arm_template := None;
                max_agent_pool_size := 100;
                agent_pools := sample_pools;
                desired_agent_pool_capacity := None |};
     templates := ∅;
     parameters := ∅;
     trace := [] |}.

(** An intent that grows the first pool past its ceiling and leaves the
    second where it is. *)
Definition sample_sizes : gmap string Z := {[ "poola" := 10; "poolb" := 2 ]}.

Definition sample_template : Template :=
  {| resources :=
       [ {| rtype := nsg_type; rname := "nsg"; dependsOn := None |};
         {| rtype := vnet_type; rname := "vnet";
            dependsOn := Some [nsg_dependency; "routeTable"] |};
         {| rtype := "Microsoft.Compute/virtualMachines"; rname := "vm";
            dependsOn := Some ["nic"] |} ] |}.

(** An acs-engine service with the same two pools; its template is at
    location 0 and its parameters at location 1. *)
Definition sample_engine : State :=
  {| self := {| resource_group_name := "rg";
                is_acs_engine := true;
                container_service_name := None;
                instance := None;
                arm_parameters := Some 1%nat;
                arm_template := Some 0%nat;
                max_agent_pool_size := 100;
                agent_pools := sample_pools;
                desired_agent_pool_capacity := None |};
     templates := {[ 0%nat := sample_template ]};
     parameters := {[ 1%nat := {[ "location" := FileValue "westeurope" ]} ]};
     trace := [] |}.

(** A template without a network security group. *)
Definition template_without_nsg : Template :=
  {| resources :=
       [ {| rtype := vnet_type; rname := "vnet";
            dependsOn := Some [nsg_dependency; "routeTable"] |};
         {| rtype := "Microsoft.Compute/virtualMachines"; rname := "vm";
            dependsOn := Some ["nic"] |};
         {| rtype := "Microsoft.Storage/storageAccounts"; rname := "storage";
            dependsOn := None |} ] |}.

(** A provider whose disks are page blobs of one storage account. *)
Definition sample_provider : Provider :=
  {| vhd_uri := λ _ vm, "https://acct.blob.core.windows.net/vhds/" +:+ vm +:+ "-osdisk.vhd";
     storage_keys := λ _ _, ["key1"; "key2"];
     container_service := λ _ _, {| agent_pool_profiles :=
                                      [{| profile_name := "agentpool"; count := 5 |}];
                                    service_principal_profile := Some "principal" |} |}.

(** An intent that asks every pool for the size it has. *)
Definition steady_sizes : gmap string Z := {[ "poola" := 3; "poolb" := 2 ]}.

(** A trim map that would empty the first pool. *)
Definition emptying_trim : gmap string Z := {[ "poola" := 3; "poolb" := 1 ]}.

(** ** Vocabulary of the further properties *)

(** What [get_agent_pools] has built after the nodes [seen]: keys are
    distinct, every entry holds, in order, the nodes seen so far that carry
    its key, at least one, and every node seen has its key present. *)
Definition grouped (get_pool_name : Node → string) (seen : list Node)
    (acc : list (string * list Node)) : Prop :=
  NoDup (fst <$> acc) ∧
  (∀ k ns, (k, ns) ∈ acc → ns ≠ [] ∧ ns = filter (λ n, get_pool_name n = k) seen) ∧
  (∀ n, n ∈ seen → get_pool_name n ∈ fst <$> acc).

(** The agents of a cluster, all pools together. *)
Definition total_capacity (pools : list AgentPool) : Z :=
  foldr (λ pool total, actual_capacity pool + total) 0 pools.

(** A computation that, from every state, ends in a state related to the
    one it started from, whether it returns or raises. *)
Definition runs (R : State → State → Prop) {A} (m : M A) : Prop :=
  ∀ st, ∃ res st', m st = (res, st') ∧ R st st'.

(** The trace grew by events that all satisfy [P]. *)
Definition extends_trace (P : Event → bool) (st st' : State) : Prop :=
  ∃ evs, trace st' = trace st ++ evs ∧ Forall (λ e, P e = true) evs.

(** What the first loop of [scale_pools] can emit. *)
Definition first_loop_vocabulary (e : Event) : bool :=
  match e with
  | LogInfo _ | ReclaimUnschedulableNodes _ _ => true
  | _ => false
  end.

(** What the managed (ACS) branch of [scale_pools] can emit after the loop. *)
Definition acs_update (e : Event) : bool :=
  match e with
  | Deploy (OpSetDesiredCapacity _) _ | ContainerServicesCreateOrUpdate _ _ _ => true
  | _ => false
  end.

(** What the acs-engine branch of [scale_pools] can emit after the loop. *)
Definition engine_update (e : Event) : bool :=
  match e with
  | Deploy (OpDeployPools _) _ | DeploymentsCreateOrUpdate _ _ _ _ _ => true
  | _ => false
  end.

(** A step of the managed branch: updates of the service only; the store,
    the pools and the branch flag stay. *)
Definition acs_step (st st' : State) : Prop :=
  extends_trace acs_update st st' ∧
  templates st' = templates st ∧ parameters st' = parameters st ∧
  agent_pools (self st') = agent_pools (self st) ∧
  is_acs_engine (self st') = is_acs_engine (self st).

(** A step of the acs-engine branch: redeploys only; the object stays. *)
Definition engine_step (st st' : State) : Prop :=
  extends_trace engine_update st st' ∧ self st' = self st.

(** A step that only adds first-loop events. *)
Definition first_loop_step (st st' : State) : Prop :=
  ∃ evs, st' = with_trace st evs ∧ Forall (λ e, first_loop_vocabulary e = true) evs.

(** The dictionary the loop of [scale_down] builds on top of [acc], and the
    lines it logs, when no pool is taken below one agent. *)
Definition shrunk_sizes (trim_map : gmap string Z) (pools : list AgentPool)
    (acc : gmap string Z) : gmap string Z :=
  foldl (λ d pool, <[name pool := actual_capacity pool - default 0 (trim_map !! name pool)]> d)
    acc pools.

Definition scale_down_logs (trim_map : gmap string Z) (pools : list AgentPool) : list Event :=
  (λ pool, LogInfo ("Scaling down pool " +:+ name pool +:+ " by "
                    +:+ pretty (default 0 (trim_map !! name pool)) +:+ " agents"))
  <$> pools.

Definition is_reclaim (e : Event) : bool :=
  match e with
  | ReclaimUnschedulableNodes _ _ => true
  | _ => false
  end.

(** A templated service whose first pool holds three nodes under a ceiling
    of two. *)
Definition crowded_engine : State :=
  {| self := {| resource_group_name := "rg";
                is_acs_engine := true;
                container_service_name := None;
                instance := None;
                arm_parameters := Some 1%nat;
                arm_template := Some 0%nat;
                max_agent_pool_size := 100;
                agent_pools := [sample_pool "poola" 3 2; sample_pool "poolb" 2 5];
                desired_agent_pool_capacity := None |};
     templates := {[ 0%nat := sample_template ]};
     parameters := {[ 1%nat := {[ "location" := FileValue "westeurope" ]} ]};
     trace := [] |}.

(** A managed service whose instance lists no agent pool profile. *)
Definition bare_acs : State :=
  {| self := {| resource_group_name := "rg";
                is_acs_engine := false;
                container_service_name := Some "cs";
                instance := Some {| agent_pool_profiles := [];
                                    service_principal_profile := Some "principal" |};
                arm_parameters := None;
                arm_template := None;
                max_agent_pool_size := 100;
                agent_pools := sample_pools;
                desired_agent_pool_capacity := None |};
     templates := ∅;
     parameters := ∅;
     trace := [] |}.

(** What identifies a resource of the template: its type and its name. *)
Definition identity (r : Resource) : string * string := (rtype r, rname r).

(** A template whose second virtual network carries no ['dependsOn']. *)
Definition template_with_bare_vnet : Template :=
  {| resources :=
       [ {| rtype := vnet_type; rname := "vnet-a";
            dependsOn := Some ["routeTable"; nsg_dependency; nsg_dependency] |};
         {| rtype := nsg_type; rname := "nsg"; dependsOn := None |};
         {| rtype := vnet_type; rname := "vnet-b"; dependsOn := None |};
         {| rtype := "Microsoft.Compute/virtualMachines"; rname := "vm";
            dependsOn := Some ["nic"] |} ] |}.

(** A string without a dash. *)
Definition dash_free (s : string) : Prop :=
  "-"%char ∉ String.list_ascii_of_string s.

(** A provider that reports a disk URI without a blob name, and one whose
    storage account has no key. *)
Definition provider_with_short_uri : Provider :=
  {| vhd_uri := λ _ _, "https://acct.blob.core.windows.net/vhds";
     storage_keys := storage_keys sample_provider;
     container_service := container_service sample_provider |}.

Definition provider_without_keys : Provider :=
  {| vhd_uri := vhd_uri sample_provider;
     storage_keys := λ _ _, [];
     container_service := container_service sample_provider |}.



(** A stand-in for [utils.get_pool_name]: the second field of a dash-separated
    node name. *)
Definition second_field (node : Node) : string :=
  default EmptyString (split "-" (node_name node) !! 1%nat).

Definition sample_nodes : list Node :=
  [ {| node_name := "k8s-poola-12345678-0" |};
    {| node_name := "k8s-poolb-12345678-0" |};
    {| node_name := "k8s-poola-12345678-1" |} ].

(** A subscription as the profile reports it. *)
Definition sample_subscription : gmap string PyValue :=
  {[ "environmentName" := PyStr "AzureCloud"; "id" := PyStr "0000";
     "cloudName" := PyStr "stale" ]}.




(** The line a dry run of [scale_pools] logs for a pool, read off the
    dictionary as it was handed in: the size it reports is the one asked for,
    as read before the clamp. *)
Definition dry_run_line (sizes : gmap string Z) (pool : AgentPool) : Event :=
  let requested := default 0 (sizes !! name pool) in
  if Z.min (max_size pool) requested =? actual_capacity pool then
    LogInfo ("Pool '" +:+ name pool +:+ "' already at desired capacity ("
             +:+ pretty (actual_capacity pool) +:+ ")")
  else
    LogInfo ("[Dry run] Would have scaled pool '" +:+ name pool +:+ "' to "
             +:+ pretty requested +:+ " agent(s) (currently at "
             +:+ pretty (actual_capacity pool) +:+ ")").

(** The text of a log line. *)
Definition log_text (e : Event) : option string :=
  match e with
  | LogInfo msg | LogWarn msg => Some msg
  | _ => None
  end.

(** Some log line among [evs] mentions the number [v]. *)
Definition mentions (v : Z) (evs : list Event) : bool :=
  existsb (λ e, match log_text e with
                | Some msg => contains (pretty v) msg
                | None => false
                end) evs.

(** The last clause of C7 as the spec words it: a dry run reports the
    would-be target of every pool it would change. *)
Definition dry_run_reports_targets (st : State) (sizes : gmap string Z)
    (is_scale_up : bool) : Prop :=
  ∀ pool, pool ∈ agent_pools (self st) → at_capacity sizes pool = false →
    mentions (target sizes pool)
      (drop (length (trace st)) (trace (scale_pools sizes true is_scale_up st).2)) = true.

(** ** The monad's equations *)

Lemma with_trace_nil st : with_trace st [] = st.
Proof. destruct st; unfold with_trace; simpl. by rewrite app_nil_r. Qed.

Lemma with_trace_app st evs evs' :
  with_trace (with_trace st evs) evs' = with_trace st (evs ++ evs').
Proof. unfold with_trace; simpl. by rewrite app_assoc. Qed.

Lemma emit_with_trace e st : emit e st = (Ok tt, with_trace st [e]).
Proof. reflexivity. Qed.

Lemma bind_ok {A B} (m : M A) (k : A → M B) st a st' :
  m st = (Ok a, st') → bind m k st = k a st'.
Proof. intros H. unfold bind. by rewrite H. Qed.

Ltac mstep H := rewrite (bind_ok _ _ _ _ _ H); cbv beta.

Lemma bind_raise {A B} (m : M A) (k : A → M B) st e st' :
  m st = (Raise e, st') → bind m k st = (Raise e, st').
Proof. intros H. unfold bind. by rewrite H. Qed.

Lemma getitem_some {V} (d : gmap string V) key v st :
  d !! key = Some v → getitem d key st = (Ok v, st).
Proof. intros H. unfold getitem. by rewrite H. Qed.

Lemma getitem_none {V} (d : gmap string V) key st :
  d !! key = None → getitem d key st = (Raise (KeyError key), st).
Proof. intros H. unfold getitem. by rewrite H. Qed.

(** ** The polling loop *)

Lemma time_t_max_value : time_t_max = 9223372036.
Proof. reflexivity. Qed.
















(** ** The first loop of [scale_pools] *)

Lemma clamp_lookup_ne pool sizes key :
  key ≠ name pool → clamp pool sizes !! key = sizes !! key.
Proof. intros Hne. unfold clamp. by rewrite lookup_insert_ne. Qed.

Lemma clamp_covers pool sizes pools : covers sizes pools → covers (clamp pool sizes) pools.
Proof.
  intros Hcov q Hq. unfold clamp.
  destruct (decide (name pool = name q)) as [->|Hne].
  - rewrite lookup_insert_eq. eauto.
  - rewrite lookup_insert_ne by done. by apply Hcov.
Qed.

Lemma covers_cons {V} (d : gmap string V) pool pools :
  covers d (pool :: pools) → is_Some (d !! name pool) ∧ covers d pools.
Proof.
  intros Hcov. split.
  - apply Hcov. left.
  - intros q Hq. apply Hcov. by right.
Qed.

Lemma covers_Forall {V} (d : gmap string V) pools :
  Forall (λ pool, is_Some (d !! name pool)) pools → covers d pools.
Proof. intros H pool Hin. by apply (proj1 (Forall_forall _ _) H). Qed.

(** With an entry for every pool the loop runs to its end; what it returns
    and what it does are given by the pure functions above. *)
Lemma scale_pools_loop_run pools : ∀ sizes dry_run has_changes st,
  covers sizes pools →
  scale_pools_loop pools sizes dry_run has_changes st
  = (Ok (clamp_all pools sizes, has_changes || any_change pools sizes),
     with_trace st (first_loop_events dry_run pools sizes)).
Proof.
  induction pools as [|pool rest IH]; intros sizes dry_run has_changes st Hcov.
  - simpl. unfold ret. by rewrite orb_false_r, with_trace_nil.
  - apply covers_cons in Hcov as [[c Hc] Hrest].
    cbn [scale_pools_loop clamp_all first_loop_events any_change].
    rewrite (bind_ok _ _ _ _ _ (getitem_some _ _ _ _ Hc)).
    rewrite (bind_ok _ _ _ (Z.min (max_size pool) c) st)
      by (apply getitem_some, lookup_insert_eq).
    assert (Htarget : target sizes pool = Z.min (max_size pool) c)
      by (unfold target; by rewrite Hc).
    unfold first_loop_event, at_capacity. rewrite Htarget, Hc. simpl default.
    fold (clamp pool sizes) in *.
    assert (Hclamp : <[name pool := Z.min (max_size pool) c]> sizes = clamp pool sizes)
      by (unfold clamp; by rewrite Htarget).
    rewrite Hclamp.
    destruct (Z.min (max_size pool) c =? actual_capacity pool) eqn:Hat.
    + unfold logger_info. rewrite (bind_ok _ _ _ _ _ (emit_with_trace _ _)).
      rewrite IH by (by apply clamp_covers). by rewrite with_trace_app.
    + destruct dry_run; simpl negb; cbv iota.
      * unfold logger_info. rewrite (bind_ok _ _ _ _ _ (emit_with_trace _ _)).
        rewrite IH by (by apply clamp_covers).
        rewrite with_trace_app. simpl. by rewrite orb_true_r.
      * destruct (c >? actual_capacity pool).
        -- unfold reclaim_unschedulable_nodes.
           rewrite (bind_ok _ _ _ _ _ (emit_with_trace _ _)).
           rewrite IH by (by apply clamp_covers).
           rewrite with_trace_app. simpl. by rewrite orb_true_r.
        -- rewrite (bind_ok _ _ _ tt st) by reflexivity.
           rewrite IH by (by apply clamp_covers). simpl. by rewrite orb_true_r.
Qed.

Lemma target_clamp_ne pool q sizes :
  name q ≠ name pool → target (clamp pool sizes) q = target sizes q.
Proof. intros Hne. unfold target. by rewrite clamp_lookup_ne. Qed.

Lemma clamp_all_lookup_notin pools : ∀ sizes key,
  key ∉ name <$> pools → clamp_all pools sizes !! key = sizes !! key.
Proof.
  induction pools as [|pool rest IH]; intros sizes key Hnotin; simpl; [done|].
  rewrite fmap_cons, not_elem_of_cons in Hnotin. destruct Hnotin as [Hne Hrest].
  rewrite IH by done. by apply clamp_lookup_ne.
Qed.

Lemma clamp_all_lookup pools : ∀ sizes pool,
  NoDup (name <$> pools) → pool ∈ pools →
  clamp_all pools sizes !! name pool = Some (target sizes pool).
Proof.
  induction pools as [|p rest IH]; intros sizes pool Hnd Hin; [by inversion Hin|].
  rewrite fmap_cons, NoDup_cons in Hnd. destruct Hnd as [Hfresh Hnd].
  simpl. apply elem_of_cons in Hin as [->|Hin].
  - rewrite clamp_all_lookup_notin by done. unfold clamp. by rewrite lookup_insert_eq.
  - rewrite IH by done. f_equal. apply target_clamp_ne.
    intros Heq. apply Hfresh. rewrite <- Heq. by apply list_elem_of_fmap_2.
Qed.

Lemma at_capacity_clamp_rest pool (rest : list AgentPool) sizes :
  name pool ∉ name <$> rest →
  ∀ q, q ∈ rest → target (clamp pool sizes) q = target sizes q.
Proof.
  intros Hfresh q Hq. apply target_clamp_ne.
  intros Heq. apply Hfresh. rewrite <- Heq. by apply list_elem_of_fmap_2.
Qed.

(** With distinct pool names, a pass in which every pool is at its target
    sees no change and only logs. *)
Lemma first_loop_all_at_capacity dry_run pools : ∀ sizes,
  NoDup (name <$> pools) →
  (∀ pool, pool ∈ pools → target sizes pool = actual_capacity pool) →
  any_change pools sizes = false ∧
  Forall (λ e, is_log e = true) (first_loop_events dry_run pools sizes).
Proof.
  induction pools as [|p rest IH]; intros sizes Hnd Hall; simpl; [by split|].
  rewrite fmap_cons, NoDup_cons in Hnd. destruct Hnd as [Hfresh Hnd].
  assert (Hp : at_capacity sizes p = true).
  { unfold at_capacity. apply Z.eqb_eq, Hall. left. }
  destruct (IH (clamp p sizes) Hnd) as [Hchg Hlog].
  { intros q Hq. rewrite (at_capacity_clamp_rest p rest) by done.
    apply Hall. by right. }
  unfold first_loop_event. rewrite Hp, Hchg. split; [done|].
  constructor; [done|exact Hlog].
Qed.

(** With distinct pool names, the pass sees a change exactly when some pool
    is off its target. *)
Lemma any_change_true pools : ∀ sizes,
  NoDup (name <$> pools) →
  (∃ pool, pool ∈ pools ∧ target sizes pool ≠ actual_capacity pool) →
  any_change pools sizes = true.
Proof.
  induction pools as [|p rest IH]; intros sizes Hnd (pool & Hin & Hoff);
    [by inversion Hin|].
  rewrite fmap_cons, NoDup_cons in Hnd. destruct Hnd as [Hfresh Hnd].
  simpl. apply elem_of_cons in Hin as [->|Hin].
  - unfold at_capacity. apply Z.eqb_neq in Hoff. by rewrite Hoff.
  - rewrite (IH (clamp p sizes) Hnd); [by rewrite orb_true_r|].
    exists pool. split; [done|].
    by rewrite (at_capacity_clamp_rest p rest).
Qed.

(** In a dry run the first loop only logs, whatever the dictionary holds. *)
Lemma scale_pools_loop_dry_run pools : ∀ sizes has_changes st,
  ∃ res evs, scale_pools_loop pools sizes true has_changes st = (res, with_trace st evs) ∧
             Forall (λ e, is_log e = true) evs.
Proof.
  induction pools as [|pool rest IH]; intros sizes has_changes st.
  - exists (Ok (sizes, has_changes)), []. by rewrite with_trace_nil.
  - cbn [scale_pools_loop].
    destruct (sizes !! name pool) as [c|] eqn:Hc.
    + rewrite (bind_ok _ _ _ _ _ (getitem_some _ _ _ _ Hc)).
      rewrite (bind_ok _ _ _ (Z.min (max_size pool) c) st)
        by (apply getitem_some, lookup_insert_eq).
      destruct (Z.min (max_size pool) c =? actual_capacity pool); simpl negb; cbv iota;
        unfold logger_info; rewrite (bind_ok _ _ _ _ _ (emit_with_trace _ _));
        match goal with
        | |- context [scale_pools_loop rest ?d true ?hc ?s] =>
          destruct (IH d hc s) as (res & evs & -> & Hlog)
        end;
        rewrite with_trace_app; eexists _, _; (split; [reflexivity|]);
        by constructor.
    + rewrite (bind_raise _ _ _ _ _ (getitem_none _ _ _ Hc)).
      exists (Raise (KeyError (name pool))), []. by rewrite with_trace_nil.
Qed.

(** C1: with an entry for every pool and distinct pool names, the first loop
    of [scale_pools] runs to its end and leaves [min(max_size, candidate)] in
    every pool's entry; and when that value is the pool's [actual_capacity]
    for every pool, [scale_pools] returns with the object and the store
    untouched, having only logged: no [deploy], no provider call. *)
Theorem scale_pools_clamps_and_skips_at_capacity
    (st : State) (sizes : gmap string Z) (dry_run is_scale_up : bool) :
  NoDup (name <$> agent_pools (self st)) →
  covers sizes (agent_pools (self st)) →
  (∃ sizes' has_changes evs,
      scale_pools_loop (agent_pools (self st)) sizes dry_run false st
      = (Ok (sizes', has_changes), with_trace st evs) ∧
      ∀ pool candidate,
        pool ∈ agent_pools (self st) → sizes !! name pool = Some candidate →
        sizes' !! name pool = Some (Z.min (max_size pool) candidate)) ∧
  ((∀ pool candidate,
       pool ∈ agent_pools (self st) → sizes !! name pool = Some candidate →
       Z.min (max_size pool) candidate = actual_capacity pool) →
   ∃ sizes' evs,
      scale_pools sizes dry_run is_scale_up st = (Ok sizes', with_trace st evs) ∧
      Forall (λ e, is_log e = true) evs ∧
      ∀ pool, pool ∈ agent_pools (self st) →
              sizes' !! name pool = Some (actual_capacity pool)).
Proof.
  intros Hnd Hcov. split.
  - eexists _, _, _. split; [by apply scale_pools_loop_run|].
    intros pool c Hin Hc. rewrite clamp_all_lookup by done.
    unfold target. by rewrite Hc.
  - intros Hall.
    assert (Hall' : ∀ pool, pool ∈ agent_pools (self st) →
                            target sizes pool = actual_capacity pool).
    { intros pool Hin. destruct (Hcov pool Hin) as [c Hc].
      unfold target. rewrite Hc. by apply Hall. }
    destruct (first_loop_all_at_capacity dry_run _ sizes Hnd Hall') as [Hchg Hlog].
    exists (clamp_all (agent_pools (self st)) sizes),
           (first_loop_events dry_run (agent_pools (self st)) sizes).
    split; [|split; [done|]].
    + unfold scale_pools.
      rewrite (bind_ok _ _ _ (self st) st) by reflexivity.
      rewrite (bind_ok _ _ _ _ _ (scale_pools_loop_run _ _ _ _ _ Hcov)).
      rewrite Hchg, andb_false_r. reflexivity.
    + intros pool Hin. rewrite clamp_all_lookup by done. f_equal. by apply Hall'.
Qed.

Lemma scale_pools_clamps_and_skips_at_capacity_witness :
  NoDup (name <$> agent_pools (self sample_acs)) ∧
  covers steady_sizes (agent_pools (self sample_acs)) ∧
  (∃ sizes' has_changes evs,
      scale_pools_loop (agent_pools (self sample_acs)) steady_sizes false false sample_acs
      = (Ok (sizes', has_changes), with_trace sample_acs evs) ∧
      ∀ pool candidate,
        pool ∈ agent_pools (self sample_acs) → steady_sizes !! name pool = Some candidate →
        sizes' !! name pool = Some (Z.min (max_size pool) candidate)) ∧
  (∃ sizes' evs,
      scale_pools steady_sizes false true sample_acs = (Ok sizes', with_trace sample_acs evs) ∧
      Forall (λ e, is_log e = true) evs ∧
      ∀ pool, pool ∈ agent_pools (self sample_acs) →
              sizes' !! name pool = Some (actual_capacity pool)).
Proof.
  assert (Hnd : NoDup (name <$> agent_pools (self sample_acs))) by compute_done.
  assert (Hcov : covers steady_sizes (agent_pools (self sample_acs)))
    by (apply covers_Forall; compute_done).
  split; [exact Hnd|]. split; [exact Hcov|].
  destruct (scale_pools_clamps_and_skips_at_capacity
              sample_acs steady_sizes false true Hnd Hcov) as [Hclamp Hskip].
  split; [exact Hclamp|]. apply Hskip.
  intros pool c Hin Hc. simpl in Hin.
  repeat (apply elem_of_cons in Hin as [->|Hin]);
    [vm_compute in Hc; injection Hc as <-; reflexivity..|by inversion Hin].
Defined.

(** ** Dry runs *)

Lemma scale_pools_dry_run sizes is_scale_up st :
  ∃ res evs, scale_pools sizes true is_scale_up st = (res, with_trace st evs) ∧
             Forall (λ e, is_log e = true) evs.
Proof.
  unfold scale_pools. rewrite (bind_ok _ _ _ (self st) st) by reflexivity.
  destruct (scale_pools_loop_dry_run (agent_pools (self st)) sizes false st)
    as ([[sizes' has_changes]|e] & evs & Hrun & Hlog).
  - rewrite (bind_ok _ _ _ _ _ Hrun). simpl. eauto.
  - rewrite (bind_raise _ _ _ _ _ Hrun). eauto.
Qed.

Lemma scale_down_loop_logs pools : ∀ trim_map new_pool_sizes st,
  ∃ res evs, scale_down_loop pools trim_map new_pool_sizes st = (res, with_trace st evs) ∧
             Forall (λ e, is_log e = true) evs.
Proof.
  induction pools as [|pool rest IH]; intros trim_map acc st.
  - exists (Ok acc), []. by rewrite with_trace_nil.
  - cbn [scale_down_loop].
    destruct (trim_map !! name pool) as [t|] eqn:Ht.
    + rewrite (bind_ok _ _ _ _ _ (getitem_some _ _ _ _ Ht)).
      destruct (actual_capacity pool - t <=? 0).
      * eexists _, []. by rewrite with_trace_nil.
      * rewrite (bind_ok _ _ _ _ _ (getitem_some _ _ _ _ Ht)).
        unfold logger_info. rewrite (bind_ok _ _ _ _ _ (emit_with_trace _ _)).
        match goal with
        | |- context [scale_down_loop rest ?tm ?d ?s] =>
          destruct (IH tm d s) as (res & evs & -> & Hlog)
        end.
        rewrite with_trace_app. eexists _, _. split; [reflexivity|]. by constructor.
    + rewrite (bind_raise _ _ _ _ _ (getitem_none _ _ _ Ht)).
      eexists _, []. by rewrite with_trace_nil.
Qed.

Lemma dry_run_line_clamp_ne pool q sizes :
  name q ≠ name pool → dry_run_line (clamp pool sizes) q = dry_run_line sizes q.
Proof. intros Hne. unfold dry_run_line. by rewrite clamp_lookup_ne. Qed.

(** In a dry run the first loop logs one line per pool, and each line is
    read off the dictionary as it was handed in. *)
Lemma first_loop_events_dry_lines pools : ∀ sizes,
  NoDup (name <$> pools) →
  first_loop_events true pools sizes = dry_run_line sizes <$> pools.
Proof.
  induction pools as [|p rest IH]; intros sizes Hnd; [done|].
  rewrite fmap_cons, NoDup_cons in Hnd. destruct Hnd as [Hfresh Hnd].
  cbn [first_loop_events]. rewrite IH by done. rewrite fmap_cons.
  assert (Hhead : first_loop_event true sizes p = [dry_run_line sizes p]).
  { unfold first_loop_event, at_capacity, target, dry_run_line.
    by destruct (_ =? _). }
  rewrite Hhead. simpl. f_equal.
  apply Forall_fmap_ext_1, Forall_forall. intros q Hq.
  apply dry_run_line_clamp_ne. intros Heq. apply Hfresh. rewrite <- Heq.
  by apply list_elem_of_fmap_2.
Qed.

(** C7, as the code has it: with [dry_run] set, [scale_pools] (in either
    direction) and [scale_down] leave the object and the store as they were
    and emit log lines only, whatever the intent holds and whether or not the
    pass completes: no reclaim, no [deploy], no resize, no redeploy.  What a
    completed pass reports is one line per pool, in order: for a pool whose
    clamped target is its capacity, that it is at its desired capacity; for
    any other pool, the size the intent asked for, as read before the clamp
    to [max_size], and the current capacity. *)
Theorem dry_run_only_logs_the_requests (st : State) :
  (∀ sizes is_scale_up,
      ∃ res evs, scale_pools sizes true is_scale_up st = (res, with_trace st evs) ∧
                 Forall (λ e, is_log e = true) evs) ∧
  (∀ trim_map,
      ∃ res evs, scale_down trim_map true st = (res, with_trace st evs) ∧
                 Forall (λ e, is_log e = true) evs) ∧
  (∀ sizes is_scale_up,
      covers sizes (agent_pools (self st)) →
      scale_pools sizes true is_scale_up st
      = (Ok (clamp_all (agent_pools (self st)) sizes),
         with_trace st (first_loop_events true (agent_pools (self st)) sizes))) ∧
  (∀ sizes is_scale_up,
      NoDup (name <$> agent_pools (self st)) →
      covers sizes (agent_pools (self st)) →
      scale_pools sizes true is_scale_up st
      = (Ok (clamp_all (agent_pools (self st)) sizes),
         with_trace st (dry_run_line sizes <$> agent_pools (self st)))).
Proof.
  assert (Hdry : ∀ sizes is_scale_up,
            covers sizes (agent_pools (self st)) →
            scale_pools sizes true is_scale_up st
            = (Ok (clamp_all (agent_pools (self st)) sizes),
               with_trace st (first_loop_events true (agent_pools (self st)) sizes))).
  { intros sizes is_scale_up Hcov. unfold scale_pools.
    rewrite (bind_ok _ _ _ (self st) st) by reflexivity.
    rewrite (bind_ok _ _ _ _ _ (scale_pools_loop_run _ _ _ _ _ Hcov)).
    reflexivity. }
  split; [|split; [|split; [exact Hdry|]]].
  3:{ intros sizes is_scale_up Hnd Hcov.
      rewrite <- first_loop_events_dry_lines by done. by apply Hdry. }
  - intros sizes is_scale_up. apply scale_pools_dry_run.
  - intros trim_map. unfold scale_down.
    rewrite (bind_ok _ _ _ (self st) st) by reflexivity.
    destruct (scale_down_loop_logs (agent_pools (self st)) trim_map ∅ st)
      as ([sizes|e] & evs & Hrun & Hlog).
    + rewrite (bind_ok _ _ _ _ _ Hrun).
      destruct (scale_pools_dry_run sizes false (with_trace st evs))
        as ([sizes'|e] & evs' & Hpass & Hlog').
      * rewrite (bind_ok _ _ _ _ _ Hpass). rewrite with_trace_app.
        eexists _, _. split; [reflexivity|]. by apply Forall_app.
      * rewrite (bind_raise _ _ _ _ _ Hpass). rewrite with_trace_app.
        eexists _, _. split; [reflexivity|]. by apply Forall_app.
    + rewrite (bind_raise _ _ _ _ _ Hrun). eauto.
Qed.

Lemma dry_run_only_logs_the_requests_witness :
  NoDup (name <$> agent_pools (self sample_acs)) ∧
  covers sample_sizes (agent_pools (self sample_acs)) ∧
  scale_pools sample_sizes true true sample_acs
  = (Ok (clamp_all sample_pools sample_sizes),
     with_trace sample_acs (first_loop_events true sample_pools sample_sizes)) ∧
  scale_pools sample_sizes true true sample_acs
  = (Ok (clamp_all sample_pools sample_sizes),
     with_trace sample_acs
       [LogInfo "[Dry run] Would have scaled pool 'poola' to 10 agent(s) (currently at 3)";
        LogInfo "Pool 'poolb' already at desired capacity (2)"]) ∧
  ∃ res evs, scale_down emptying_trim true sample_acs = (res, with_trace sample_acs evs) ∧
             Forall (λ e, is_log e = true) evs.
Proof.
  assert (Hnd : NoDup (name <$> agent_pools (self sample_acs))) by compute_done.
  assert (Hcov : covers sample_sizes (agent_pools (self sample_acs)))
    by (apply covers_Forall; compute_done).
  destruct (dry_run_only_logs_the_requests sample_acs) as (_ & Hdown & Hpass & Hlines).
  split; [exact Hnd|]. split; [exact Hcov|]. split; [exact (Hpass sample_sizes true Hcov)|].
  split; [exact (Hlines sample_sizes true Hnd Hcov)|].
  exact (Hdown emptying_trim).
Defined.

(** C7, as the spec words it, fails in its last clause: asked to take a pool
    of three agents and a ceiling of five to ten, the dry run reports ten;
    the would-be target, five, is in no line of the log. *)
Lemma dry_run_reports_the_request_not_the_target :
  ¬ dry_run_reports_targets sample_acs sample_sizes true.
Proof.
  intros Hreports.
  specialize (Hreports (sample_pool "poola" 3 5) ltac:(left) ltac:(by vm_compute)).
  vm_compute in Hreports. discriminate.
Qed.

(** ** Scale-down below one agent *)

Lemma scale_down_loop_raises pools : ∀ trim_map new_pool_sizes st,
  (∃ pool t, pool ∈ pools ∧ trim_map !! name pool = Some t ∧
             actual_capacity pool - t <= 0) →
  ∃ e evs,
    scale_down_loop pools trim_map new_pool_sizes st = (Raise e, with_trace st evs) ∧
    Forall (λ e, is_log e = true) evs ∧
    (covers trim_map pools →
     ∃ pool t, pool ∈ pools ∧ trim_map !! name pool = Some t ∧
               actual_capacity pool - t <= 0 ∧
               e = Exception (scale_down_message pool)).
Proof.
  induction pools as [|pool rest IH]; intros trim_map acc st (q & t & Hin & Ht & Hlow);
    [by inversion Hin|].
  cbn [scale_down_loop].
  destruct (trim_map !! name pool) as [t'|] eqn:Ht'.
  - rewrite (bind_ok _ _ _ _ _ (getitem_some _ _ _ _ Ht')).
    destruct (actual_capacity pool - t' <=? 0) eqn:Hcheck.
    + apply Z.leb_le in Hcheck.
      exists (Exception (scale_down_message pool)), [].
      rewrite with_trace_nil. split; [done|]. split; [done|].
      intros _. exists pool, t'. split; [left|done].
    + apply Z.leb_gt in Hcheck.
      assert (Hrest : q ∈ rest).
      { apply elem_of_cons in Hin as [->|Hin]; [|done].
        rewrite Ht' in Ht. injection Ht as ->. lia. }
      rewrite (bind_ok _ _ _ _ _ (getitem_some _ _ _ _ Ht')).
      unfold logger_info. rewrite (bind_ok _ _ _ _ _ (emit_with_trace _ _)).
      match goal with
      | |- context [scale_down_loop rest ?tm ?d ?s] =>
        destruct (IH tm d s) as (e & evs & -> & Hlog & Hexn); [by eauto|]
      end.
      rewrite with_trace_app. eexists _, _. split; [reflexivity|].
      split; [by constructor|].
      intros Hcov. apply covers_cons in Hcov as [_ Hcov].
      destruct (Hexn Hcov) as (p & tp & Hp & ? & ? & ?).
      exists p, tp. split; [by right|done].
  - rewrite (bind_raise _ _ _ _ _ (getitem_none _ _ _ Ht')).
    eexists _, []. rewrite with_trace_nil. split; [done|]. split; [done|].
    intros Hcov. apply covers_cons in Hcov as [[? Hsome] _]. congruence.
Qed.

(** C2: when the trim map would take some pool to zero agents or fewer,
    [scale_down] raises out of its own loop, before [scale_pools] is called,
    having emitted log lines only; and with an entry for every pool the
    exception raised is the scale-down one, for a pool the trim map takes to
    zero or fewer. *)
Theorem scale_down_below_one_raises
    (st : State) (trim_map : gmap string Z) (dry_run : bool) :
  (∃ pool t, pool ∈ agent_pools (self st) ∧ trim_map !! name pool = Some t ∧
             actual_capacity pool - t <= 0) →
  ∃ e evs,
    scale_down_loop (agent_pools (self st)) trim_map ∅ st = (Raise e, with_trace st evs) ∧
    scale_down trim_map dry_run st = (Raise e, with_trace st evs) ∧
    Forall (λ e, is_log e = true) evs ∧
    (covers trim_map (agent_pools (self st)) →
     ∃ pool t, pool ∈ agent_pools (self st) ∧ trim_map !! name pool = Some t ∧
               actual_capacity pool - t <= 0 ∧
               e = Exception (scale_down_message pool)).
Proof.
  intros Hlow.
  destruct (scale_down_loop_raises _ trim_map ∅ st Hlow) as (e & evs & Hrun & Hlog & Hexn).
  exists e, evs. split; [done|]. split; [|done].
  unfold scale_down. rewrite (bind_ok _ _ _ (self st) st) by reflexivity.
  by rewrite (bind_raise _ _ _ _ _ Hrun).
Qed.

Lemma scale_down_below_one_raises_witness :
  (∃ pool t, pool ∈ agent_pools (self sample_acs) ∧ emptying_trim !! name pool = Some t ∧
             actual_capacity pool - t <= 0) ∧
  covers emptying_trim (agent_pools (self sample_acs)) ∧
  ∃ e evs,
    scale_down_loop (agent_pools (self sample_acs)) emptying_trim ∅ sample_acs
    = (Raise e, with_trace sample_acs evs) ∧
    scale_down emptying_trim false sample_acs = (Raise e, with_trace sample_acs evs) ∧
    Forall (λ e, is_log e = true) evs ∧
    ∃ pool t, pool ∈ agent_pools (self sample_acs) ∧ emptying_trim !! name pool = Some t ∧
              actual_capacity pool - t <= 0 ∧
              e = Exception (scale_down_message pool).
Proof.
  assert (Hlow : ∃ pool t, pool ∈ agent_pools (self sample_acs) ∧
                           emptying_trim !! name pool = Some t ∧
                           actual_capacity pool - t <= 0).
  { exists (sample_pool "poola" 3 5), 3. split; [left|]. split; [reflexivity|]. compute_done. }
  assert (Hcov : covers emptying_trim (agent_pools (self sample_acs)))
    by (apply covers_Forall; compute_done).
  split; [exact Hlow|]. split; [exact Hcov|].
  destruct (scale_down_below_one_raises sample_acs emptying_trim false Hlow)
    as (e & evs & Hloop & Hrun & Hlog & Hexn).
  exists e, evs. repeat (split; [done|]). exact (Hexn Hcov).
Defined.

(** ** The fixed-topology path *)

Lemma bind_bind {A B C} (m : M A) (k : A → M B) (k' : B → M C) st :
  bind (bind m k) k' st = bind m (λ a, bind (k a) k') st.
Proof. unfold bind. by destruct (m st) as [[a|e] st']. Qed.

Lemma set_desired_run rg cs pn others n st :
  acs_shape rg cs pn others (self st) →
  set_desired_acs_agent_pool_capacity n st
  = (Ok tt, {| self := after_resize pn others n (self st);
               templates := templates st; parameters := parameters st;
               trace := trace st ++ [ContainerServicesCreateOrUpdate rg cs
                                       (resized_instance pn others n)] |}).
Proof.
  intros (Hrg & Hcs & c & spp & Hinst).
  unfold set_desired_acs_agent_pool_capacity, bind, get_self. cbv beta iota.
  rewrite Hinst. simpl. rewrite Hcs. simpl.
  unfold after_resize, resized_instance. by rewrite Hrg, Hcs.
Qed.

Lemma after_resize_shape rg cs pn others n s :
  acs_shape rg cs pn others s → acs_shape rg cs pn others (after_resize pn others n s).
Proof.
  intros (Hrg & Hcs & _). repeat split; [done..|]. eexists _, _. reflexivity.
Qed.

(** The resize loop issues, for every pool of the list in order, one
    serialized call and the update it wraps. *)
Lemma resize_loop_run rg cs pn others sizes pools : ∀ st,
  acs_shape rg cs pn others (self st) →
  covers sizes pools →
  ∃ s', resize_loop pools sizes st
        = (Ok tt, {| self := s'; templates := templates st; parameters := parameters st;
                     trace := trace st ++ resize_events rg cs pn others sizes pools |}) ∧
        acs_shape rg cs pn others s' ∧
        agent_pools s' = agent_pools (self st) ∧
        is_acs_engine s' = is_acs_engine (self st).
Proof.
  induction pools as [|pool rest IH]; intros st Hshape Hcov.
  - exists (self st). simpl. rewrite app_nil_r. by destruct st.
  - apply covers_cons in Hcov as [[n Hn] Hrest].
    cbn [resize_loop]. unfold deploy.
    rewrite bind_bind, (bind_ok _ _ _ _ _ (emit_with_trace _ _)). cbv beta.
    rewrite bind_bind, (bind_ok _ _ _ _ _ (getitem_some _ _ _ _ Hn)). cbv beta.
    rewrite (bind_ok _ _ _ _ _
               (set_desired_run rg cs pn others n (with_trace st _) Hshape)).
    match goal with
    | |- context [resize_loop rest sizes ?s] =>
      destruct (IH s) as (s' & -> & Hshape' & Hpools & Hengine);
        [by apply after_resize_shape|done|]
    end.
    exists s'. split; [|by split].
    f_equal. simpl. unfold resize_events, resize_event. simpl.
    rewrite Hn. simpl. by rewrite <- !app_assoc.
Qed.

Lemma resize_calls_resize_events rg cs pn others sizes (pools : list AgentPool) :
  resize_calls (resize_events rg cs pn others sizes pools) = name <$> pools.
Proof. induction pools as [|pool rest IH]; [done|]. simpl. f_equal. exact IH. Qed.

(** C3, as the code has it: on the managed (ACS) branch, outside a dry run
    and with some pool off its target, [scale_pools] issues one serialized
    resize for every pool of [self.agent_pools], in order, whether or not
    that pool's target differs from its capacity; each carries the pool's
    clamped target and an instance whose service principal is nulled. *)
Theorem fixed_topology_resizes_every_pool
    (st : State) (sizes : gmap string Z) (is_scale_up : bool)
    (rg cs pn : string) (others : list AgentPoolProfile) :
  is_acs_engine (self st) = false →
  acs_shape rg cs pn others (self st) →
  NoDup (name <$> agent_pools (self st)) →
  covers sizes (agent_pools (self st)) →
  (∃ pool, pool ∈ agent_pools (self st) ∧ target sizes pool ≠ actual_capacity pool) →
  let pools := agent_pools (self st) in
  let sizes' := clamp_all pools sizes in
  ∃ s',
    scale_pools sizes false is_scale_up st
    = (Ok sizes',
       {| self := s'; templates := templates st; parameters := parameters st;
          trace := trace st ++ first_loop_events false pools sizes
                            ++ resize_events rg cs pn others sizes' pools |}) ∧
    (∀ pool, pool ∈ pools → sizes' !! name pool = Some (target sizes pool)) ∧
    resize_calls (resize_events rg cs pn others sizes' pools) = name <$> pools.
Proof.
  intros Hacs Hshape Hnd Hcov Hoff pools sizes'.
  assert (Hcov' : covers sizes' pools).
  { intros pool Hin. unfold sizes'. rewrite clamp_all_lookup by done. eauto. }
  destruct (resize_loop_run rg cs pn others sizes' pools
              (with_trace st (first_loop_events false pools sizes)) Hshape Hcov')
    as (s' & Hloop & _).
  exists s'. split; [|split].
  - unfold scale_pools. rewrite (bind_ok _ _ _ (self st) st) by reflexivity.
    rewrite (bind_ok _ _ _ _ _ (scale_pools_loop_run _ _ _ _ _ Hcov)).
    fold pools. rewrite (any_change_true pools sizes Hnd Hoff), Hacs.
    simpl negb. simpl andb. cbv iota.
    fold sizes'. rewrite (bind_ok _ _ _ _ _ Hloop).
    unfold ret. simpl. by rewrite app_assoc.
  - intros pool Hin. by apply clamp_all_lookup.
  - apply resize_calls_resize_events.
Qed.

Lemma fixed_topology_resizes_every_pool_witness :
  is_acs_engine (self sample_acs) = false ∧
  acs_shape "rg" "cs" "agentpool" [] (self sample_acs) ∧
  NoDup (name <$> agent_pools (self sample_acs)) ∧
  covers sample_sizes (agent_pools (self sample_acs)) ∧
  (∃ pool, pool ∈ agent_pools (self sample_acs) ∧
           target sample_sizes pool ≠ actual_capacity pool) ∧
  ∃ s',
    scale_pools sample_sizes false true sample_acs
    = (Ok (clamp_all sample_pools sample_sizes),
       {| self := s'; templates := ∅; parameters := ∅;
          trace := [] ++ first_loop_events false sample_pools sample_sizes
                      ++ resize_events "rg" "cs" "agentpool" []
                           (clamp_all sample_pools sample_sizes) sample_pools |}) ∧
    (∀ pool, pool ∈ sample_pools →
             clamp_all sample_pools sample_sizes !! name pool
             = Some (target sample_sizes pool)) ∧
    resize_calls (resize_events "rg" "cs" "agentpool" []
                    (clamp_all sample_pools sample_sizes) sample_pools)
    = name <$> sample_pools.
Proof.
  assert (Hshape : acs_shape "rg" "cs" "agentpool" [] (self sample_acs)).
  { repeat split. eexists _, _. reflexivity. }
  assert (Hnd : NoDup (name <$> agent_pools (self sample_acs))) by compute_done.
  assert (Hcov : covers sample_sizes (agent_pools (self sample_acs)))
    by (apply covers_Forall; compute_done).
  assert (Hoff : ∃ pool, pool ∈ agent_pools (self sample_acs) ∧
                         target sample_sizes pool ≠ actual_capacity pool).
  { exists (sample_pool "poola" 3 5). split; [left|compute_done]. }
  split; [reflexivity|]. split; [exact Hshape|]. split; [exact Hnd|].
  split; [exact Hcov|]. split; [exact Hoff|].
  exact (fixed_topology_resizes_every_pool sample_acs sample_sizes true
           "rg" "cs" "agentpool" [] eq_refl Hshape Hnd Hcov Hoff).
Defined.

(** C3, as the spec words it, fails: with the first pool off its target and
    the second at it, both pools are resized. *)
Lemma fixed_topology_resizes_unchanged_pool :
  ¬ resizes_exactly_changed_pools sample_acs sample_sizes true.
Proof. unfold resizes_exactly_changed_pools. vm_compute. discriminate. Qed.

(** ** The templated path *)

Lemma ascii_list_app (a b : string) :
  String.list_ascii_of_string (a +:+ b) = String.list_ascii_of_string a ++ String.list_ascii_of_string b.
Proof. induction a as [|c a IH]; simpl; [done|]. by rewrite IH. Qed.

Lemma ascii_list_inj (a b : string) :
  String.list_ascii_of_string a = String.list_ascii_of_string b → a = b.
Proof.
  intros H. rewrite <- (String.string_of_list_ascii_of_string a),
                    <- (String.string_of_list_ascii_of_string b). by rewrite H.
Qed.

Lemma suffix_inj (a b suffix : string) : a +:+ suffix = b +:+ suffix → a = b.
Proof.
  intros H. apply ascii_list_inj.
  apply (f_equal String.list_ascii_of_string) in H.
  rewrite !ascii_list_app in H. by apply app_inv_tail in H.
Qed.

Lemma offset_is_not_count (a b : string) : a +:+ "Offset" ≠ b +:+ "Count".
Proof.
  intros H. apply (f_equal String.list_ascii_of_string) in H.
  rewrite !ascii_list_app in H.
  change (String.list_ascii_of_string "Offset")
    with (String.list_ascii_of_string "O" ++ String.list_ascii_of_string "ffset") in H.
  rewrite app_assoc in H.
  apply app_inj_2 in H as [_ H]; [discriminate|reflexivity].
Qed.

Lemma set_arm_parameter_run lp ps key value st :
  arm_parameters (self st) = Some lp → parameters st !! lp = Some ps →
  set_arm_parameter key value st = (Ok tt, with_parameters st lp (<[key := value]> ps)).
Proof. intros Hlp Hps. unfold set_arm_parameter. by rewrite Hlp, Hps. Qed.

Lemma with_parameters_twice st lp ps ps' :
  with_parameters (with_parameters st lp ps) lp ps' = with_parameters st lp ps'.
Proof. unfold with_parameters. simpl. by rewrite insert_insert_eq. Qed.

Lemma with_parameters_same st lp ps :
  parameters st !! lp = Some ps → with_parameters st lp ps = st.
Proof. intros H. unfold with_parameters. rewrite insert_id by done. by destruct st. Qed.

(** The loop of [deploy_pools] writes the parameter dictionary in place. *)
Lemma deploy_pools_loop_run is_scale_up sizes lp pools : ∀ ps st,
  arm_parameters (self st) = Some lp → parameters st !! lp = Some ps →
  covers sizes pools →
  deploy_pools_loop pools sizes is_scale_up st
  = (Ok tt, with_parameters st lp (write_parameters is_scale_up sizes pools ps)).
Proof.
  induction pools as [|pool rest IH]; intros ps st Hlp Hps Hcov.
  - simpl. unfold ret. by rewrite with_parameters_same.
  - apply covers_cons in Hcov as [[n Hn] Hrest].
    cbn [deploy_pools_loop write_parameters]. unfold write_pool. rewrite Hn. simpl default.
    assert (Hnext : ∀ ps1 st1,
      arm_parameters (self st1) = Some lp → parameters st1 !! lp = Some ps1 →
      (let* n0 := getitem sizes (name pool) in
       set_arm_parameter (name pool +:+ "Count") (IntValue n0) ;;;
       deploy_pools_loop rest sizes is_scale_up) st1
      = (Ok tt, with_parameters st1 lp
                  (write_parameters is_scale_up sizes rest
                     (<[name pool +:+ "Count" := IntValue n]> ps1)))).
    { intros ps1 st1 Hlp1 Hps1.
      rewrite (bind_ok _ _ _ _ _ (getitem_some _ _ _ _ Hn)). cbv beta.
      rewrite (bind_ok _ _ _ _ _ (set_arm_parameter_run lp ps1 _ _ st1 Hlp1 Hps1)).
      rewrite (IH (<[name pool +:+ "Count" := IntValue n]> ps1));
        [by rewrite with_parameters_twice|done| |done].
      unfold with_parameters. simpl. by rewrite lookup_insert_eq. }
    destruct is_scale_up.
    + rewrite bind_bind, (bind_ok _ _ _ _ _ (getitem_some _ _ _ _ Hn)). cbv beta.
      rewrite (bind_ok _ _ _ (actual_capacity pool <? n) st) by reflexivity.
      simpl andb. destruct (actual_capacity pool <? n).
      * rewrite (bind_ok _ _ _ _ _ (set_arm_parameter_run lp ps _ _ st Hlp Hps)).
        rewrite (Hnext (<[name pool +:+ "Offset" := IntValue (actual_capacity pool)]> ps));
          [by rewrite with_parameters_twice|done|].
        unfold with_parameters. simpl. by rewrite lookup_insert_eq.
      * rewrite (bind_ok _ _ _ tt st) by reflexivity. by apply Hnext.
    + rewrite (bind_ok _ _ _ false st) by reflexivity.
      rewrite (bind_ok _ _ _ tt st) by reflexivity. by apply Hnext.
Qed.

(** [deploy_pools] from a state whose two references point into the store. *)
Lemma deploy_pools_run is_scale_up sizes lp lt ps t st :
  engine_shape lp lt ps t st →
  covers sizes (agent_pools (self st)) →
  deploy_pools sizes is_scale_up st = deploy_pools_outcome is_scale_up sizes lp lt ps t st.
Proof.
  intros (Hlp & Hps & Hlt & Ht) Hcov. unfold deploy_pools, deploy_pools_outcome.
  rewrite (bind_ok _ _ _ (self st) st) by reflexivity.
  rewrite (bind_ok _ _ _ _ _ (deploy_pools_loop_run _ _ lp _ ps st Hlp Hps Hcov)).
  destruct is_scale_up.
  - unfold bind at 1. unfold prepare_template_for_scale_up.
    rewrite Hlt. simpl templates. rewrite Ht.
    destruct (prepare_template t) as [[[]|e] t']; simpl.
    + unfold bind, deref. rewrite Hlp, !lookup_insert_eq. reflexivity.
    + by rewrite app_nil_r.
  - rewrite (bind_ok _ _ _ tt (with_parameters st lp _)) by reflexivity.
    unfold bind, deref. rewrite Hlt, Hlp. simpl. rewrite Ht, lookup_insert_eq. reflexivity.
Qed.

Lemma write_pool_other is_scale_up sizes pool ps key :
  key ≠ name pool +:+ "Count" → key ≠ name pool +:+ "Offset" →
  write_pool is_scale_up sizes pool ps !! key = ps !! key.
Proof.
  intros Hcount Hoffset. unfold write_pool.
  rewrite lookup_insert_ne by done.
  destruct (is_scale_up && _); [by rewrite lookup_insert_ne|done].
Qed.

Lemma write_parameters_other is_scale_up sizes (pools : list AgentPool) : ∀ ps key,
  (∀ pool, pool ∈ pools → key ≠ name pool +:+ "Count" ∧ key ≠ name pool +:+ "Offset") →
  write_parameters is_scale_up sizes pools ps !! key = ps !! key.
Proof.
  induction pools as [|p rest IH]; intros ps key Hother; simpl; [done|].
  rewrite IH by (intros q Hq; apply Hother; by right).
  destruct (Hother p) as [? ?]; [left|]. by apply write_pool_other.
Qed.

Lemma names_differ (p : AgentPool) (rest : list AgentPool) q :
  name p ∉ name <$> rest → q ∈ rest → name p ≠ name q.
Proof. intros Hfresh Hq Heq. apply Hfresh. rewrite Heq. by apply list_elem_of_fmap_2. Qed.

(** Every pool's [Count] parameter is its entry of the dictionary. *)
Lemma write_parameters_count is_scale_up sizes (pools : list AgentPool) : ∀ ps pool,
  NoDup (name <$> pools) → pool ∈ pools →
  write_parameters is_scale_up sizes pools ps !! (name pool +:+ "Count")
  = Some (IntValue (default 0 (sizes !! name pool))).
Proof.
  induction pools as [|p rest IH]; intros ps pool Hnd Hin; [by inversion Hin|].
  rewrite fmap_cons, NoDup_cons in Hnd. destruct Hnd as [Hfresh Hnd].
  simpl. apply elem_of_cons in Hin as [->|Hin]; [|by apply IH].
  rewrite write_parameters_other.
  - unfold write_pool. by rewrite lookup_insert_eq.
  - intros q Hq. split.
    + intros Heq. apply suffix_inj in Heq. by apply (names_differ p rest q).
    + intros Heq. symmetry in Heq. by apply offset_is_not_count in Heq.
Qed.

(** A pool's [Offset] parameter is written exactly when the pass is a
    scale-up and the pool grows; it is then the pool's capacity. *)
Lemma write_parameters_offset is_scale_up sizes (pools : list AgentPool) : ∀ ps pool,
  NoDup (name <$> pools) → pool ∈ pools →
  write_parameters is_scale_up sizes pools ps !! (name pool +:+ "Offset")
  = if is_scale_up && (actual_capacity pool <? default 0 (sizes !! name pool))
    then Some (IntValue (actual_capacity pool))
    else ps !! (name pool +:+ "Offset").
Proof.
  induction pools as [|p rest IH]; intros ps pool Hnd Hin; [by inversion Hin|].
  rewrite fmap_cons, NoDup_cons in Hnd. destruct Hnd as [Hfresh Hnd].
  simpl. apply elem_of_cons in Hin as [->|Hin].
  - rewrite write_parameters_other.
    + unfold write_pool. rewrite lookup_insert_ne by (by apply not_eq_sym, offset_is_not_count).
      destruct (is_scale_up && _); [by rewrite lookup_insert_eq|done].
    + intros q Hq. split.
      * apply offset_is_not_count.
      * intros Heq. apply suffix_inj in Heq. by apply (names_differ p rest q).
  - rewrite IH by done.
    destruct (is_scale_up && _); [done|].
    apply write_pool_other.
    + apply offset_is_not_count.
    + intros Heq. apply suffix_inj in Heq. symmetry in Heq.
      by apply (names_differ p rest pool).
Qed.

(** The pass on the acs-engine branch, outside a dry run, with some pool off
    its target. *)
Lemma engine_pass_run
    (st : State) (sizes : gmap string Z) (is_scale_up : bool)
    (lp lt : loc) (ps : gmap string ParamValue) (t : Template) :
  is_acs_engine (self st) = true →
  engine_shape lp lt ps t st →
  NoDup (name <$> agent_pools (self st)) →
  covers sizes (agent_pools (self st)) →
  (∃ pool, pool ∈ agent_pools (self st) ∧ target sizes pool ≠ actual_capacity pool) →
  let pools := agent_pools (self st) in
  let sizes' := clamp_all pools sizes in
  let ps' := write_parameters is_scale_up sizes' pools ps in
  ∃ res st' sent,
    scale_pools sizes false is_scale_up st = (res, st') ∧
    trace st' = trace st ++ first_loop_events false pools sizes
                         ++ Deploy (OpDeployPools is_scale_up) sizes' :: sent ∧
    deploy_calls (first_loop_events false pools sizes
                  ++ Deploy (OpDeployPools is_scale_up) sizes' :: sent)
    = [OpDeployPools is_scale_up] ∧
    parameters st' !! lp = Some ps' ∧
    (∀ pool, pool ∈ pools →
       sizes' !! name pool = Some (target sizes pool) ∧
       ps' !! (name pool +:+ "Count") = Some (IntValue (target sizes pool)) ∧
       ps' !! (name pool +:+ "Offset")
       = if is_scale_up && (actual_capacity pool <? target sizes pool)
         then Some (IntValue (actual_capacity pool))
         else ps !! (name pool +:+ "Offset")) ∧
    (is_scale_up = false ∨ (prepare_template t).1 = Ok tt →
     res = Ok sizes' ∧
     ∃ t', sent = [DeploymentsCreateOrUpdate (resource_group_name (self st))
                     "autoscaler-deployment" (Some t') (Some ps') "incremental"]).
Proof.
  intros Hengine Hshape Hnd Hcov Hoff pools sizes' ps'.
  assert (Hsizes : ∀ pool, pool ∈ pools → sizes' !! name pool = Some (target sizes pool))
    by (intros pool Hin; by apply clamp_all_lookup).
  assert (Hcov' : covers sizes' pools) by (intros pool Hin; rewrite Hsizes; eauto).
  set (st1 := with_trace st (first_loop_events false pools sizes
                             ++ [Deploy (OpDeployPools is_scale_up) sizes'])).
  assert (Hshape1 : engine_shape lp lt ps t st1) by exact Hshape.
  pose proof (deploy_pools_run is_scale_up sizes' lp lt ps t st1 Hshape1 Hcov') as Hdeploy.
  assert (Hlogs : deploy_calls (first_loop_events false pools sizes) = []).
  { clear. generalize sizes. induction pools as [|p rest IH]; intros d; [done|].
    simpl. unfold deploy_calls in *. rewrite omap_app, IH, app_nil_r.
    unfold first_loop_event. by repeat case_match. }
  assert (Hpass : scale_pools sizes false is_scale_up st
                  = match deploy_pools_outcome is_scale_up sizes' lp lt ps t st1 with
                    | (Ok _, st') => (Ok sizes', st')
                    | (Raise e, st') => (Raise e, st')
                    end).
  { unfold scale_pools. rewrite (bind_ok _ _ _ (self st) st) by reflexivity.
    rewrite (bind_ok _ _ _ _ _ (scale_pools_loop_run _ _ _ _ _ Hcov)).
    fold pools. rewrite (any_change_true pools sizes Hnd Hoff), Hengine.
    simpl negb. simpl andb. cbv iota. fold sizes'.
    unfold deploy. rewrite !bind_bind.
    rewrite (bind_ok _ _ _ _ _ (emit_with_trace _ _)). cbv beta.
    rewrite with_trace_app. fold st1. unfold bind at 1. rewrite Hdeploy.
    by destruct (deploy_pools_outcome is_scale_up sizes' lp lt ps t st1) as [[[]|e] st']. }
  unfold deploy_pools_outcome in Hpass. fold pools ps' in Hpass.
  change (agent_pools (self st1)) with pools in Hpass. fold ps' in Hpass.
  assert (Hparams : ∀ pool, pool ∈ pools →
            sizes' !! name pool = Some (target sizes pool) ∧
            ps' !! (name pool +:+ "Count") = Some (IntValue (target sizes pool)) ∧
            ps' !! (name pool +:+ "Offset")
            = if is_scale_up && (actual_capacity pool <? target sizes pool)
              then Some (IntValue (actual_capacity pool))
              else ps !! (name pool +:+ "Offset")).
  { intros pool Hin. split; [by apply Hsizes|]. unfold ps'. split.
    - rewrite write_parameters_count by done. by rewrite Hsizes.
    - rewrite write_parameters_offset by done. by rewrite Hsizes. }
  destruct (if is_scale_up then prepare_template t else (Ok tt, t)) as [[[]|e] t'] eqn:Hprep.
  - eexists _, _, _. split; [exact Hpass|]. simpl.
    split; [do 2 rewrite <- app_assoc; reflexivity|].
    split; [unfold deploy_calls in *; by rewrite omap_app, Hlogs|].
    split; [by rewrite lookup_insert_eq|]. split; [exact Hparams|].
    intros _. split; [done|]. by exists t'.
  - eexists _, _, []. split; [exact Hpass|]. simpl.
    split; [by rewrite app_nil_r|].
    split; [unfold deploy_calls in *; by rewrite omap_app, Hlogs|].
    split; [by rewrite lookup_insert_eq|]. split; [exact Hparams|].
    intros [->|Hok]; [by injection Hprep|].
    destruct is_scale_up; [|by injection Hprep]. rewrite Hprep in Hok. discriminate.
Qed.

(** C8, as the code has it: on the acs-engine branch, outside a dry run and
    with some pool off its target, [scale_pools] makes exactly one serialized
    call, the redeploy, whose snapshot holds every pool's target; the
    parameter dictionary then holds every pool's target under [Count], and,
    on scale-up, the pre-change capacity under [Offset] for the pools whose
    target exceeds their capacity and for no other pool.  When the pass is
    not a scale-up or the template preprocessing succeeds, the redeploy
    reaches the provider with that dictionary. *)
Theorem templated_topology_redeploys_once
    (st : State) (sizes : gmap string Z) (is_scale_up : bool)
    (lp lt : loc) (ps : gmap string ParamValue) (t : Template) :
  is_acs_engine (self st) = true →
  engine_shape lp lt ps t st →
  NoDup (name <$> agent_pools (self st)) →
  covers sizes (agent_pools (self st)) →
  (∃ pool, pool ∈ agent_pools (self st) ∧ target sizes pool ≠ actual_capacity pool) →
  let pools := agent_pools (self st) in
  let sizes' := clamp_all pools sizes in
  let ps' := write_parameters is_scale_up sizes' pools ps in
  ∃ res st' sent,
    scale_pools sizes false is_scale_up st = (res, st') ∧
    trace st' = trace st ++ first_loop_events false pools sizes
                         ++ Deploy (OpDeployPools is_scale_up) sizes' :: sent ∧
    deploy_calls (first_loop_events false pools sizes
                  ++ Deploy (OpDeployPools is_scale_up) sizes' :: sent)
    = [OpDeployPools is_scale_up] ∧
    parameters st' !! lp = Some ps' ∧
    (∀ pool, pool ∈ pools →
       sizes' !! name pool = Some (target sizes pool) ∧
       ps' !! (name pool +:+ "Count") = Some (IntValue (target sizes pool)) ∧
       ps' !! (name pool +:+ "Offset")
       = if is_scale_up && (actual_capacity pool <? target sizes pool)
         then Some (IntValue (actual_capacity pool))
         else ps !! (name pool +:+ "Offset")) ∧
    (is_scale_up = false ∨ (prepare_template t).1 = Ok tt →
     res = Ok sizes' ∧
     ∃ t', sent = [DeploymentsCreateOrUpdate (resource_group_name (self st))
                     "autoscaler-deployment" (Some t') (Some ps') "incremental"]).
Proof. exact (engine_pass_run st sizes is_scale_up lp lt ps t). Qed.

Lemma templated_topology_redeploys_once_witness :
  is_acs_engine (self sample_engine) = true ∧
  engine_shape 1 0 {[ "location" := FileValue "westeurope" ]} sample_template sample_engine ∧
  NoDup (name <$> agent_pools (self sample_engine)) ∧
  covers sample_sizes (agent_pools (self sample_engine)) ∧
  (∃ pool, pool ∈ agent_pools (self sample_engine) ∧
           target sample_sizes pool ≠ actual_capacity pool) ∧
  (prepare_template sample_template).1 = Ok tt ∧
  ∃ st' sent t',
    scale_pools sample_sizes false true sample_engine
    = (Ok (clamp_all sample_pools sample_sizes), st') ∧
    deploy_calls (first_loop_events false sample_pools sample_sizes
                  ++ Deploy (OpDeployPools true) (clamp_all sample_pools sample_sizes) :: sent)
    = [OpDeployPools true] ∧
    sent = [DeploymentsCreateOrUpdate "rg" "autoscaler-deployment" (Some t')
              (Some (write_parameters true (clamp_all sample_pools sample_sizes) sample_pools
                       {[ "location" := FileValue "westeurope" ]}))
              "incremental"].
Proof.
  assert (Hshape : engine_shape 1 0 {[ "location" := FileValue "westeurope" ]}
                     sample_template sample_engine) by (by repeat split).
  assert (Hnd : NoDup (name <$> agent_pools (self sample_engine))) by compute_done.
  assert (Hcov : covers sample_sizes (agent_pools (self sample_engine)))
    by (apply covers_Forall; compute_done).
  assert (Hoff : ∃ pool, pool ∈ agent_pools (self sample_engine) ∧
                         target sample_sizes pool ≠ actual_capacity pool).
  { exists (sample_pool "poola" 3 5). split; [left|compute_done]. }
  assert (Hprep : (prepare_template sample_template).1 = Ok tt) by reflexivity.
  split; [reflexivity|]. split; [exact Hshape|]. split; [exact Hnd|].
  split; [exact Hcov|]. split; [exact Hoff|]. split; [exact Hprep|].
  destruct (templated_topology_redeploys_once sample_engine sample_sizes true 1%nat 0%nat
              _ _ eq_refl Hshape Hnd Hcov Hoff)
    as (res & st' & sent & Hrun & _ & Hcalls & _ & _ & Hsent).
  destruct (Hsent (or_intror Hprep)) as (-> & t' & ->).
  eexists st', _, t'. split; [exact Hrun|]. split; [exact Hcalls|reflexivity].
Defined.

(** C8, as the spec words it, fails: on a scale-up that grows the first pool
    and leaves the second at its capacity, no offset is written for the
    second pool. *)
Lemma scale_up_writes_no_offset_for_steady_pool :
  ¬ offsets_for_every_pool sample_engine sample_sizes 1.
Proof.
  intros Hall. specialize (Hall (sample_pool "poolb" 2 5)).
  assert (Hin : sample_pool "poolb" 2 5 ∈ agent_pools (self sample_engine))
    by (right; left).
  specialize (Hall Hin). vm_compute in Hall. discriminate.
Qed.

(** ** The template mutator *)

Lemma scan_resources_readable rs : ∀ i nsg_resource_index,
  Forall readable rs →
  scan_resources rs i nsg_resource_index
  = (Ok (last_nsg_index rs i nsg_resource_index), strip_nsg_dependency <$> rs).
Proof.
  induction rs as [|r rest IH]; intros i n Hread; [done|].
  apply Forall_cons in Hread as [Hr Hrest].
  cbn [scan_resources last_nsg_index fmap list_fmap]. unfold strip_nsg_dependency.
  destruct (String.eqb (rtype r) vnet_type) eqn:Hvnet.
  - apply String.eqb_eq in Hvnet. destruct (Hr Hvnet) as [deps Hdeps].
    rewrite Hdeps. by rewrite IH.
  - by rewrite IH.
Qed.

Lemma scan_resources_length rs : ∀ i nsg_resource_index,
  length (scan_resources rs i nsg_resource_index).2 = length rs.
Proof.
  induction rs as [|r rest IH]; intros i n; [done|].
  cbn [scan_resources].
  destruct (String.eqb (rtype r) vnet_type).
  - destruct (dependsOn r); [|done].
    specialize (IH (i + 1) (if String.eqb (rtype r) nsg_type then i else n)).
    destruct (scan_resources rest _ _). simpl in *. by rewrite IH.
  - specialize (IH (i + 1) (if String.eqb (rtype r) nsg_type then i else n)).
    destruct (scan_resources rest _ _). simpl in *. by rewrite IH.
Qed.

Lemma list_pop_length {A} (l l' : list A) i :
  list_pop l i = Some l' → (length l' + 1 = length l)%nat.
Proof.
  unfold list_pop. intros Hpop.
  destruct ((0 <=? _) && _) eqn:Hrange; [|discriminate].
  apply andb_true_iff in Hrange as [Hlo Hhi].
  apply Z.leb_le in Hlo. apply Z.ltb_lt in Hhi.
  injection Hpop as <-.
  rewrite length_delete by (apply lookup_lt_is_Some; lia).
  assert (0 < length l)%nat by lia. lia.
Qed.

(** When the mutation succeeds the template has one resource fewer. *)
Lemma prepare_template_length t t' :
  prepare_template t = (Ok tt, t') →
  (length (resources t') + 1 = length (resources t))%nat.
Proof.
  unfold prepare_template. intros Hprep.
  pose proof (scan_resources_length (resources t) 0 (-1)) as Hlen.
  destruct (scan_resources (resources t) 0 (-1)) as [[k|e] rs]; [|discriminate].
  destruct (list_pop rs k) as [rs'|] eqn:Hpop; [|discriminate].
  injection Hprep as <-. simpl in *.
  rewrite <- Hlen. by apply (list_pop_length rs rs' k).
Qed.

Lemma last_nsg_index_absent rs : ∀ i nsg_resource_index,
  Forall (λ r, rtype r ≠ nsg_type) rs →
  last_nsg_index rs i nsg_resource_index = nsg_resource_index.
Proof.
  induction rs as [|r rest IH]; intros i n Habsent; [done|].
  apply Forall_cons in Habsent as [Hr Hrest]. simpl.
  apply String.eqb_neq in Hr. rewrite Hr. by apply IH.
Qed.

Lemma list_pop_last {A} (l : list A) :
  l ≠ [] → list_pop l (-1) = Some (removelast l).
Proof.
  intros Hne. unfold list_pop.
  assert (0 < length l)%nat by (destruct l; [done|simpl; lia]).
  cbv zeta. change (-1 <? 0) with true. cbv iota.
  assert (Hrange : (0 <=? -1 + Z.of_nat (length l))
                   && (-1 + Z.of_nat (length l) <? Z.of_nat (length l)) = true)
    by (apply andb_true_iff; split; [apply Z.leb_le|apply Z.ltb_lt]; lia).
  rewrite Hrange. f_equal.
  replace (Z.to_nat (-1 + Z.of_nat (length l))) with (length l - 1)%nat by lia.
  clear. induction l as [|a [|b l] IH]; [done..|].
  change (removelast (a :: b :: l)) with (a :: removelast (b :: l)).
  rewrite <- IH. simpl. by rewrite Nat.sub_0_r.
Qed.

Lemma last_nsg_index_app front rest : ∀ i nsg_resource_index,
  last_nsg_index (front ++ rest) i nsg_resource_index
  = last_nsg_index rest (i + Z.of_nat (length front))
      (last_nsg_index front i nsg_resource_index).
Proof.
  induction front as [|r front IH]; intros i n; simpl.
  - by rewrite Z.add_0_r.
  - rewrite IH.
    by replace (i + 1 + Z.of_nat (length front))
      with (i + Z.of_nat (S (length front))) by lia.
Qed.

Lemma list_pop_middle {A} (front rest : list A) x :
  list_pop (front ++ x :: rest) (Z.of_nat (length front)) = Some (front ++ rest).
Proof.
  unfold list_pop. cbv zeta.
  assert (Hneg : (Z.of_nat (length front) <? 0) = false) by (apply Z.ltb_ge; lia).
  rewrite Hneg.
  assert (Hrange : (0 <=? Z.of_nat (length front))
                   && (Z.of_nat (length front) <? Z.of_nat (length (front ++ x :: rest)))
                   = true).
  { apply andb_true_iff. split; [apply Z.leb_le|apply Z.ltb_lt].
    - lia.
    - rewrite length_app. simpl. lia. }
  rewrite Hrange, Nat2Z.id. by rewrite delete_middle.
Qed.

(** The inner loop removes the first edge to the security group and no
    other. *)
Lemma pop_nsg_dependency_first front rest :
  nsg_dependency ∉ front →
  pop_nsg_dependency (front ++ nsg_dependency :: rest) = front ++ rest.
Proof.
  induction front as [|d front IH]; intros Hnotin; cbn [app pop_nsg_dependency].
  - by rewrite String.eqb_refl.
  - apply not_elem_of_cons in Hnotin as [Hne Hnotin].
    apply not_eq_sym, String.eqb_neq in Hne. rewrite Hne. by rewrite IH.
Qed.

Lemma pop_nsg_dependency_absent deps :
  nsg_dependency ∉ deps → pop_nsg_dependency deps = deps.
Proof.
  induction deps as [|d deps IH]; intros Hnotin; cbn [pop_nsg_dependency]; [done|].
  apply not_elem_of_cons in Hnotin as [Hne Hnotin].
  apply not_eq_sym, String.eqb_neq in Hne. rewrite Hne. by rewrite IH.
Qed.

(** On a template with one security group and the keys the loop reads, the
    mutation removes that resource, and from every virtual network the first
    edge to the security group. *)
Lemma prepare_template_removes_nsg t front nsg rest :
  resources t = front ++ nsg :: rest →
  rtype nsg = nsg_type →
  Forall (λ r, rtype r ≠ nsg_type) rest →
  Forall readable (resources t) →
  prepare_template t
  = (Ok tt, {| resources := strip_nsg_dependency <$> (front ++ rest) |}).
Proof.
  intros Hres Hnsg Hrest Hread. unfold prepare_template.
  rewrite scan_resources_readable by done. rewrite Hres.
  rewrite last_nsg_index_app. simpl last_nsg_index.
  rewrite Hnsg, String.eqb_refl, last_nsg_index_absent by done.
  rewrite Z.add_0_l, !fmap_app, fmap_cons.
  replace (length front) with (length (strip_nsg_dependency <$> front))
    by apply length_fmap.
  by rewrite list_pop_middle.
Qed.

(** With no resource at all the final [pop] raises and nothing is written. *)
Lemma prepare_template_empty :
  prepare_template {| resources := [] |} = (Raise IndexError, {| resources := [] |}).
Proof. reflexivity. Qed.

(** C6, where the code departs from it: on a template that has resources but
    no network security group among them, the mutation does not fail.
    [nsg_resource_index] is still [-1] at the final [pop], so the last
    resource of the template is removed, after the virtual networks have lost
    their edge to the security group. *)
Theorem prepare_template_without_nsg_removes_last (t : Template) :
  Forall (λ r, rtype r ≠ nsg_type) (resources t) →
  Forall readable (resources t) →
  resources t ≠ [] →
  prepare_template t
  = (Ok tt, {| resources := removelast (strip_nsg_dependency <$> resources t) |}) ∧
  (length (removelast (strip_nsg_dependency <$> resources t)) + 1
   = length (resources t))%nat.
Proof.
  intros Habsent Hread Hne.
  assert (Hrun : prepare_template t
                 = (Ok tt, {| resources := removelast (strip_nsg_dependency <$> resources t) |})).
  { unfold prepare_template. rewrite scan_resources_readable by done.
    rewrite last_nsg_index_absent by done.
    rewrite list_pop_last; [done|].
    destruct (resources t); [done|discriminate]. }
  split; [exact Hrun|]. exact (prepare_template_length _ _ Hrun).
Qed.

Lemma prepare_template_without_nsg_removes_last_witness :
  Forall (λ r, rtype r ≠ nsg_type) (resources template_without_nsg) ∧
  Forall readable (resources template_without_nsg) ∧
  resources template_without_nsg ≠ [] ∧
  prepare_template template_without_nsg
  = (Ok tt,
     {| resources :=
          [ {| rtype := vnet_type; rname := "vnet"; dependsOn := Some ["routeTable"] |};
            {| rtype := "Microsoft.Compute/virtualMachines"; rname := "vm";
               dependsOn := Some ["nic"] |} ] |}).
Proof.
  assert (Habsent : Forall (λ r, rtype r ≠ nsg_type) (resources template_without_nsg))
    by (repeat constructor; discriminate).
  assert (Hread : Forall readable (resources template_without_nsg)).
  { repeat constructor; intros Hvnet; try discriminate. simpl. eauto. }
  assert (Hne : resources template_without_nsg ≠ []) by discriminate.
  split; [exact Habsent|]. split; [exact Hread|]. split; [exact Hne|].
  exact (proj1 (prepare_template_without_nsg_removes_last
                  template_without_nsg Habsent Hread Hne)).
Defined.

(** ** Writes that outlive the pass *)

Lemma prepare_template_for_scale_up_run lt t st :
  templates st !! lt = Some t →
  prepare_template_for_scale_up (Some lt) st
  = ((prepare_template t).1,
     {| self := self st; templates := <[lt := (prepare_template t).2]> (templates st);
        parameters := parameters st; trace := trace st |}).
Proof.
  intros Ht. unfold prepare_template_for_scale_up. rewrite Ht.
  by destruct (prepare_template t).
Qed.

Lemma deploy_pools_outcome_shape sizes lp lt ps t st :
  engine_shape lp lt ps t st →
  engine_shape lp lt
    (write_parameters true sizes (agent_pools (self st)) ps) (prepare_template t).2
    (deploy_pools_outcome true sizes lp lt ps t st).2.
Proof.
  intros (Hlp & Hps & Hlt & Ht). unfold deploy_pools_outcome, engine_shape.
  destruct (prepare_template t) as [res t']. simpl.
  by rewrite !lookup_insert_eq.
Qed.

(** C10: [prepare_template_for_scale_up] rewrites the template at the
    reference it is given, and a scale-up [deploy_pools] leaves the object
    holding the same two references while the dictionaries they point to
    have changed: the parameters carry the written [Count]/[Offset] entries
    and the template is the preprocessed one.  These are the very values
    sent to the provider, and the next scale-up pass on the object starts
    from them: it writes on top of the written parameters and preprocesses
    the preprocessed template again, so that two successful passes leave the
    template two resources short. *)
Theorem scale_up_writes_outlive_the_pass
    (st : State) (sizes sizes2 : gmap string Z)
    (lp lt : loc) (ps : gmap string ParamValue) (t : Template) :
  engine_shape lp lt ps t st →
  covers sizes (agent_pools (self st)) →
  covers sizes2 (agent_pools (self st)) →
  let pools := agent_pools (self st) in
  let ps1 := write_parameters true sizes pools ps in
  let t1 := (prepare_template t).2 in
  let first := deploy_pools sizes true st in
  let second := deploy_pools sizes2 true first.2 in
  (prepare_template_for_scale_up (Some lt) st).2
  = {| self := self st; templates := <[lt := t1]> (templates st);
       parameters := parameters st; trace := trace st |} ∧
  self first.2 = self st ∧
  parameters first.2 !! lp = Some ps1 ∧
  templates first.2 !! lt = Some t1 ∧
  (first.1 = Ok tt →
   (length (resources t1) + 1 = length (resources t))%nat ∧
   trace first.2
   = trace st ++ [DeploymentsCreateOrUpdate (resource_group_name (self st))
                    "autoscaler-deployment" (Some t1) (Some ps1) "incremental"]) ∧
  parameters second.2 !! lp = Some (write_parameters true sizes2 pools ps1) ∧
  templates second.2 !! lt = Some (prepare_template t1).2 ∧
  (first.1 = Ok tt → second.1 = Ok tt →
   (length (resources (prepare_template t1).2) + 2 = length (resources t))%nat).
Proof.
  intros Hshape Hcov Hcov2 pools ps1 t1 first second.
  pose proof (deploy_pools_run true sizes lp lt ps t st Hshape Hcov) as Hfirst.
  pose proof (deploy_pools_outcome_shape sizes lp lt ps t st Hshape) as Hshape1.
  fold pools ps1 t1 in Hshape1. rewrite <- Hfirst in Hshape1. fold first in Hshape1.
  assert (Hself : self first.2 = self st).
  { unfold first. rewrite Hfirst. unfold deploy_pools_outcome.
    by destruct (prepare_template t). }
  assert (Hcov2' : covers sizes2 (agent_pools (self first.2))) by (by rewrite Hself).
  pose proof (deploy_pools_run true sizes2 lp lt ps1 t1 first.2 Hshape1 Hcov2') as Hsecond.
  pose proof (deploy_pools_outcome_shape sizes2 lp lt ps1 t1 first.2 Hshape1) as Hshape2.
  rewrite <- Hsecond in Hshape2. fold second in Hshape2. rewrite Hself in Hshape2.
  fold pools in Hshape2.
  destruct Hshape as (Hlp & Hps & Hlt & Ht).
  assert (Hlen1 : first.1 = Ok tt →
                  (length (resources t1) + 1 = length (resources t))%nat).
  { unfold first. rewrite Hfirst. unfold deploy_pools_outcome, t1.
    destruct (prepare_template t) as [res t'] eqn:Hprep. simpl. intros ->.
    by apply prepare_template_length. }
  split; [by rewrite (prepare_template_for_scale_up_run lt t st Ht)|].
  split; [exact Hself|].
  split; [apply Hshape1|]. split; [apply Hshape1|].
  split.
  { intros Hok. split; [by apply Hlen1|].
    revert Hok. unfold first. rewrite Hfirst. unfold deploy_pools_outcome, t1, ps1, pools.
    destruct (prepare_template t) as [res t']. simpl. by intros ->. }
  split; [apply Hshape2|]. split; [apply Hshape2|].
  intros Hok1 Hok2. specialize (Hlen1 Hok1).
  assert (Hlen2 : (length (resources (prepare_template t1).2) + 1
                   = length (resources t1))%nat).
  { revert Hok2. unfold second. rewrite Hsecond. unfold deploy_pools_outcome.
    destruct (prepare_template t1) as [res t'] eqn:Hprep. simpl. intros ->.
    by apply prepare_template_length. }
  lia.
Qed.

Lemma scale_up_writes_outlive_the_pass_witness :
  engine_shape 1 0 {[ "location" := FileValue "westeurope" ]} sample_template sample_engine ∧
  covers sample_sizes (agent_pools (self sample_engine)) ∧
  covers steady_sizes (agent_pools (self sample_engine)) ∧
  let first := deploy_pools sample_sizes true sample_engine in
  let second := deploy_pools steady_sizes true first.2 in
  first.1 = Ok tt ∧ second.1 = Ok tt ∧
  self first.2 = self sample_engine ∧
  templates first.2 !! 0%nat = Some (prepare_template sample_template).2 ∧
  templates second.2 !! 0%nat
  = Some (prepare_template (prepare_template sample_template).2).2 ∧
  (length (resources (prepare_template (prepare_template sample_template).2).2) + 2
   = length (resources sample_template))%nat.
Proof.
  assert (Hshape : engine_shape 1 0 {[ "location" := FileValue "westeurope" ]}
                     sample_template sample_engine) by (by repeat split).
  assert (Hcov : covers sample_sizes (agent_pools (self sample_engine)))
    by (apply covers_Forall; compute_done).
  assert (Hcov2 : covers steady_sizes (agent_pools (self sample_engine)))
    by (apply covers_Forall; compute_done).
  split; [exact Hshape|]. split; [exact Hcov|]. split; [exact Hcov2|].
  destruct (scale_up_writes_outlive_the_pass sample_engine sample_sizes steady_sizes
              1%nat 0%nat _ _ Hshape Hcov Hcov2)
    as (_ & Hself & _ & Htemplate & _ & _ & Hagain & Hshort).
  assert (Hfirst : (deploy_pools sample_sizes true sample_engine).1 = Ok tt)
    by (vm_compute; reflexivity).
  assert (Hsecond : (deploy_pools steady_sizes true
                       (deploy_pools sample_sizes true sample_engine).2).1 = Ok tt)
    by (vm_compute; reflexivity).
  split; [exact Hfirst|]. split; [exact Hsecond|].
  split; [exact Hself|]. split; [exact Htemplate|]. split; [exact Hagain|].
  exact (Hshort Hfirst Hsecond).
Defined.

(** ** Node deletion *)

Lemma appends_ret {A} (a : A) : appends (ret a).
Proof. intros st. exists (Ok a), []. by rewrite with_trace_nil. Qed.

Lemma appends_raise {A} e : appends (@raise A e).
Proof. intros st. exists (Raise e), []. by rewrite with_trace_nil. Qed.

Lemma appends_emit e : appends (emit e).
Proof. intros st. by exists (Ok tt), [e]. Qed.

Lemma appends_get_self : appends get_self.
Proof. intros st. exists (Ok (self st)), []. by rewrite with_trace_nil. Qed.

Lemma appends_bind {A B} (m : M A) (k : A → M B) :
  appends m → (∀ a, appends (k a)) → appends (bind m k).
Proof.
  intros Hm Hk st. destruct (Hm st) as ([a|e] & evs & Hrun).
  - rewrite (bind_ok _ _ _ _ _ Hrun).
    destruct (Hk a (with_trace st evs)) as (res & evs' & ->).
    rewrite with_trace_app. eauto.
  - rewrite (bind_raise _ _ _ _ _ Hrun). eauto.
Qed.

Lemma appends_getindex {A} (l : list A) i : appends (getindex l i).
Proof. unfold getindex. destruct (l !! i); [apply appends_ret|apply appends_raise]. Qed.

Lemma appends_global_name globals ident : appends (global_name globals ident).
Proof. unfold global_name. case_bool_decide; [apply appends_ret|apply appends_raise]. Qed.

(** Teardown touches neither the object nor the store. *)
Lemma delete_resources_for_node_appends provider globals node :
  appends (delete_resources_for_node_in provider globals node).
Proof.
  unfold delete_resources_for_node_in, logger_info.
  repeat first
    [ apply appends_emit | apply appends_get_self | apply appends_getindex
    | apply appends_global_name | apply appends_bind; [|intros ?] ].
Qed.

Lemma delete_node_loop_run pools : ∀ pool acc,
  delete_node_loop pools pool acc = (default pool (last pools), capacities pools acc).
Proof.
  induction pools as [|p rest IH]; intros pool acc; [done|].
  cbn [delete_node_loop]. rewrite IH, last_cons. unfold capacities. simpl foldl.
  f_equal. by destruct (last rest).
Qed.

Lemma capacities_lookup_notin (pools : list AgentPool) : ∀ acc key,
  key ∉ name <$> pools → capacities pools acc !! key = acc !! key.
Proof.
  induction pools as [|p rest IH]; intros acc key Hnotin; [done|].
  rewrite fmap_cons, not_elem_of_cons in Hnotin. destruct Hnotin as [Hne Hrest].
  unfold capacities in *. simpl. rewrite IH by done. by rewrite lookup_insert_ne.
Qed.

Lemma capacities_lookup (pools : list AgentPool) : ∀ acc pool,
  NoDup (name <$> pools) → pool ∈ pools →
  capacities pools acc !! name pool = Some (actual_capacity pool).
Proof.
  induction pools as [|p rest IH]; intros acc pool Hnd Hin; [by inversion Hin|].
  rewrite fmap_cons, NoDup_cons in Hnd. destruct Hnd as [Hfresh Hnd].
  apply elem_of_cons in Hin as [->|Hin].
  - change (capacities (p :: rest) acc)
      with (capacities rest (<[name p := actual_capacity p]> acc)).
    rewrite capacities_lookup_notin by done. by rewrite lookup_insert_eq.
  - by apply (IH (<[name p := actual_capacity p]> acc)).
Qed.

Lemma delete_node_snapshot
    (provider : Provider) (globals : list string) (st : State)
    (pool : AgentPool) (node : Node) (front : list AgentPool) (last_pool : AgentPool) :
  agent_pools (self st) = front ++ [last_pool] →
  ∃ res evs,
    delete_node_in provider globals pool node st
    = (res, with_trace st
              (Deploy (OpDeleteResourcesForNode (node_name node))
                 (<[name last_pool := actual_capacity last_pool - 1]>
                    (capacities (agent_pools (self st)) ∅)) :: evs)).
Proof.
  intros Hpools. unfold delete_node_in.
  rewrite (bind_ok _ _ _ (self st) st) by reflexivity.
  rewrite delete_node_loop_run, Hpools, last_snoc. simpl default.
  unfold deploy. rewrite (bind_ok _ _ _ _ _ (emit_with_trace _ _)).
  destruct (delete_resources_for_node_appends provider globals node
              (with_trace st [Deploy (OpDeleteResourcesForNode (node_name node))
                                (<[name last_pool := actual_capacity last_pool - 1]>
                                   (capacities (front ++ [last_pool]) ∅))]))
    as (res & evs & ->).
  rewrite with_trace_app. by exists res, evs.
Qed.

(** C4, where the code departs from it: the loop of [delete_node] reuses the
    name [pool], so the entry decremented is that of the last pool of
    [self.agent_pools], whichever pool was passed in; the snapshot goes to
    the serializer ahead of the teardown. *)
Theorem delete_node_decrements_last_listed_pool
    (provider : Provider) (globals : list string) (st : State)
    (pool : AgentPool) (node : Node) (front : list AgentPool) (last_pool : AgentPool) :
  agent_pools (self st) = front ++ [last_pool] →
  ∃ res evs,
    delete_node_in provider globals pool node st
    = (res, with_trace st
              (Deploy (OpDeleteResourcesForNode (node_name node))
                 (<[name last_pool := actual_capacity last_pool - 1]>
                    (capacities (agent_pools (self st)) ∅)) :: evs)).
Proof. apply delete_node_snapshot. Qed.

Lemma delete_node_decrements_last_listed_pool_witness :
  agent_pools (self sample_acs) = [sample_pool "poola" 3 5] ++ [sample_pool "poolb" 2 5] ∧
  ∃ res evs,
    delete_node sample_provider (sample_pool "poola" 3 5)
      {| node_name := "k8s-poola-12345678-0" |} sample_acs
    = (res, with_trace sample_acs
              (Deploy (OpDeleteResourcesForNode "k8s-poola-12345678-0")
                 (<[ "poolb" := 1 ]> (capacities sample_pools ∅)) :: evs)).
Proof.
  split; [reflexivity|].
  exact (delete_node_decrements_last_listed_pool sample_provider module_globals sample_acs
           (sample_pool "poola" 3 5) {| node_name := "k8s-poola-12345678-0" |}
           [sample_pool "poola" 3 5] (sample_pool "poolb" 2 5) eq_refl).
Defined.

(** Deleting a node of the first of two pools: the snapshot keeps the first
    pool at 3 and takes the second from 2 to 1. *)
Lemma delete_node_of_first_pool_snapshot :
  ∃ res evs,
    delete_node sample_provider (sample_pool "poola" 3 5)
      {| node_name := "k8s-poola-12345678-0" |} sample_acs
    = (res, with_trace sample_acs
              (Deploy (OpDeleteResourcesForNode "k8s-poola-12345678-0")
                 {[ "poola" := 3; "poolb" := 1 ]} :: evs)) ∧
    ¬ decrements_owning_pool sample_provider sample_acs (sample_pool "poola" 3 5)
        {| node_name := "k8s-poola-12345678-0" |}.
Proof.
  eexists _, _. split; [vm_compute; reflexivity|].
  intros (snapshot & evs & Hrun & Hown & _).
  vm_compute in Hrun. injection Hrun as <- _.
  vm_compute in Hown. discriminate.
Qed.

(** Where the node's pool is the last one listed, and pool names are
    distinct, the snapshot is the one the spec describes. *)
Lemma delete_node_of_last_pool provider st pool node front :
  agent_pools (self st) = front ++ [pool] →
  NoDup (name <$> agent_pools (self st)) →
  decrements_owning_pool provider st pool node.
Proof.
  intros Hpools Hnd.
  destruct (delete_node_snapshot provider module_globals st
              pool node front pool Hpools) as (res & evs & Hrun).
  unfold decrements_owning_pool, delete_node. rewrite Hrun. simpl trace.
  rewrite drop_app_length. eexists _, _. split; [reflexivity|].
  split; [by rewrite lookup_insert_eq|].
  intros other Hin Hne. rewrite lookup_insert_ne by done.
  by apply capacities_lookup.
Qed.

(** ** Node teardown *)

Lemma global_name_bound globals ident st :
  ident ∈ globals → global_name globals ident st = (Ok tt, st).
Proof. intros Hin. unfold global_name. by rewrite bool_decide_eq_true_2. Qed.

(** As the module stands, [ComputeManagementClient] is not among the names
    it binds: teardown stops at the second client lookup, before any call to
    the provider. *)
Lemma delete_resources_for_node_name_error provider node st :
  delete_resources_for_node provider node st
  = (Raise (NameError "ComputeManagementClient"),
     with_trace st [LogInfo ("deleting node " +:+ node_name node)]).
Proof. reflexivity. Qed.

(** C5, as the code has it: where the module binds the names the method
    reads, the disk URI has its five fields and the account has a key,
    teardown of ["pool-a-12345-vm-3"] reads the instance metadata first, then
    deletes the instance and waits, then deletes the interface
    ["pool-a-12345-nic-vm"] (the node name's first three dash-separated
    fields, ["nic"], then its fourth field) and waits, then lists the account
    keys and deletes the blob at the location read at the start, in that
    order and with nothing else but log lines in between. *)
Theorem teardown_order_of_scenario_node
    (provider : Provider) (globals : list string) (st : State)
    (scheme empty host container blob account key : string)
    (more domain keys : list string) :
  module_globals ⊆ globals →
  "ComputeManagementClient" ∈ globals →
  split "/" (vhd_uri provider (resource_group_name (self st)) "pool-a-12345-vm-3")
  = scheme :: empty :: host :: container :: blob :: more →
  split "." host = account :: domain →
  storage_keys provider (resource_group_name (self st)) account = key :: keys →
  let rg := resource_group_name (self st) in
  delete_resources_for_node_in provider globals scenario_node st
  = (Ok tt,
     with_trace st
       [ LogInfo "deleting node pool-a-12345-vm-3";
         VirtualMachinesGet rg "pool-a-12345-vm-3";
         LogInfo "Deleting VM";
         ResourcesDelete rg "Microsoft.Compute" EmptyString "virtualMachines"
           "pool-a-12345-vm-3" "2016-03-30";
         OperationWait "pool-a-12345-vm-3";
         LogInfo "Deleting NIC";
         ResourcesDelete rg "Microsoft.Network" EmptyString "networkInterfaces"
           "pool-a-12345-nic-vm" "2016-03-30";
         OperationWait "pool-a-12345-nic-vm";
         LogInfo "Deleting OS disk";
         StorageListKeys rg account;
         DeleteBlob account key container blob ]).
Proof.
  intros Hglobals Hcompute Huri Hhost Hkeys rg. subst rg.
  assert (Hbound : ∀ ident st', ident ∈ module_globals →
                                global_name globals ident st' = (Ok tt, st')).
  { intros ident st' Hin. apply global_name_bound. by apply Hglobals. }
  assert (Hclient : "get_mgmt_service_client" ∈ module_globals) by compute_done.
  assert (Hresource : "ResourceManagementClient" ∈ module_globals) by compute_done.
  assert (Hstorage : "StorageManagementClient" ∈ module_globals) by compute_done.
  assert (Hblob : "BlockBlobService" ∈ module_globals) by compute_done.
  unfold delete_resources_for_node_in, logger_info.
  mstep (emit_with_trace (LogInfo ("deleting node " +:+ node_name scenario_node)) st).
  rewrite (bind_ok _ _ _ (self st) (with_trace st _)) by reflexivity. cbv beta.
  mstep (Hbound _ (with_trace st [LogInfo ("deleting node " +:+ node_name scenario_node)])
           Hclient).
  mstep (Hbound _ (with_trace st [LogInfo ("deleting node " +:+ node_name scenario_node)])
           Hresource).
  mstep (Hbound _ (with_trace st [LogInfo ("deleting node " +:+ node_name scenario_node)])
           Hclient).
  mstep (global_name_bound _ _
           (with_trace st [LogInfo ("deleting node " +:+ node_name scenario_node)])
           Hcompute).
  mstep (Hbound _ (with_trace st [LogInfo ("deleting node " +:+ node_name scenario_node)])
           Hclient).
  mstep (Hbound _ (with_trace st [LogInfo ("deleting node " +:+ node_name scenario_node)])
           Hstorage).
  simpl node_name.
  rewrite (bind_ok _ _ _ _ _ (emit_with_trace _ _)). cbv beta.
  rewrite Huri.
  rewrite (bind_ok _ _ _ host (with_trace _ _)) by reflexivity. cbv beta.
  rewrite Hhost.
  rewrite (bind_ok _ _ _ account (with_trace _ _)) by reflexivity. cbv beta.
  rewrite (bind_ok _ _ _ container (with_trace _ _)) by reflexivity. cbv beta.
  rewrite (bind_ok _ _ _ blob (with_trace _ _)) by reflexivity. cbv beta.
  do 4 (rewrite (bind_ok _ _ _ _ _ (emit_with_trace _ _)); cbv beta).
  change (split "-" "pool-a-12345-vm-3") with ["pool"; "a"; "12345"; "vm"; "3"].
  rewrite (bind_ok _ _ _ "pool" (with_trace _ _)) by reflexivity. cbv beta.
  rewrite (bind_ok _ _ _ "a" (with_trace _ _)) by reflexivity. cbv beta.
  rewrite (bind_ok _ _ _ "12345" (with_trace _ _)) by reflexivity. cbv beta.
  rewrite (bind_ok _ _ _ "vm" (with_trace _ _)) by reflexivity. cbv beta.
  do 4 (rewrite (bind_ok _ _ _ _ _ (emit_with_trace _ _)); cbv beta).
  rewrite Hkeys.
  rewrite (bind_ok _ _ _ key (with_trace _ _)) by reflexivity. cbv beta.
  rewrite (bind_ok _ _ _ tt _ (Hbound _ _ Hblob)). cbv beta.
  rewrite emit_with_trace. by rewrite !with_trace_app.
Qed.

Lemma teardown_order_of_scenario_node_witness :
  module_globals ⊆ globals_with_compute_client ∧
  "ComputeManagementClient" ∈ globals_with_compute_client ∧
  split "/" (vhd_uri sample_provider "rg" "pool-a-12345-vm-3")
  = ["https:"; EmptyString; "acct.blob.core.windows.net"; "vhds";
     "pool-a-12345-vm-3-osdisk.vhd"] ∧
  split "." "acct.blob.core.windows.net" = ["acct"; "blob"; "core"; "windows"; "net"] ∧
  storage_keys sample_provider "rg" "acct" = ["key1"; "key2"] ∧
  delete_resources_for_node_in sample_provider globals_with_compute_client
    scenario_node sample_acs
  = (Ok tt,
     with_trace sample_acs
       [ LogInfo "deleting node pool-a-12345-vm-3";
         VirtualMachinesGet "rg" "pool-a-12345-vm-3";
         LogInfo "Deleting VM";
         ResourcesDelete "rg" "Microsoft.Compute" EmptyString "virtualMachines"
           "pool-a-12345-vm-3" "2016-03-30";
         OperationWait "pool-a-12345-vm-3";
         LogInfo "Deleting NIC";
         ResourcesDelete "rg" "Microsoft.Network" EmptyString "networkInterfaces"
           "pool-a-12345-nic-vm" "2016-03-30";
         OperationWait "pool-a-12345-nic-vm";
         LogInfo "Deleting OS disk";
         StorageListKeys "rg" "acct";
         DeleteBlob "acct" "key1" "vhds" "pool-a-12345-vm-3-osdisk.vhd" ]).
Proof.
  assert (Hglobals : module_globals ⊆ globals_with_compute_client)
    by (intros ident Hin; by right).
  assert (Hcompute : "ComputeManagementClient" ∈ globals_with_compute_client) by left.
  split; [exact Hglobals|]. split; [exact Hcompute|].
  split; [reflexivity|]. split; [reflexivity|]. split; [reflexivity|].
  exact (teardown_order_of_scenario_node sample_provider globals_with_compute_client
           sample_acs "https:" EmptyString "acct.blob.core.windows.net" "vhds"
           "pool-a-12345-vm-3-osdisk.vhd" "acct" "key1" [] ["blob"; "core"; "windows"; "net"]
           ["key2"] Hglobals Hcompute eq_refl eq_refl eq_refl).
Defined.

(** C5, as the spec words it, fails: neither as the module stands nor with
    the missing name bound does teardown of ["pool-a-12345-vm-3"] delete an
    interface called ["pool-a-12345-nic-3"]. *)
Lemma teardown_does_not_delete_nic_3 :
  ¬ (teardown_deletes_nic_3 sample_provider module_globals sample_acs ∨
     teardown_deletes_nic_3 sample_provider globals_with_compute_client sample_acs).
Proof.
  unfold teardown_deletes_nic_3. intros [Hclaim|Hclaim]; vm_compute in Hclaim; discriminate.
Qed.

(** ** Pools as [__init__] builds them *)

Lemma setdefault_append_keys pool_name node (pools : list (string * list Node)) :
  (fst <$> setdefault_append pool_name node pools)
  = if bool_decide (pool_name ∈ fst <$> pools) then fst <$> pools
    else (fst <$> pools) ++ [pool_name].
Proof.
  induction pools as [|[k ns] rest IH]; [done|].
  cbn [setdefault_append]. destruct (String.eqb k pool_name) eqn:Hk.
  - apply String.eqb_eq in Hk as ->.
    rewrite bool_decide_eq_true_2; [done|]. rewrite fmap_cons. left.
  - apply String.eqb_neq in Hk. rewrite !fmap_cons, IH. simpl fst.
    case_bool_decide as Hin.
    + rewrite bool_decide_eq_true_2; [done|]. by right.
    + rewrite bool_decide_eq_false_2; [done|].
      intros [Heq|Hin']%elem_of_cons; [by apply Hk|by apply Hin].
Qed.

Lemma setdefault_append_NoDup pool_name node (pools : list (string * list Node)) :
  NoDup (fst <$> pools) → NoDup (fst <$> setdefault_append pool_name node pools).
Proof.
  intros Hnd. rewrite setdefault_append_keys. case_bool_decide as Hin; [done|].
  apply NoDup_app. split; [done|]. split; [|apply NoDup_singleton].
  intros k Hk ->%list_elem_of_singleton. by apply Hin.
Qed.

Lemma setdefault_append_nonempty pool_name node (pools : list (string * list Node)) :
  Forall (λ entry, entry.2 ≠ []) pools →
  Forall (λ entry, entry.2 ≠ []) (setdefault_append pool_name node pools).
Proof.
  induction pools as [|[k ns] rest IH]; intros Hall.
  - by repeat constructor.
  - apply Forall_cons in Hall as [Hk Hrest]. cbn [setdefault_append].
    destruct (String.eqb k pool_name).
    + constructor; [|done]. simpl. by destruct ns.
    + constructor; [done|]. by apply IH.
Qed.

Lemma group_nodes_invariant get_pool_name (nodes : list Node) : ∀ acc,
  NoDup (fst <$> acc) → Forall (λ entry, entry.2 ≠ []) acc →
  let pools := foldl (λ pools node, setdefault_append (get_pool_name node) node pools)
                 acc nodes in
  NoDup (fst <$> pools) ∧ Forall (λ entry, entry.2 ≠ []) pools.
Proof.
  induction nodes as [|node rest IH]; intros acc Hnd Hall; [done|].
  simpl. apply IH; [by apply setdefault_append_NoDup|by apply setdefault_append_nonempty].
Qed.

(** The pools [get_agent_pools] builds have distinct names and at least one
    node each: the hypotheses on pool names above hold of every object that
    [__init__] sets up. *)
Lemma get_agent_pools_distinct_nonempty get_pool_name ceiling nodes :
  NoDup (name <$> get_agent_pools get_pool_name ceiling nodes) ∧
  ∀ pool, pool ∈ get_agent_pools get_pool_name ceiling nodes → 0 < actual_capacity pool.
Proof.
  unfold get_agent_pools, group_nodes.
  destruct (group_nodes_invariant get_pool_name nodes [])
    as [Hnd Hall]; [constructor|constructor|].
  split.
  - rewrite <- list_fmap_compose.
    erewrite list_fmap_ext; [exact Hnd|]. by intros i [k ns] _.
  - intros pool (entry & -> & Hin)%list_elem_of_fmap.
    rewrite Forall_forall in Hall. specialize (Hall entry Hin).
    unfold actual_capacity. simpl. destruct (entry.2); [done|]. simpl. lia.
Qed.

(** On the acs-engine branch [__init__] keeps the references it is given:
    the object shares the template and the parameters with whoever holds
    those references. *)
Lemma init_keeps_references provider get_pool_name ceiling rg nodes lt lp st :
  let st' := (init provider get_pool_name ceiling rg nodes None lt lp st).2 in
  is_acs_engine (self st') = true ∧
  arm_template (self st') = lt ∧ arm_parameters (self st') = lp ∧
  templates st' = templates st ∧ parameters st' = parameters st.
Proof. done. Qed.

(** ** Further properties: how nodes are grouped into pools *)

Lemma setdefault_append_elem pool_name node (acc : list (string * list Node)) k ns :
  NoDup (fst <$> acc) →
  (k, ns) ∈ setdefault_append pool_name node acc →
  (k ≠ pool_name ∧ (k, ns) ∈ acc) ∨
  (k = pool_name ∧ ∃ old, (k, old) ∈ acc ∧ ns = old ++ [node]) ∨
  (k = pool_name ∧ (pool_name ∉ fst <$> acc) ∧ ns = [node]).
Proof.
  induction acc as [|[k' ns'] rest IH]; intros Hnd Hin.
  - apply list_elem_of_singleton in Hin. injection Hin as -> ->.
    right. right. repeat split. by apply not_elem_of_nil.
  - rewrite fmap_cons, NoDup_cons in Hnd. destruct Hnd as [Hfresh Hnd].
    cbn [setdefault_append] in Hin. destruct (String.eqb k' pool_name) eqn:Hk.
    + apply String.eqb_eq in Hk as ->.
      apply elem_of_cons in Hin as [Heq|Hin].
      * injection Heq as -> ->. right. left. split; [done|].
        exists ns'. split; [left|done].
      * left. split; [|by right]. intros ->. apply Hfresh.
        by apply (list_elem_of_fmap_2 fst rest (pool_name, ns)).
    + apply String.eqb_neq in Hk.
      apply elem_of_cons in Hin as [Heq|Hin].
      * injection Heq as -> ->. left. split; [done|left].
      * destruct (IH Hnd Hin) as [[Hne Hold]|[[-> (old & Hold & ->)]|(-> & Hnew & ->)]].
        -- left. split; [done|by right].
        -- right. left. split; [done|]. exists old. split; [by right|done].
        -- right. right. split; [done|]. split; [|done].
           rewrite fmap_cons. apply not_elem_of_cons. split; [by apply not_eq_sym|done].
Qed.

Lemma setdefault_append_has_key pool_name node (acc : list (string * list Node)) :
  pool_name ∈ fst <$> setdefault_append pool_name node acc.
Proof.
  rewrite setdefault_append_keys. case_bool_decide; [done|].
  apply elem_of_app. right. left.
Qed.

Lemma setdefault_append_keeps_keys pool_name node (acc : list (string * list Node)) k :
  k ∈ fst <$> acc → k ∈ fst <$> setdefault_append pool_name node acc.
Proof.
  intros Hk. rewrite setdefault_append_keys. case_bool_decide; [done|].
  apply elem_of_app. by left.
Qed.

Lemma grouped_step get_pool_name seen acc node :
  grouped get_pool_name seen acc →
  grouped get_pool_name (seen ++ [node])
    (setdefault_append (get_pool_name node) node acc).
Proof.
  intros (Hnd & Hentries & Hkeys). split; [by apply setdefault_append_NoDup|]. split.
  - intros k ns Hin. rewrite filter_app.
    destruct (setdefault_append_elem _ _ _ _ _ Hnd Hin)
      as [[Hne Hold]|[[-> (old & Hold & ->)]|(-> & Hnew & ->)]].
    + destruct (Hentries k ns Hold) as [Hnonempty ->]. split; [done|].
      rewrite (filter_cons_False _ node) by (by apply not_eq_sym).
      by rewrite filter_nil, app_nil_r.
    + destruct (Hentries _ old Hold) as [Hnonempty ->]. split.
      * intros Hnil. apply app_eq_nil in Hnil as [_ Hnil]. discriminate.
      * by rewrite (filter_cons_True _ node), filter_nil.
    + split; [done|].
      rewrite (filter_cons_True _ node), filter_nil by done.
      assert (Hnone : filter (λ n, get_pool_name n = get_pool_name node) seen = []).
      { destruct (filter _ seen) as [|n rest] eqn:Hfilter; [done|].
        assert (Hn : n ∈ filter (λ n, get_pool_name n = get_pool_name node) seen)
          by (rewrite Hfilter; left).
        apply list_elem_of_filter in Hn as [Hname Hseen].
        exfalso. apply Hnew. rewrite <- Hname. by apply Hkeys. }
      by rewrite Hnone.
  - intros n [Hn|Hn]%elem_of_app.
    + by apply setdefault_append_keeps_keys, Hkeys.
    + apply list_elem_of_singleton in Hn as ->. apply setdefault_append_has_key.
Qed.

Lemma grouped_foldl get_pool_name nodes : ∀ seen acc,
  grouped get_pool_name seen acc →
  grouped get_pool_name (seen ++ nodes)
    (foldl (λ pools node, setdefault_append (get_pool_name node) node pools) acc nodes).
Proof.
  induction nodes as [|node rest IH]; intros seen acc Hinv; simpl.
  - by rewrite app_nil_r.
  - rewrite (cons_middle node seen rest), app_assoc. by apply IH, grouped_step.
Qed.

Lemma group_nodes_grouped get_pool_name nodes :
  grouped get_pool_name nodes (group_nodes get_pool_name nodes).
Proof.
  apply (grouped_foldl get_pool_name nodes [] []).
  split; [constructor|]. split; [by intros k ns Hin%elem_of_nil|by intros n Hn%elem_of_nil].
Qed.

(** X1: a pool built by [get_agent_pools] holds exactly the nodes of the
    input that carry its name, in the order of the input, and gets the
    constructor's ceiling; its name is the pool name of some input node, and
    every input node is in the pool that bears its pool name. *)
Theorem get_agent_pools_partitions_nodes
    (get_pool_name : Node → string) (ceiling : Z) (input : list Node) :
  (∀ pool, pool ∈ get_agent_pools get_pool_name ceiling input →
     nodes pool = filter (λ n, get_pool_name n = name pool) input ∧
     nodes pool ≠ [] ∧ max_size pool = ceiling) ∧
  (∀ n, n ∈ input →
     ∃ pool, pool ∈ get_agent_pools get_pool_name ceiling input ∧
             name pool = get_pool_name n ∧ n ∈ nodes pool).
Proof.
  destruct (group_nodes_grouped get_pool_name input) as (Hnd & Hentries & Hkeys).
  unfold get_agent_pools. split.
  - intros pool ([k ns] & -> & Hin)%list_elem_of_fmap. simpl.
    destruct (Hentries k ns Hin) as [Hnonempty Hfilter]. by repeat split.
  - intros n Hn. specialize (Hkeys n Hn).
    apply list_elem_of_fmap in Hkeys as ([k ns] & Hk & Hin). simpl in Hk. subst k.
    eexists. split; [apply list_elem_of_fmap_2, Hin|]. simpl. split; [done|].
    destruct (Hentries _ ns Hin) as [_ ->]. by apply list_elem_of_filter.
Qed.

Lemma get_agent_pools_partitions_nodes_witness :
  let pool := {| name := "poolb"; nodes := [ {| node_name := "k8s-poolb-12345678-0" |} ];
                 max_size := 5 |} in
  pool ∈ get_agent_pools second_field 5 sample_nodes ∧
  nodes pool = filter (λ n, second_field n = name pool) sample_nodes ∧
  nodes pool ≠ [] ∧ max_size pool = 5.
Proof.
  intros pool.
  assert (Hin : pool ∈ get_agent_pools second_field 5 sample_nodes)
    by (vm_compute; right; left).
  split; [exact Hin|].
  exact (proj1 (get_agent_pools_partitions_nodes second_field 5 sample_nodes) pool Hin).
Defined.

Lemma setdefault_append_total pool_name node (acc : list (string * list Node)) :
  foldr (λ entry total, (length entry.2 + total)%nat) 0%nat
    (setdefault_append pool_name node acc)
  = S (foldr (λ entry total, (length entry.2 + total)%nat) 0%nat acc).
Proof.
  induction acc as [|[k ns] rest IH]; [done|].
  cbn [setdefault_append]. destruct (String.eqb k pool_name); simpl.
  - rewrite length_app. simpl. lia.
  - rewrite IH. lia.
Qed.

Lemma group_nodes_total get_pool_name nodes : ∀ acc,
  foldr (λ entry total, (length entry.2 + total)%nat) 0%nat
    (foldl (λ pools node, setdefault_append (get_pool_name node) node pools) acc nodes)
  = (length nodes + foldr (λ entry total, (length entry.2 + total)%nat) 0%nat acc)%nat.
Proof.
  induction nodes as [|node rest IH]; intros acc; [done|].
  simpl. rewrite IH, setdefault_append_total. lia.
Qed.

(** X2: grouping neither loses nor duplicates a node: the capacities of the
    pools add up to the number of nodes handed in; no nodes, no pools. *)
Theorem get_agent_pools_conserves_nodes
    (get_pool_name : Node → string) (ceiling : Z) (input : list Node) :
  total_capacity (get_agent_pools get_pool_name ceiling input) = Z.of_nat (length input) ∧
  (input = [] → get_agent_pools get_pool_name ceiling input = []).
Proof.
  split; [|by intros ->].
  unfold get_agent_pools, group_nodes.
  pose proof (group_nodes_total get_pool_name input []) as Htotal. simpl in Htotal.
  rewrite Nat.add_0_r in Htotal. rewrite <- Htotal.
  generalize (foldl (λ pools node, setdefault_append (get_pool_name node) node pools)
                [] input).
  intros entries. induction entries as [|[k ns] rest IH]; [done|].
  unfold total_capacity in *. rewrite fmap_cons. cbn [foldr]. rewrite IH.
  unfold actual_capacity. simpl. lia.
Qed.

Lemma get_agent_pools_conserves_nodes_witness :
  get_agent_pools second_field 5 [] = [].
Proof. exact (proj2 (get_agent_pools_conserves_nodes second_field 5 []) eq_refl). Defined.

(** ** Further properties: what a scale pass can do *)

Section Runs.

Context (R : State → State → Prop).
Hypothesis R_refl : ∀ st, R st st.
Hypothesis R_trans : ∀ st1 st2 st3, R st1 st2 → R st2 st3 → R st1 st3.

Lemma runs_ret {A} (a : A) : runs R (ret a).
Proof. intros st. by exists (Ok a), st. Qed.

Lemma runs_raise {A} e : runs R (@raise A e).
Proof. intros st. by exists (Raise e), st. Qed.

Lemma runs_get_self : runs R get_self.
Proof. intros st. by exists (Ok (self st)), st. Qed.

Lemma runs_getitem {V} (d : gmap string V) key : runs R (getitem d key).
Proof. unfold getitem. destruct (d !! key); [apply runs_ret|apply runs_raise]. Qed.

Lemma runs_bind {A B} (m : M A) (k : A → M B) :
  runs R m → (∀ a, runs R (k a)) → runs R (bind m k).
Proof.
  intros Hm Hk st. destruct (Hm st) as ([a|e] & st1 & Hrun & Hstep).
  - rewrite (bind_ok _ _ _ _ _ Hrun).
    destruct (Hk a st1) as (res & st2 & -> & Hstep'). eauto.
  - rewrite (bind_raise _ _ _ _ _ Hrun). eauto.
Qed.

End Runs.

Lemma extends_trace_refl P st : extends_trace P st st.
Proof. exists []. by rewrite app_nil_r. Qed.

Lemma extends_trace_trans P st1 st2 st3 :
  extends_trace P st1 st2 → extends_trace P st2 st3 → extends_trace P st1 st3.
Proof.
  intros (evs & Ht & Hevs) (evs' & Ht' & Hevs'). exists (evs ++ evs').
  split; [by rewrite Ht', Ht, app_assoc|by apply Forall_app].
Qed.

Lemma acs_step_refl st : acs_step st st.
Proof. split; [apply extends_trace_refl|done]. Qed.

Lemma acs_step_trans st1 st2 st3 : acs_step st1 st2 → acs_step st2 st3 → acs_step st1 st3.
Proof.
  intros (Ht & ? & ? & ? & ?) (Ht' & ? & ? & ? & ?).
  split; [by apply (extends_trace_trans _ st1 st2)|]. repeat split; congruence.
Qed.

Lemma engine_step_refl st : engine_step st st.
Proof. split; [apply extends_trace_refl|done]. Qed.

Lemma engine_step_trans st1 st2 st3 :
  engine_step st1 st2 → engine_step st2 st3 → engine_step st1 st3.
Proof.
  intros (Ht & ?) (Ht' & ?).
  split; [by apply (extends_trace_trans _ st1 st2)|congruence].
Qed.

Lemma first_loop_step_refl st : first_loop_step st st.
Proof. exists []. by rewrite with_trace_nil. Qed.

Lemma first_loop_step_trans st1 st2 st3 :
  first_loop_step st1 st2 → first_loop_step st2 st3 → first_loop_step st1 st3.
Proof.
  intros (evs & -> & Hevs) (evs' & -> & Hevs'). exists (evs ++ evs').
  split; [by rewrite with_trace_app|by apply Forall_app].
Qed.

Lemma runs_emit R e :
  (∀ st, R st (with_trace st [e])) → runs R (emit e).
Proof. intros Hstep st. exists (Ok tt), (with_trace st [e]). by split. Qed.

(** The first loop, with or without an entry for every pool. *)
Lemma scale_pools_loop_runs pools : ∀ sizes dry_run has_changes,
  runs first_loop_step (scale_pools_loop pools sizes dry_run has_changes).
Proof.
  assert (Hemit : ∀ e, first_loop_vocabulary e = true →
                       runs first_loop_step (emit e)).
  { intros e He. apply runs_emit. intros st. exists [e]. split; [done|by constructor]. }
  assert (Hret : ∀ A (a : A), runs first_loop_step (ret a))
    by (intros; apply runs_ret, first_loop_step_refl).
  assert (Hget : ∀ key (d : gmap string Z), runs first_loop_step (getitem d key))
    by (intros; apply runs_getitem, first_loop_step_refl).
  assert (Hbind : ∀ A B (m : M A) (k : A → M B),
            runs first_loop_step m → (∀ a, runs first_loop_step (k a)) →
            runs first_loop_step (bind m k))
    by (intros; by apply runs_bind; [apply first_loop_step_trans|..]).
  induction pools as [|pool rest IH]; intros sizes dry_run has_changes;
    cbn [scale_pools_loop]; [apply Hret|].
  unfold logger_info, reclaim_unschedulable_nodes.
  repeat first
    [ apply IH | apply Hget | apply Hret | apply Hemit; reflexivity
    | apply Hbind; [|intros ?]
    | match goal with |- runs _ (if ?b then _ else _) => destruct b end ].
Qed.

Lemma set_desired_runs n : runs acs_step (set_desired_acs_agent_pool_capacity n).
Proof.
  intros st. unfold set_desired_acs_agent_pool_capacity, bind, get_self. cbv beta iota.
  destruct (instance (self st)) as [inst|].
  - destruct (agent_pool_profiles inst) as [|profile others].
    + eexists _, _. split; [reflexivity|apply acs_step_refl].
    + simpl. destruct (container_service_name (self st)) as [cs|]; simpl;
        eexists _, _; (split; [reflexivity|]).
      * split; [|done]. eexists [_]. split; [reflexivity|by repeat constructor].
      * split; [|done]. exists []. simpl. by rewrite app_nil_r.
  - eexists _, _. split; [reflexivity|apply acs_step_refl].
Qed.

(** The resize loop, whatever the object and the dictionary hold. *)
Lemma resize_loop_runs sizes pools : runs acs_step (resize_loop pools sizes).
Proof.
  assert (Hbind : ∀ A B (m : M A) (k : A → M B),
            runs acs_step m → (∀ a, runs acs_step (k a)) → runs acs_step (bind m k))
    by (intros; by apply runs_bind; [apply acs_step_trans|..]).
  induction pools as [|pool rest IH]; cbn [resize_loop].
  - apply runs_ret, acs_step_refl.
  - unfold deploy. apply Hbind; [|by intros _].
    apply Hbind; [|intros _; apply Hbind; [|intros n; apply set_desired_runs]].
    + apply runs_emit. intros st. split; [|done].
      eexists [_]. split; [reflexivity|by repeat constructor].
    + apply runs_getitem, acs_step_refl.
Qed.

Lemma set_arm_parameter_runs key value : runs engine_step (set_arm_parameter key value).
Proof.
  intros st. unfold set_arm_parameter.
  destruct (arm_parameters (self st)) as [l|]; [destruct (parameters st !! l)|];
    eexists _, _; (split; [reflexivity|]);
    (split; [exists []; simpl; by rewrite app_nil_r|done]).
Qed.

Lemma prepare_template_for_scale_up_runs template :
  runs engine_step (prepare_template_for_scale_up template).
Proof.
  intros st. unfold prepare_template_for_scale_up.
  destruct template as [l|]; [destruct (templates st !! l) as [t|]|].
  - destruct (prepare_template t) as [res t'].
    eexists _, _. split; [reflexivity|].
    split; [exists []; simpl; by rewrite app_nil_r|done].
  - eexists _, _. split; [reflexivity|apply engine_step_refl].
  - eexists _, _. split; [reflexivity|apply engine_step_refl].
Qed.

Lemma deploy_pools_loop_runs sizes is_scale_up pools :
  runs engine_step (deploy_pools_loop pools sizes is_scale_up).
Proof.
  assert (Hret : ∀ A (a : A), runs engine_step (ret a))
    by (intros; apply runs_ret, engine_step_refl).
  assert (Hget : ∀ key (d : gmap string Z), runs engine_step (getitem d key))
    by (intros; apply runs_getitem, engine_step_refl).
  assert (Hbind : ∀ A B (m : M A) (k : A → M B),
            runs engine_step m → (∀ a, runs engine_step (k a)) →
            runs engine_step (bind m k))
    by (intros; by apply runs_bind; [apply engine_step_trans|..]).
  induction pools as [|pool rest IH]; cbn [deploy_pools_loop]; [apply Hret|].
  repeat first
    [ apply IH | apply Hget | apply Hret | apply set_arm_parameter_runs
    | apply Hbind; [|intros ?]
    | match goal with |- runs _ (if ?b then _ else _) => destruct b end ].
Qed.

(** [deploy_pools], whatever the object and the store hold. *)
Lemma deploy_pools_runs sizes is_scale_up : runs engine_step (deploy_pools sizes is_scale_up).
Proof.
  assert (Hret : ∀ A (a : A), runs engine_step (ret a))
    by (intros; apply runs_ret, engine_step_refl).
  assert (Hbind : ∀ A B (m : M A) (k : A → M B),
            runs engine_step m → (∀ a, runs engine_step (k a)) →
            runs engine_step (bind m k))
    by (intros; by apply runs_bind; [apply engine_step_trans|..]).
  assert (Hderef : ∀ V (store : gmap loc V) ref, runs engine_step (deref store ref)).
  { intros V store [l|]; unfold deref; [destruct (store !! l)|];
      first [apply Hret | apply runs_raise, engine_step_refl]. }
  unfold deploy_pools.
  apply Hbind; [apply runs_get_self, engine_step_refl|intros s].
  apply Hbind; [apply deploy_pools_loop_runs|intros _].
  apply Hbind;
    [destruct is_scale_up; [apply prepare_template_for_scale_up_runs|apply Hret]|intros _].
  intros st.
  apply (Hbind _ _ (deref (templates st) (arm_template s))); [apply Hderef|intros template].
  apply Hbind; [apply Hderef|intros params].
  apply runs_emit. intros st0. split; [|done].
  eexists [_]. split; [reflexivity|by repeat constructor].
Qed.

(** The two phases of [scale_pools]. *)
Lemma scale_pools_phases
    (st : State) (sizes : gmap string Z) (dry_run is_scale_up : bool) :
  ∃ res st' first second,
    scale_pools sizes dry_run is_scale_up st = (res, st') ∧
    trace st' = trace st ++ first ++ second ∧
    Forall (λ e, first_loop_vocabulary e = true) first ∧
    Forall (λ e, (if is_acs_engine (self st) then engine_update e else acs_update e) = true)
      second ∧
    (dry_run = true → second = []) ∧
    (if is_acs_engine (self st) then self st' = self st
     else templates st' = templates st ∧ parameters st' = parameters st).
Proof.
  unfold scale_pools. rewrite (bind_ok _ _ _ (self st) st) by reflexivity.
  destruct (scale_pools_loop_runs (agent_pools (self st)) sizes dry_run false st)
    as ([[sizes' has_changes]|e] & st1 & Hloop & first & Hst1 & Hfirst); subst st1.
  2:{ rewrite (bind_raise _ _ _ _ _ Hloop). exists (Raise e), (with_trace st first), first, [].
      rewrite app_nil_r. repeat split; [done|done|]. by destruct (is_acs_engine (self st)). }
  rewrite (bind_ok _ _ _ _ _ Hloop). cbv beta iota.
  destruct (negb dry_run && has_changes) eqn:Hgo.
  2:{ exists (Ok sizes'), (with_trace st first), first, []. rewrite app_nil_r.
      repeat split; [done|done|]. by destruct (is_acs_engine (self st)). }
  apply andb_true_iff in Hgo as [Hwet _].
  destruct (is_acs_engine (self st)) eqn:Hengine; simpl negb; cbv iota.
  - unfold deploy.
    assert (Hdeploy : runs engine_step
                        (emit (Deploy (OpDeployPools is_scale_up) sizes') ;;;
                         deploy_pools sizes' is_scale_up)).
    { apply runs_bind; [apply engine_step_trans| |intros a; apply deploy_pools_runs].
      apply runs_emit. intros st0. split; [|done].
      eexists [_]. split; [reflexivity|by repeat constructor]. }
    destruct (Hdeploy (with_trace st first))
      as (res & st' & Hrun & (second & Htrace & Hsecond) & Hself).
    exists (match res with Ok _ => Ok sizes' | Raise e => Raise e end), st', first, second.
    split; [unfold bind at 1; rewrite Hrun; by destruct res|].
    split; [rewrite Htrace; simpl; by rewrite <- app_assoc|].
    split; [done|]. split; [done|].
    split; [by destruct dry_run|done].
  - destruct (resize_loop_runs sizes' (agent_pools (self st)) (with_trace st first))
      as (res & st' & Hrun & (second & Htrace & Hsecond) & Htemplates & Hparams & _).
    exists (match res with Ok _ => Ok sizes' | Raise e => Raise e end), st', first, second.
    split; [unfold bind at 1; rewrite Hrun; by destruct res|].
    split; [rewrite Htrace; simpl; by rewrite <- app_assoc|].
    split; [done|]. split; [done|].
    split; [by destruct dry_run|done].
Qed.

(** X6: whatever it is given, and whether it returns or raises,
    [scale_pools] first emits log lines and reclaim calls only, and after
    them serialized resizes and service updates only (managed branch) or
    serialized redeploys only (acs-engine branch); a dry run emits nothing
    after the loop.  The managed branch leaves the template and parameter
    store alone, the acs-engine branch leaves the object alone; no branch
    deletes a resource or sleeps. *)
Theorem scale_pools_effects
    (st : State) (sizes : gmap string Z) (dry_run is_scale_up : bool) :
  ∃ res st' first second,
    scale_pools sizes dry_run is_scale_up st = (res, st') ∧
    trace st' = trace st ++ first ++ second ∧
    Forall (λ e, first_loop_vocabulary e = true) first ∧
    Forall (λ e, (if is_acs_engine (self st) then engine_update e else acs_update e) = true)
      second ∧
    (dry_run = true → second = []) ∧
    (if is_acs_engine (self st) then self st' = self st
     else templates st' = templates st ∧ parameters st' = parameters st).
Proof. apply scale_pools_phases. Qed.

Lemma scale_pools_effects_witness :
  ∃ res st' first,
    scale_pools sample_sizes true true sample_acs = (res, st') ∧
    trace st' = trace sample_acs ++ first ++ [].
Proof.
  destruct (scale_pools_effects sample_acs sample_sizes true true)
    as (res & st' & first & second & Hrun & Htrace & _ & _ & Hdry & _).
  rewrite (Hdry eq_refl) in Htrace. by exists res, st', first.
Defined.

(** ** Further properties: the dictionary of target sizes *)

Lemma target_le_max sizes pool : target sizes pool <= max_size pool.
Proof. unfold target. lia. Qed.

Lemma clamp_all_idempotent pools sizes :
  NoDup (name <$> pools) → covers sizes pools →
  clamp_all pools (clamp_all pools sizes) = clamp_all pools sizes.
Proof.
  intros Hnd Hcov. apply map_eq. intros key.
  destruct (decide (key ∈ name <$> pools)) as [Hin|Hnotin].
  - apply list_elem_of_fmap in Hin as (pool & -> & Hin).
    rewrite !clamp_all_lookup by done. f_equal.
    unfold target at 1. rewrite clamp_all_lookup by done. simpl.
    unfold target. lia.
  - by rewrite !clamp_all_lookup_notin.
Qed.

(** X4: with an entry for every pool and distinct pool names, the loop of
    [scale_pools] leaves every pool's entry at or below the pool's
    [max_size], leaves the entries that name no pool as they were, and is
    idempotent: run again on the dictionary it produced, in any mode, it
    produces the same dictionary. *)
Theorem clamping_is_bounded_and_idempotent
    (pools : list AgentPool) (sizes : gmap string Z) (dry_run : bool) (st : State) :
  NoDup (name <$> pools) →
  covers sizes pools →
  ∃ sizes' has_changes evs,
    scale_pools_loop pools sizes dry_run false st
    = (Ok (sizes', has_changes), with_trace st evs) ∧
    (∀ pool, pool ∈ pools →
       ∃ v, sizes' !! name pool = Some v ∧ v <= max_size pool) ∧
    (∀ key, key ∉ name <$> pools → sizes' !! key = sizes !! key) ∧
    (∀ dry_run' has_changes' st',
       ∃ has_changes'' evs',
         scale_pools_loop pools sizes' dry_run' has_changes' st'
         = (Ok (sizes', has_changes''), with_trace st' evs')).
Proof.
  intros Hnd Hcov.
  assert (Hcov' : covers (clamp_all pools sizes) pools).
  { intros pool Hin. rewrite clamp_all_lookup by done. eauto. }
  eexists _, _, _. split; [by apply scale_pools_loop_run|]. split; [|split].
  - intros pool Hin. rewrite clamp_all_lookup by done.
    eexists. split; [done|apply target_le_max].
  - intros key Hkey. by apply clamp_all_lookup_notin.
  - intros dry_run' has_changes' st'. eexists _, _.
    rewrite scale_pools_loop_run by done. by rewrite clamp_all_idempotent.
Qed.

Lemma clamping_is_bounded_and_idempotent_witness :
  NoDup (name <$> sample_pools) ∧ covers sample_sizes sample_pools ∧
  ∃ sizes' has_changes evs,
    scale_pools_loop sample_pools sample_sizes false false sample_acs
    = (Ok (sizes', has_changes), with_trace sample_acs evs) ∧
    (∀ pool, pool ∈ sample_pools →
       ∃ v, sizes' !! name pool = Some v ∧ v <= max_size pool).
Proof.
  assert (Hnd : NoDup (name <$> sample_pools)) by compute_done.
  assert (Hcov : covers sample_sizes sample_pools) by (apply covers_Forall; compute_done).
  split; [exact Hnd|]. split; [exact Hcov|].
  destruct (clamping_is_bounded_and_idempotent sample_pools sample_sizes false sample_acs
              Hnd Hcov) as (sizes' & has_changes & evs & Hrun & Hbound & _).
  by exists sizes', has_changes, evs.
Defined.

Lemma scale_pools_loop_app front : ∀ rest sizes dry_run has_changes st,
  scale_pools_loop (front ++ rest) sizes dry_run has_changes st
  = match scale_pools_loop front sizes dry_run has_changes st with
    | (Ok (sizes', has_changes'), st') =>
      scale_pools_loop rest sizes' dry_run has_changes' st'
    | (Raise e, st') => (Raise e, st')
    end.
Proof.
  induction front as [|pool front IH]; intros rest sizes dry_run has_changes st; [done|].
  cbn [app scale_pools_loop].
  unfold bind, getitem, logger_info, reclaim_unschedulable_nodes, emit, ret, raise.
  destruct (sizes !! name pool) as [c|]; [|done].
  rewrite lookup_insert_eq.
  destruct (Z.min (max_size pool) c =? actual_capacity pool); [apply IH|].
  destruct dry_run; simpl; [apply IH|].
  destruct (c >? actual_capacity pool); apply IH.
Qed.

(** X5: when some pool has no entry in the dictionary, [scale_pools] raises
    [KeyError] with the name of the first such pool; the pools listed before
    it have been clamped, logged and, outside a dry run, reclaimed for, and
    nothing else has happened: no serialized call, no update, no redeploy. *)
Theorem scale_pools_missing_entry
    (st : State) (sizes : gmap string Z) (dry_run is_scale_up : bool)
    (front : list AgentPool) (missing : AgentPool) (rest : list AgentPool) :
  agent_pools (self st) = front ++ missing :: rest →
  covers sizes front →
  sizes !! name missing = None →
  scale_pools sizes dry_run is_scale_up st
  = (Raise (KeyError (name missing)),
     with_trace st (first_loop_events dry_run front sizes)) ∧
  Forall (λ e, first_loop_vocabulary e = true) (first_loop_events dry_run front sizes).
Proof.
  intros Hpools Hcov Hmissing.
  assert (Hfresh : name missing ∉ name <$> front).
  { intros (pool & Hname & Hin)%list_elem_of_fmap.
    destruct (Hcov pool Hin) as [c Hc]. congruence. }
  split.
  - unfold scale_pools. rewrite (bind_ok _ _ _ (self st) st) by reflexivity. cbv beta.
    unfold bind at 1. rewrite Hpools, scale_pools_loop_app, scale_pools_loop_run by done.
    cbn [scale_pools_loop]. unfold bind at 1.
    by rewrite getitem_none by (by rewrite clamp_all_lookup_notin).
  - destruct (scale_pools_loop_runs front sizes dry_run false st)
      as (res & st' & Hrun & evs & -> & Hevs).
    rewrite scale_pools_loop_run in Hrun by done. injection Hrun as _ Htrace.
    apply app_inv_head in Htrace. by rewrite Htrace.
Qed.

Lemma scale_pools_missing_entry_witness :
  agent_pools (self sample_acs) = [sample_pool "poola" 3 5] ++ sample_pool "poolb" 2 5 :: [] ∧
  covers {[ "poola" := 10 ]} [sample_pool "poola" 3 5] ∧
  ({[ "poola" := 10 ]} : gmap string Z) !! name (sample_pool "poolb" 2 5) = None ∧
  scale_pools {[ "poola" := 10 ]} false true sample_acs
  = (Raise (KeyError "poolb"),
     with_trace sample_acs [ReclaimUnschedulableNodes "poola" 10]).
Proof.
  assert (Hcov : covers ({[ "poola" := 10 ]} : gmap string Z) [sample_pool "poola" 3 5])
    by (apply covers_Forall; compute_done).
  split; [reflexivity|]. split; [exact Hcov|]. split; [reflexivity|].
  exact (proj1 (scale_pools_missing_entry sample_acs {[ "poola" := 10 ]} false true
                  [sample_pool "poola" 3 5] (sample_pool "poolb" 2 5) []
                  eq_refl Hcov eq_refl)).
Defined.

(** ** Further properties: scaling down *)

Lemma scale_down_loop_run pools : ∀ trim_map acc st,
  covers trim_map pools →
  (∀ pool t, pool ∈ pools → trim_map !! name pool = Some t → 0 < actual_capacity pool - t) →
  scale_down_loop pools trim_map acc st
  = (Ok (shrunk_sizes trim_map pools acc), with_trace st (scale_down_logs trim_map pools)).
Proof.
  induction pools as [|pool rest IH]; intros trim_map acc st Hcov Hpos.
  - simpl. unfold ret. by rewrite with_trace_nil.
  - apply covers_cons in Hcov as [[t Ht] Hrest].
    cbn [scale_down_loop]. rewrite (bind_ok _ _ _ _ _ (getitem_some _ _ _ _ Ht)).
    assert (Hroom : 0 < actual_capacity pool - t) by (apply (Hpos pool); [left|done]).
    apply Z.leb_gt in Hroom. rewrite Hroom.
    rewrite (bind_ok _ _ _ _ _ (getitem_some _ _ _ _ Ht)).
    unfold logger_info. rewrite (bind_ok _ _ _ _ _ (emit_with_trace _ _)).
    rewrite IH; [|done|intros q tq Hq; apply Hpos; by right].
    unfold shrunk_sizes, scale_down_logs. rewrite fmap_cons. simpl foldl.
    rewrite Ht. simpl default. by rewrite with_trace_app.
Qed.

Lemma scale_down_loop_ok pools : ∀ trim_map acc st sizes st',
  scale_down_loop pools trim_map acc st = (Ok sizes, st') →
  covers trim_map pools ∧
  (∀ pool t, pool ∈ pools → trim_map !! name pool = Some t → 0 < actual_capacity pool - t).
Proof.
  induction pools as [|pool rest IH]; intros trim_map acc st sizes st' Hrun.
  - split; [by intros pool Hin%elem_of_nil|by intros pool t Hin%elem_of_nil].
  - cbn [scale_down_loop] in Hrun. unfold bind at 1 in Hrun. unfold getitem at 1 in Hrun.
    destruct (trim_map !! name pool) as [t|] eqn:Ht; [|discriminate]. simpl in Hrun.
    destruct (actual_capacity pool - t <=? 0) eqn:Hroom; [discriminate|].
    apply Z.leb_gt in Hroom.
    rewrite (bind_ok _ _ _ _ _ (getitem_some _ _ _ _ Ht)) in Hrun.
    unfold logger_info in Hrun. rewrite (bind_ok _ _ _ _ _ (emit_with_trace _ _)) in Hrun.
    destruct (IH _ _ _ _ _ Hrun) as [Hcov Hpos]. split.
    + intros q [->|Hq]%elem_of_cons; [eauto|by apply Hcov].
    + intros q tq [->|Hq]%elem_of_cons Htq; [|by apply (Hpos q)].
      rewrite Ht in Htq. by injection Htq as <-.
Qed.

Lemma shrunk_sizes_lookup_notin trim_map (pools : list AgentPool) : ∀ acc key,
  key ∉ name <$> pools → shrunk_sizes trim_map pools acc !! key = acc !! key.
Proof.
  induction pools as [|p rest IH]; intros acc key Hnotin; [done|].
  rewrite fmap_cons, not_elem_of_cons in Hnotin. destruct Hnotin as [Hne Hrest].
  unfold shrunk_sizes in *. simpl. rewrite IH by done. by rewrite lookup_insert_ne.
Qed.

Lemma shrunk_sizes_lookup trim_map (pools : list AgentPool) : ∀ acc pool,
  NoDup (name <$> pools) → pool ∈ pools →
  shrunk_sizes trim_map pools acc !! name pool
  = Some (actual_capacity pool - default 0 (trim_map !! name pool)).
Proof.
  induction pools as [|p rest IH]; intros acc pool Hnd Hin; [by inversion Hin|].
  rewrite fmap_cons, NoDup_cons in Hnd. destruct Hnd as [Hfresh Hnd].
  apply elem_of_cons in Hin as [->|Hin].
  - change (shrunk_sizes trim_map (p :: rest) acc)
      with (shrunk_sizes trim_map rest
              (<[name p := actual_capacity p - default 0 (trim_map !! name p)]> acc)).
    rewrite shrunk_sizes_lookup_notin by done. by rewrite lookup_insert_eq.
  - by apply (IH (<[name p := actual_capacity p - default 0 (trim_map !! name p)]> acc)).
Qed.

(** X7: a scale-down that takes no pool below one agent is a [scale_pools]
    pass, in the shrinking direction, on the dictionary that maps every pool
    to its capacity less its trim, run after one log line per pool; the size
    the pass settles on for a pool is [min(max_size, capacity - trim)]. *)
Theorem scale_down_is_a_pass_on_shrunk_sizes
    (st : State) (trim_map : gmap string Z) (dry_run : bool) :
  NoDup (name <$> agent_pools (self st)) →
  covers trim_map (agent_pools (self st)) →
  (∀ pool t, pool ∈ agent_pools (self st) → trim_map !! name pool = Some t →
             0 < actual_capacity pool - t) →
  let pools := agent_pools (self st) in
  let shrunk := shrunk_sizes trim_map pools ∅ in
  scale_down trim_map dry_run st
  = match scale_pools shrunk dry_run false (with_trace st (scale_down_logs trim_map pools)) with
    | (Ok _, st') => (Ok tt, st')
    | (Raise e, st') => (Raise e, st')
    end ∧
  ∀ pool t, pool ∈ pools → trim_map !! name pool = Some t →
    shrunk !! name pool = Some (actual_capacity pool - t) ∧
    clamp_all pools shrunk !! name pool
    = Some (Z.min (max_size pool) (actual_capacity pool - t)).
Proof.
  intros Hnd Hcov Hpos pools shrunk. split.
  - unfold scale_down. rewrite (bind_ok _ _ _ (self st) st) by reflexivity.
    rewrite (bind_ok _ _ _ _ _ (scale_down_loop_run _ _ ∅ st Hcov Hpos)).
    fold pools shrunk. unfold bind.
    by destruct (scale_pools shrunk dry_run false _) as [[sizes|e] st'].
  - intros pool t Hin Ht.
    assert (Hshrunk : shrunk !! name pool = Some (actual_capacity pool - t)).
    { unfold shrunk. rewrite shrunk_sizes_lookup by done. by rewrite Ht. }
    split; [done|]. rewrite clamp_all_lookup by done. unfold target. by rewrite Hshrunk.
Qed.

Lemma scale_down_is_a_pass_on_shrunk_sizes_witness :
  NoDup (name <$> agent_pools (self sample_acs)) ∧
  covers ({[ "poola" := 1; "poolb" := 1 ]} : gmap string Z) (agent_pools (self sample_acs)) ∧
  shrunk_sizes {[ "poola" := 1; "poolb" := 1 ]} sample_pools ∅ !! "poola" = Some 2 ∧
  clamp_all sample_pools (shrunk_sizes {[ "poola" := 1; "poolb" := 1 ]} sample_pools ∅)
    !! "poolb" = Some 1.
Proof.
  assert (Hnd : NoDup (name <$> agent_pools (self sample_acs))) by compute_done.
  assert (Hcov : covers ({[ "poola" := 1; "poolb" := 1 ]} : gmap string Z)
                   (agent_pools (self sample_acs)))
    by (apply covers_Forall; compute_done).
  assert (Hpos : ∀ pool t, pool ∈ agent_pools (self sample_acs) →
            ({[ "poola" := 1; "poolb" := 1 ]} : gmap string Z) !! name pool = Some t →
            0 < actual_capacity pool - t).
  { intros pool t Hin Ht. simpl in Hin.
    repeat (apply elem_of_cons in Hin as [->|Hin]);
      [vm_compute in Ht; injection Ht as <-; reflexivity..|by inversion Hin]. }
  split; [exact Hnd|]. split; [exact Hcov|].
  destruct (scale_down_is_a_pass_on_shrunk_sizes sample_acs
              {[ "poola" := 1; "poolb" := 1 ]} false Hnd Hcov Hpos) as [_ Hsizes].
  split.
  - exact (proj1 (Hsizes (sample_pool "poola" 3 5) 1 ltac:(left) eq_refl)).
  - exact (proj2 (Hsizes (sample_pool "poolb" 2 5) 1 ltac:(right; left) eq_refl)).
Defined.

Lemma update_is_no_reclaim engine e :
  (if engine : bool then engine_update e else acs_update e) = true → is_reclaim e = false.
Proof. destruct engine, e; simpl; congruence. Qed.

Lemma log_is_no_reclaim e : is_log e = true → is_reclaim e = false.
Proof. destruct e; simpl; congruence. Qed.

(** [scale_pools] on a dictionary with an entry for every pool: either the
    loop is all there is, or the first thing after the loop is a serialized
    call that carries the clamped dictionary. *)
Lemma scale_pools_covered st sizes dry_run is_scale_up :
  covers sizes (agent_pools (self st)) →
  let pools := agent_pools (self st) in
  let sizes' := clamp_all pools sizes in
  let logged := first_loop_events dry_run pools sizes in
  (negb dry_run && any_change pools sizes = false →
   scale_pools sizes dry_run is_scale_up st = (Ok sizes', with_trace st logged)) ∧
  (negb dry_run && any_change pools sizes = true →
   ∃ res st' op evs,
     scale_pools sizes dry_run is_scale_up st = (res, st') ∧
     trace st' = trace st ++ logged ++ Deploy op sizes' :: evs ∧
     Forall (λ e, is_reclaim e = false) evs).
Proof.
  intros Hcov pools sizes' logged.
  assert (Hloop : scale_pools sizes dry_run is_scale_up st
                  = bind ((λ '(new_pool_sizes, has_changes),
                             (if negb dry_run && has_changes
                              then if negb (is_acs_engine (self st))
                                   then resize_loop pools new_pool_sizes
                                   else deploy (OpDeployPools is_scale_up)
                                          (deploy_pools new_pool_sizes is_scale_up)
                                          new_pool_sizes
                              else ret tt) : M unit)
                            (sizes', any_change pools sizes))
                         (λ _, ret sizes') (with_trace st logged)).
  { unfold scale_pools. rewrite (bind_ok _ _ _ (self st) st) by reflexivity.
    by rewrite (bind_ok _ _ _ _ _ (scale_pools_loop_run _ _ _ _ _ Hcov)). }
  rewrite Hloop. cbv beta iota. split; intros Hgo; rewrite Hgo; [done|].
  apply andb_true_iff in Hgo as [_ Hchange].
  destruct (is_acs_engine (self st)); simpl negb; cbv iota.
  - unfold deploy. rewrite bind_bind, (bind_ok _ _ _ _ _ (emit_with_trace _ _)). cbv beta.
    rewrite with_trace_app.
    assert (Hrest : runs engine_step
                      (deploy_pools sizes' is_scale_up ;;; ret sizes')).
    { apply runs_bind; [apply engine_step_trans|apply deploy_pools_runs|].
      intros _. apply runs_ret, engine_step_refl. }
    destruct (Hrest (with_trace st (logged ++ [Deploy (OpDeployPools is_scale_up) sizes'])))
      as (res & st' & Hrun & (evs & Htrace & Hevs) & _).
    exists res, st', (OpDeployPools is_scale_up), evs. split; [done|]. split.
    + rewrite Htrace. simpl. by rewrite <- !app_assoc.
    + eapply Forall_impl; [exact Hevs|]. intros e. apply (update_is_no_reclaim true).
  - destruct pools as [|pool rest] eqn:Hpools; [discriminate|].
    cbn [resize_loop]. unfold deploy.
    rewrite !bind_bind, (bind_ok _ _ _ _ _ (emit_with_trace _ _)). cbv beta.
    rewrite with_trace_app.
    assert (Hrest : runs acs_step
                      (let* n := getitem sizes' (name pool) in
                       set_desired_acs_agent_pool_capacity n ;;;
                       resize_loop rest sizes' ;;; ret sizes')).
    { apply runs_bind; [apply acs_step_trans|apply runs_getitem, acs_step_refl|intros n].
      apply runs_bind; [apply acs_step_trans|apply set_desired_runs|intros _].
      apply runs_bind; [apply acs_step_trans|apply resize_loop_runs|intros _].
      apply runs_ret, acs_step_refl. }
    destruct (Hrest (with_trace st
                       (logged ++ [Deploy (OpSetDesiredCapacity (name pool)) sizes'])))
      as (res & st' & Hrun & (evs & Htrace & Hevs) & _).
    exists res, st', (OpSetDesiredCapacity (name pool)), evs.
    split; [by rewrite <- Hrun, !bind_bind|]. split.
    + rewrite Htrace. simpl. by rewrite <- !app_assoc.
    + eapply Forall_impl; [exact Hevs|]. intros e. apply (update_is_no_reclaim false).
Qed.

Lemma first_loop_events_no_reclaim dry_run pools : ∀ sizes,
  (∀ pool, pool ∈ pools → default 0 (sizes !! name pool) <= actual_capacity pool) →
  Forall (λ e, is_reclaim e = false) (first_loop_events dry_run pools sizes).
Proof.
  induction pools as [|p rest IH]; intros sizes Hle; simpl; [constructor|].
  apply Forall_app. split.
  - unfold first_loop_event. specialize (Hle p ltac:(left)).
    destruct (at_capacity sizes p); [by repeat constructor|].
    destruct dry_run; [by repeat constructor|].
    destruct (_ >? _) eqn:Hgrow; [|constructor].
    apply Z.gtb_lt in Hgrow. lia.
  - apply IH. intros q Hq. unfold clamp.
    destruct (decide (name p = name q)) as [Heq|Hne].
    + rewrite Heq, lookup_insert_eq. simpl. unfold target.
      specialize (Hle q ltac:(by right)). rewrite Heq. lia.
    + rewrite lookup_insert_ne by done. apply Hle. by right.
Qed.

(** X8: with distinct pool names and no negative trim, [scale_down] never
    asks a pool to reclaim unschedulable nodes, whether the pass is dry or
    not and whether it returns or raises. *)
Theorem scale_down_never_reclaims
    (st : State) (trim_map : gmap string Z) (dry_run : bool) :
  NoDup (name <$> agent_pools (self st)) →
  (∀ pool t, pool ∈ agent_pools (self st) → trim_map !! name pool = Some t → 0 <= t) →
  ∃ res st' evs,
    scale_down trim_map dry_run st = (res, st') ∧
    trace st' = trace st ++ evs ∧
    Forall (λ e, is_reclaim e = false) evs.
Proof.
  intros Hnd Htrim. unfold scale_down.
  rewrite (bind_ok _ _ _ (self st) st) by reflexivity.
  destruct (scale_down_loop_logs (agent_pools (self st)) trim_map ∅ st)
    as ([sizes|e] & logs & Hrun & Hlogs).
  2:{ rewrite (bind_raise _ _ _ _ _ Hrun). eexists _, _, logs. split; [done|].
      split; [done|]. eapply Forall_impl; [exact Hlogs|]. apply log_is_no_reclaim. }
  destruct (scale_down_loop_ok _ _ _ _ _ _ Hrun) as [Hcov Hpos].
  rewrite scale_down_loop_run in Hrun by done. injection Hrun as <- _.
  rewrite (bind_ok _ _ _ _ _ (scale_down_loop_run _ _ ∅ st Hcov Hpos)).
  set (pools := agent_pools (self st)) in *.
  set (shrunk := shrunk_sizes trim_map pools ∅).
  set (st1 := with_trace st (scale_down_logs trim_map pools)).
  assert (Hlookup : ∀ pool, pool ∈ pools →
            shrunk !! name pool
            = Some (actual_capacity pool - default 0 (trim_map !! name pool)))
    by (intros pool Hin; by apply shrunk_sizes_lookup).
  assert (Hcov' : covers shrunk (agent_pools (self st1)))
    by (intros pool Hin; rewrite Hlookup by done; eauto).
  assert (Hquiet : Forall (λ e, is_reclaim e = false)
                     (first_loop_events dry_run pools shrunk)).
  { apply first_loop_events_no_reclaim. intros pool Hin. rewrite Hlookup by done. simpl.
    destruct (Hcov pool Hin) as [t Ht]. rewrite Ht. simpl.
    specialize (Htrim pool t Hin Ht). lia. }
  assert (Hlogs' : Forall (λ e, is_reclaim e = false) (scale_down_logs trim_map pools)).
  { unfold scale_down_logs. apply Forall_fmap, Forall_forall. by intros pool _. }
  destruct (scale_pools_covered st1 shrunk dry_run false Hcov') as [Hidle Hbusy].
  change (agent_pools (self st1)) with pools in *.
  destruct (negb dry_run && any_change pools shrunk) eqn:Hgo.
  - destruct (Hbusy eq_refl) as (res & st' & op & evs & Hpass & Htrace & Hevs).
    rewrite (surjective_pairing (scale_pools shrunk dry_run false st1)) in Hpass.
    injection Hpass as Hres Hst'.
    exists (match res with Ok _ => Ok tt | Raise e => Raise e end), st',
           (scale_down_logs trim_map pools ++ first_loop_events dry_run pools shrunk
            ++ Deploy op (clamp_all pools shrunk) :: evs).
    split; [|split].
    + unfold bind. destruct (scale_pools shrunk dry_run false st1) as [r s].
      simpl in *. subst. by destruct res.
    + rewrite Htrace. simpl. by rewrite <- !app_assoc.
    + repeat (apply Forall_app; split; [done|]). by constructor.
  - rewrite (bind_ok _ _ _ _ _ (Hidle eq_refl)).
    eexists _, _, (scale_down_logs trim_map pools ++ first_loop_events dry_run pools shrunk).
    split; [reflexivity|]. split; [simpl; by rewrite <- !app_assoc|].
    by apply Forall_app.
Qed.

Lemma scale_down_never_reclaims_witness :
  NoDup (name <$> agent_pools (self sample_acs)) ∧
  ∃ res st' evs,
    scale_down {[ "poola" := 1; "poolb" := 0 ]} false sample_acs = (res, st') ∧
    trace st' = trace sample_acs ++ evs ∧
    Forall (λ e, is_reclaim e = false) evs.
Proof.
  assert (Hnd : NoDup (name <$> agent_pools (self sample_acs))) by compute_done.
  split; [exact Hnd|].
  apply (scale_down_never_reclaims sample_acs {[ "poola" := 1; "poolb" := 0 ]} false Hnd).
  intros pool t Hin Ht. simpl in Hin.
  repeat (apply elem_of_cons in Hin as [->|Hin]);
    [vm_compute in Ht; injection Ht as <-; lia..|by inversion Hin].
Defined.

(** X9: a scale-down that trims nothing, on pools that each hold at least
    one node and no more than their ceiling, returns after log lines only,
    dry run or not: no serialized call, no update, no redeploy. *)
Theorem scale_down_by_nothing_is_quiet
    (st : State) (trim_map : gmap string Z) (dry_run : bool) :
  NoDup (name <$> agent_pools (self st)) →
  (∀ pool, pool ∈ agent_pools (self st) →
     trim_map !! name pool = Some 0 ∧ 0 < actual_capacity pool <= max_size pool) →
  ∃ evs, scale_down trim_map dry_run st = (Ok tt, with_trace st evs) ∧
         Forall (λ e, is_log e = true) evs.
Proof.
  intros Hnd Hzero.
  set (pools := agent_pools (self st)) in *.
  assert (Hcov : covers trim_map pools).
  { intros pool Hin. destruct (Hzero pool Hin) as [-> _]. eauto. }
  assert (Hpos : ∀ pool t, pool ∈ pools → trim_map !! name pool = Some t →
                           0 < actual_capacity pool - t).
  { intros pool t Hin Ht. destruct (Hzero pool Hin) as [Ht' ?].
    rewrite Ht' in Ht. injection Ht as <-. lia. }
  set (shrunk := shrunk_sizes trim_map pools ∅).
  assert (Hlookup : ∀ pool, pool ∈ pools → shrunk !! name pool = Some (actual_capacity pool)).
  { intros pool Hin. unfold shrunk. rewrite shrunk_sizes_lookup by done.
    destruct (Hzero pool Hin) as [-> _]. simpl. f_equal. lia. }
  assert (Hcov' : covers shrunk pools) by (intros pool Hin; rewrite Hlookup by done; eauto).
  assert (Hsteady : ∀ pool, pool ∈ pools → target shrunk pool = actual_capacity pool).
  { intros pool Hin. unfold target. rewrite Hlookup by done. simpl.
    destruct (Hzero pool Hin) as [_ ?]. lia. }
  destruct (first_loop_all_at_capacity dry_run pools shrunk Hnd Hsteady) as [Hchg Hlog].
  exists (scale_down_logs trim_map pools ++ first_loop_events dry_run pools shrunk).
  split.
  - unfold scale_down. rewrite (bind_ok _ _ _ (self st) st) by reflexivity.
    rewrite (bind_ok _ _ _ _ _ (scale_down_loop_run _ _ ∅ st Hcov Hpos)).
    fold pools shrunk.
    destruct (scale_pools_covered (with_trace st (scale_down_logs trim_map pools))
                shrunk dry_run false Hcov') as [Hidle _].
    change (agent_pools (self (with_trace st (scale_down_logs trim_map pools))))
      with pools in Hidle.
    rewrite Hchg, andb_false_r in Hidle.
    rewrite (bind_ok _ _ _ _ _ (Hidle eq_refl)). by rewrite with_trace_app.
  - apply Forall_app. split; [|done].
    unfold scale_down_logs. apply Forall_fmap, Forall_forall. by intros pool _.
Qed.

Lemma scale_down_by_nothing_is_quiet_witness :
  NoDup (name <$> agent_pools (self sample_acs)) ∧
  ∃ evs, scale_down {[ "poola" := 0; "poolb" := 0 ]} false sample_acs
         = (Ok tt, with_trace sample_acs evs) ∧
         Forall (λ e, is_log e = true) evs.
Proof.
  assert (Hnd : NoDup (name <$> agent_pools (self sample_acs))) by compute_done.
  split; [exact Hnd|].
  apply (scale_down_by_nothing_is_quiet sample_acs {[ "poola" := 0; "poolb" := 0 ]} false Hnd).
  intros pool Hin. simpl in Hin.
  repeat (apply elem_of_cons in Hin as [->|Hin]);
    [split; [reflexivity|compute_done]..|by inversion Hin].
Defined.

(** ** Further properties: ceilings and the managed service *)

(** X10: on the acs-engine branch, outside a dry run, a pass that asks a
    pool holding more nodes than its [max_size] for [max_size] or more shrinks
    the pool, a scale-up included: when the pass is not a scale-up or the
    template preprocessing succeeds, it returns after one serialized redeploy
    that reaches the provider with [max_size], which is less than the pool's
    capacity, as the pool's [Count]; no [Offset] is written for the pool. *)
Theorem redeploy_shrinks_pool_above_ceiling
    (st : State) (sizes : gmap string Z) (is_scale_up : bool)
    (lp lt : loc) (ps : gmap string ParamValue) (t : Template)
    (pool : AgentPool) (candidate : Z) :
  is_acs_engine (self st) = true →
  engine_shape lp lt ps t st →
  NoDup (name <$> agent_pools (self st)) →
  covers sizes (agent_pools (self st)) →
  pool ∈ agent_pools (self st) →
  sizes !! name pool = Some candidate →
  max_size pool <= candidate →
  max_size pool < actual_capacity pool →
  is_scale_up = false ∨ (prepare_template t).1 = Ok tt →
  let pools := agent_pools (self st) in
  let sizes' := clamp_all pools sizes in
  let ps' := write_parameters is_scale_up sizes' pools ps in
  ∃ st' t',
    scale_pools sizes false is_scale_up st = (Ok sizes', st') ∧
    trace st' = trace st ++ first_loop_events false pools sizes
                         ++ [Deploy (OpDeployPools is_scale_up) sizes';
                             DeploymentsCreateOrUpdate (resource_group_name (self st))
                               "autoscaler-deployment" (Some t') (Some ps') "incremental"] ∧
    parameters st' !! lp = Some ps' ∧
    sizes' !! name pool = Some (max_size pool) ∧
    ps' !! (name pool +:+ "Count") = Some (IntValue (max_size pool)) ∧
    ps' !! (name pool +:+ "Offset") = ps !! (name pool +:+ "Offset").
Proof.
  intros Hengine Hshape Hnd Hcov Hin Hc Hask Hover Hprep pools sizes' ps'.
  assert (Htarget : target sizes pool = max_size pool)
    by (unfold target; rewrite Hc; simpl; lia).
  assert (Hoff : ∃ q, q ∈ agent_pools (self st) ∧ target sizes q ≠ actual_capacity q)
    by (exists pool; split; [done|lia]).
  destruct (engine_pass_run st sizes is_scale_up lp lt ps t Hengine Hshape Hnd Hcov Hoff)
    as (res & st' & sent & Hrun & Htrace & _ & Hparams & Hall & Hsent).
  destruct (Hsent Hprep) as (-> & t' & ->).
  destruct (Hall pool Hin) as (Hsize & Hcount & Hoffset).
  rewrite Htarget in Hsize, Hcount, Hoffset.
  assert (Hsteady : (actual_capacity pool <? max_size pool) = false) by lia.
  rewrite Hsteady, andb_false_r in Hoffset.
  by exists st', t'.
Qed.

Lemma redeploy_shrinks_pool_above_ceiling_witness :
  is_acs_engine (self crowded_engine) = true ∧
  engine_shape 1 0 {[ "location" := FileValue "westeurope" ]} sample_template
    crowded_engine ∧
  NoDup (name <$> agent_pools (self crowded_engine)) ∧
  covers ({[ "poola" := 4; "poolb" := 9 ]} : gmap string Z)
    (agent_pools (self crowded_engine)) ∧
  sample_pool "poola" 3 2 ∈ agent_pools (self crowded_engine) ∧
  max_size (sample_pool "poola" 3 2) <= 4 ∧
  max_size (sample_pool "poola" 3 2) < actual_capacity (sample_pool "poola" 3 2) ∧
  (prepare_template sample_template).1 = Ok tt ∧
  let pools := agent_pools (self crowded_engine) in
  let sizes' := clamp_all pools {[ "poola" := 4; "poolb" := 9 ]} in
  let ps' := write_parameters true sizes' pools {[ "location" := FileValue "westeurope" ]} in
  ∃ st' t',
    scale_pools {[ "poola" := 4; "poolb" := 9 ]} false true crowded_engine
    = (Ok sizes', st') ∧
    trace st' = trace crowded_engine
                ++ first_loop_events false pools {[ "poola" := 4; "poolb" := 9 ]}
                ++ [Deploy (OpDeployPools true) sizes';
                    DeploymentsCreateOrUpdate (resource_group_name (self crowded_engine))
                      "autoscaler-deployment" (Some t') (Some ps') "incremental"] ∧
    parameters st' !! 1%nat = Some ps' ∧
    sizes' !! name (sample_pool "poola" 3 2) = Some (max_size (sample_pool "poola" 3 2)) ∧
    ps' !! (name (sample_pool "poola" 3 2) +:+ "Count")
    = Some (IntValue (max_size (sample_pool "poola" 3 2))) ∧
    ps' !! (name (sample_pool "poola" 3 2) +:+ "Offset")
    = ({[ "location" := FileValue "westeurope" ]} : gmap string ParamValue)
        !! (name (sample_pool "poola" 3 2) +:+ "Offset").
Proof.
  assert (Hshape : engine_shape 1 0 {[ "location" := FileValue "westeurope" ]}
                     sample_template crowded_engine) by (by repeat split).
  assert (Hnd : NoDup (name <$> agent_pools (self crowded_engine))) by compute_done.
  assert (Hcov : covers ({[ "poola" := 4; "poolb" := 9 ]} : gmap string Z)
                   (agent_pools (self crowded_engine)))
    by (apply covers_Forall; compute_done).
  assert (Hin : sample_pool "poola" 3 2 ∈ agent_pools (self crowded_engine)) by left.
  assert (Hask : max_size (sample_pool "poola" 3 2) <= 4) by compute_done.
  assert (Hover : max_size (sample_pool "poola" 3 2)
                  < actual_capacity (sample_pool "poola" 3 2)) by compute_done.
  assert (Hprep : (prepare_template sample_template).1 = Ok tt) by reflexivity.
  split; [reflexivity|]. split; [exact Hshape|]. split; [exact Hnd|].
  split; [exact Hcov|]. split; [exact Hin|]. split; [exact Hask|].
  split; [exact Hover|]. split; [exact Hprep|].
  exact (redeploy_shrinks_pool_above_ceiling crowded_engine {[ "poola" := 4; "poolb" := 9 ]}
           true 1%nat 0%nat _ _ (sample_pool "poola" 3 2) 4
           eq_refl Hshape Hnd Hcov Hin eq_refl Hask Hover (or_intror Hprep)).
Defined.

Lemma after_resize_absorbs pn others n pools (sizes : gmap string Z) : ∀ s,
  after_resize pn others n
    (foldl (λ s pool, after_resize pn others (default 0 (sizes !! name pool)) s) s pools)
  = after_resize pn others n s.
Proof. induction pools as [|p rest IH]; intros s; [done|]. simpl. by rewrite IH. Qed.

(** The object the resize loop leaves behind. *)
Lemma resize_loop_state rg cs pn others sizes pools : ∀ st,
  acs_shape rg cs pn others (self st) →
  covers sizes pools →
  resize_loop pools sizes st
  = (Ok tt,
     {| self := foldl (λ s pool, after_resize pn others (default 0 (sizes !! name pool)) s)
                  (self st) pools;
        templates := templates st; parameters := parameters st;
        trace := trace st ++ resize_events rg cs pn others sizes pools |}).
Proof.
  induction pools as [|pool rest IH]; intros st Hshape Hcov.
  - simpl. rewrite app_nil_r. by destruct st.
  - apply covers_cons in Hcov as [[n Hn] Hrest].
    cbn [resize_loop]. unfold deploy.
    rewrite bind_bind, (bind_ok _ _ _ _ _ (emit_with_trace _ _)). cbv beta.
    rewrite bind_bind, (bind_ok _ _ _ _ _ (getitem_some _ _ _ _ Hn)). cbv beta.
    rewrite (bind_ok _ _ _ _ _
               (set_desired_run rg cs pn others n (with_trace st _) Hshape)).
    rewrite IH; [|by apply after_resize_shape|done].
    simpl. unfold resize_event. rewrite Hn. simpl. by rewrite <- !app_assoc.
Qed.

(** X11: on the managed branch every resize writes the same first agent
    pool profile, so after a pass over several pools the service holds the
    target of the pool listed last: its count, and the recorded desired
    capacity, are that pool's clamped size, whatever the other pools asked
    for; the service principal is nulled and the other profiles are kept. *)
Theorem fixed_topology_last_pool_wins
    (st : State) (sizes : gmap string Z) (is_scale_up : bool)
    (rg cs pn : string) (others : list AgentPoolProfile)
    (front : list AgentPool) (last_pool : AgentPool) :
  is_acs_engine (self st) = false →
  acs_shape rg cs pn others (self st) →
  agent_pools (self st) = front ++ [last_pool] →
  NoDup (name <$> agent_pools (self st)) →
  covers sizes (agent_pools (self st)) →
  (∃ pool, pool ∈ agent_pools (self st) ∧ target sizes pool ≠ actual_capacity pool) →
  ∃ sizes' st',
    scale_pools sizes false is_scale_up st = (Ok sizes', st') ∧
    instance (self st')
    = Some {| agent_pool_profiles :=
                {| profile_name := pn; count := target sizes last_pool |} :: others;
              service_principal_profile := None |} ∧
    desired_agent_pool_capacity (self st') = Some (target sizes last_pool).
Proof.
  intros Hacs Hshape Hpools Hnd Hcov Hoff.
  set (pools := agent_pools (self st)) in *.
  set (sizes' := clamp_all pools sizes).
  assert (Hsizes : ∀ pool, pool ∈ pools → sizes' !! name pool = Some (target sizes pool))
    by (intros pool Hin; by apply clamp_all_lookup).
  assert (Hcov' : covers sizes' pools) by (intros pool Hin; rewrite Hsizes; eauto).
  pose proof (resize_loop_state rg cs pn others sizes' pools
                (with_trace st (first_loop_events false pools sizes)) Hshape Hcov')
    as Hloop.
  eexists sizes', _. split.
  - unfold scale_pools. rewrite (bind_ok _ _ _ (self st) st) by reflexivity.
    rewrite (bind_ok _ _ _ _ _ (scale_pools_loop_run _ _ _ _ _ Hcov)).
    fold pools. rewrite (any_change_true pools sizes Hnd Hoff), Hacs.
    simpl negb. simpl andb. cbv iota. fold sizes'.
    rewrite (bind_ok _ _ _ _ _ Hloop). reflexivity.
  - simpl self. rewrite Hpools, foldl_app. simpl foldl.
    rewrite after_resize_absorbs.
    assert (Hlast : sizes' !! name last_pool = Some (target sizes last_pool)).
    { apply Hsizes. rewrite Hpools. apply elem_of_app. right. left. }
    rewrite Hlast. by split.
Qed.

Lemma fixed_topology_last_pool_wins_witness :
  is_acs_engine (self sample_acs) = false ∧
  acs_shape "rg" "cs" "agentpool" [] (self sample_acs) ∧
  agent_pools (self sample_acs) = [sample_pool "poola" 3 5] ++ [sample_pool "poolb" 2 5] ∧
  NoDup (name <$> agent_pools (self sample_acs)) ∧
  covers sample_sizes (agent_pools (self sample_acs)) ∧
  ∃ sizes' st',
    scale_pools sample_sizes false true sample_acs = (Ok sizes', st') ∧
    instance (self st')
    = Some {| agent_pool_profiles := [{| profile_name := "agentpool"; count := 2 |}];
              service_principal_profile := None |} ∧
    desired_agent_pool_capacity (self st') = Some 2.
Proof.
  assert (Hshape : acs_shape "rg" "cs" "agentpool" [] (self sample_acs)).
  { repeat split. eexists _, _. reflexivity. }
  assert (Hnd : NoDup (name <$> agent_pools (self sample_acs))) by compute_done.
  assert (Hcov : covers sample_sizes (agent_pools (self sample_acs)))
    by (apply covers_Forall; compute_done).
  assert (Hoff : ∃ pool, pool ∈ agent_pools (self sample_acs) ∧
                         target sample_sizes pool ≠ actual_capacity pool).
  { exists (sample_pool "poola" 3 5). split; [left|compute_done]. }
  split; [reflexivity|]. split; [exact Hshape|]. split; [reflexivity|].
  split; [exact Hnd|]. split; [exact Hcov|].
  exact (fixed_topology_last_pool_wins sample_acs sample_sizes true "rg" "cs" "agentpool" []
           [sample_pool "poola" 3 5] (sample_pool "poolb" 2 5)
           eq_refl Hshape eq_refl Hnd Hcov Hoff).
Defined.

(** X12: on the managed branch, when the instance lists no agent pool
    profile, a pass that has something to change makes its first serialized
    call and raises [IndexError] out of it: nothing reaches the provider and
    the object is as it was. *)
Theorem resize_without_profile_raises
    (st : State) (sizes : gmap string Z) (is_scale_up : bool)
    (inst : Instance) (first : AgentPool) (rest : list AgentPool) :
  is_acs_engine (self st) = false →
  instance (self st) = Some inst →
  agent_pool_profiles inst = [] →
  agent_pools (self st) = first :: rest →
  NoDup (name <$> agent_pools (self st)) →
  covers sizes (agent_pools (self st)) →
  (∃ pool, pool ∈ agent_pools (self st) ∧ target sizes pool ≠ actual_capacity pool) →
  scale_pools sizes false is_scale_up st
  = (Raise IndexError,
     with_trace st
       (first_loop_events false (agent_pools (self st)) sizes
        ++ [Deploy (OpSetDesiredCapacity (name first))
              (clamp_all (agent_pools (self st)) sizes)])).
Proof.
  intros Hacs Hinst Hprofiles Hpools Hnd Hcov Hoff.
  unfold scale_pools. rewrite (bind_ok _ _ _ (self st) st) by reflexivity.
  rewrite (bind_ok _ _ _ _ _ (scale_pools_loop_run _ _ _ _ _ Hcov)).
  rewrite (any_change_true _ sizes Hnd Hoff), Hacs.
  simpl negb. simpl andb. cbv iota.
  assert (Hn : is_Some (clamp_all (agent_pools (self st)) sizes !! name first)).
  { rewrite clamp_all_lookup; [eauto|done|rewrite Hpools; left]. }
  destruct Hn as [n Hn].
  set (sizes' := clamp_all (agent_pools (self st)) sizes) in *.
  set (logged := first_loop_events false (agent_pools (self st)) sizes).
  rewrite Hpools. cbn [resize_loop]. unfold deploy.
  rewrite !bind_bind, (bind_ok _ _ _ _ _ (emit_with_trace _ _)). cbv beta.
  rewrite !bind_bind, (bind_ok _ _ _ _ _ (getitem_some _ _ _ _ Hn)). cbv beta.
  rewrite with_trace_app.
  assert (Hraise : set_desired_acs_agent_pool_capacity n
                     (with_trace st (logged ++ [Deploy (OpSetDesiredCapacity (name first)) sizes']))
                   = (Raise IndexError,
                      with_trace st (logged ++ [Deploy (OpSetDesiredCapacity (name first)) sizes']))).
  { unfold set_desired_acs_agent_pool_capacity, bind, get_self, with_trace.
    cbn [self]. by rewrite Hinst, Hprofiles. }
  by rewrite (bind_raise _ _ _ _ _ Hraise).
Qed.

Lemma resize_without_profile_raises_witness :
  is_acs_engine (self bare_acs) = false ∧
  NoDup (name <$> agent_pools (self bare_acs)) ∧
  covers sample_sizes (agent_pools (self bare_acs)) ∧
  scale_pools sample_sizes false true bare_acs
  = (Raise IndexError,
     with_trace bare_acs
       (first_loop_events false (agent_pools (self bare_acs)) sample_sizes
        ++ [Deploy (OpSetDesiredCapacity (name (sample_pool "poola" 3 5)))
              (clamp_all (agent_pools (self bare_acs)) sample_sizes)])).
Proof.
  assert (Hnd : NoDup (name <$> agent_pools (self bare_acs))) by compute_done.
  assert (Hcov : covers sample_sizes (agent_pools (self bare_acs)))
    by (apply covers_Forall; compute_done).
  assert (Hoff : ∃ pool, pool ∈ agent_pools (self bare_acs) ∧
                         target sample_sizes pool ≠ actual_capacity pool).
  { exists (sample_pool "poola" 3 5). split; [left|compute_done]. }
  split; [reflexivity|]. split; [exact Hnd|]. split; [exact Hcov|].
  exact (resize_without_profile_raises bare_acs sample_sizes true _
           (sample_pool "poola" 3 5) [sample_pool "poolb" 2 5]
           eq_refl eq_refl eq_refl eq_refl Hnd Hcov Hoff).
Defined.

(** ** Further properties: the template mutator *)

Lemma pop_nsg_dependency_keeps_others deps :
  filter (λ d, d ≠ nsg_dependency) (pop_nsg_dependency deps)
  = filter (λ d, d ≠ nsg_dependency) deps.
Proof.
  induction deps as [|d deps IH]; [done|]. cbn [pop_nsg_dependency].
  destruct (String.eqb d nsg_dependency) eqn:Hd.
  - apply String.eqb_eq in Hd. by rewrite (filter_cons_False _ d) by (intros Hne; by apply Hne).
  - apply String.eqb_neq in Hd. by rewrite !(filter_cons_True _ d), IH by done.
Qed.

Lemma pop_nsg_dependency_length deps :
  nsg_dependency ∈ deps → (length (pop_nsg_dependency deps) + 1 = length deps)%nat.
Proof.
  induction deps as [|d deps IH]; intros Hin; [by inversion Hin|].
  cbn [pop_nsg_dependency]. destruct (String.eqb d nsg_dependency) eqn:Hd; simpl; [lia|].
  apply String.eqb_neq in Hd. apply elem_of_cons in Hin as [Heq|Hin]; [by symmetry in Heq|].
  rewrite <- (IH Hin). lia.
Qed.

(** X13: the inner loop of the template mutator removes one edge to the
    security group at most, the first one: the other edges stay, in order; a
    list that holds the edge gets one element shorter, so a second edge to
    the security group survives; a list without the edge is unchanged. *)
Theorem pop_nsg_dependency_removes_first_edge_only (deps : list string) :
  filter (λ d, d ≠ nsg_dependency) (pop_nsg_dependency deps)
  = filter (λ d, d ≠ nsg_dependency) deps ∧
  (nsg_dependency ∈ deps → (length (pop_nsg_dependency deps) + 1 = length deps)%nat) ∧
  (nsg_dependency ∉ deps → pop_nsg_dependency deps = deps) ∧
  (∀ front rest, deps = front ++ nsg_dependency :: rest → nsg_dependency ∉ front →
                 pop_nsg_dependency deps = front ++ rest).
Proof.
  split; [apply pop_nsg_dependency_keeps_others|].
  split; [apply pop_nsg_dependency_length|].
  split; [apply pop_nsg_dependency_absent|].
  intros front rest -> Hfront. by apply pop_nsg_dependency_first.
Qed.

Lemma pop_nsg_dependency_removes_first_edge_only_witness :
  nsg_dependency ∈ ["routeTable"; nsg_dependency; "subnet"; nsg_dependency] ∧
  (nsg_dependency ∉ ["routeTable"]) ∧
  (length (pop_nsg_dependency ["routeTable"; nsg_dependency; "subnet"; nsg_dependency]) + 1
   = length ["routeTable"; nsg_dependency; "subnet"; nsg_dependency])%nat ∧
  pop_nsg_dependency ["routeTable"; nsg_dependency; "subnet"; nsg_dependency]
  = ["routeTable"] ++ ["subnet"; nsg_dependency] ∧
  pop_nsg_dependency ["routeTable"] = ["routeTable"].
Proof.
  assert (Hin : nsg_dependency ∈ ["routeTable"; nsg_dependency; "subnet"; nsg_dependency])
    by compute_done.
  assert (Hnotin : nsg_dependency ∉ ["routeTable"]) by compute_done.
  split; [exact Hin|]. split; [exact Hnotin|].
  destruct (pop_nsg_dependency_removes_first_edge_only
              ["routeTable"; nsg_dependency; "subnet"; nsg_dependency])
    as (_ & Hlength & _ & Hfirst).
  split; [exact (Hlength Hin)|].
  split; [exact (Hfirst ["routeTable"] ["subnet"; nsg_dependency] eq_refl Hnotin)|].
  exact (proj1 (proj2 (proj2 (pop_nsg_dependency_removes_first_edge_only ["routeTable"])))
           Hnotin).
Defined.

Lemma strip_nsg_dependency_identity r : identity (strip_nsg_dependency r) = identity r.
Proof. unfold strip_nsg_dependency. by destruct (String.eqb _ _). Qed.

Lemma scan_resources_identity rs : ∀ i nsg_resource_index,
  identity <$> (scan_resources rs i nsg_resource_index).2 = identity <$> rs.
Proof.
  induction rs as [|r rest IH]; intros i n; [done|].
  cbn [scan_resources].
  destruct (String.eqb (rtype r) vnet_type).
  - destruct (dependsOn r); [|done].
    specialize (IH (i + 1) (if String.eqb (rtype r) nsg_type then i else n)).
    destruct (scan_resources rest _ _) as [res rs']. cbn [snd] in *.
    by rewrite !fmap_cons, IH.
  - specialize (IH (i + 1) (if String.eqb (rtype r) nsg_type then i else n)).
    destruct (scan_resources rest _ _) as [res rs']. cbn [snd] in *.
    by rewrite !fmap_cons, IH.
Qed.

Lemma list_pop_delete {A} (l l' : list A) i :
  list_pop l i = Some l' → ∃ k, (k < length l)%nat ∧ l' = delete k l.
Proof.
  unfold list_pop. intros Hpop.
  destruct ((0 <=? _) && _) eqn:Hrange; [|discriminate].
  apply andb_true_iff in Hrange as [Hlo Hhi].
  apply Z.leb_le in Hlo. apply Z.ltb_lt in Hhi. injection Hpop as <-.
  eexists. split; [|reflexivity]. lia.
Qed.

(** X14: the template mutator never adds, renames, retypes or reorders a
    resource.  When it returns, the resources left are those of the input,
    by type and name and in order, without exactly one of them; when it
    raises, all of them are still there. *)
Theorem prepare_template_keeps_other_resources (t : Template) :
  match prepare_template t with
  | (Ok _, t') =>
    ∃ k, (k < length (resources t))%nat ∧
         identity <$> resources t' = delete k (identity <$> resources t)
  | (Raise _, t') => identity <$> resources t' = identity <$> resources t
  end.
Proof.
  unfold prepare_template.
  pose proof (scan_resources_identity (resources t) 0 (-1)) as Hid.
  pose proof (scan_resources_length (resources t) 0 (-1)) as Hlen.
  destruct (scan_resources (resources t) 0 (-1)) as [[k|e] rs]; simpl in *; [|done].
  destruct (list_pop rs k) as [rs'|] eqn:Hpop; simpl; [|done].
  destruct (list_pop_delete _ _ _ Hpop) as (k' & Hk' & ->).
  exists k'. split; [lia|]. by rewrite list_fmap_delete, Hid.
Qed.

Lemma strip_nsg_dependency_vnet r deps :
  rtype r = vnet_type → dependsOn r = Some deps →
  strip_nsg_dependency r
  = {| rtype := rtype r; rname := rname r; dependsOn := Some (pop_nsg_dependency deps) |}.
Proof.
  intros Htype Hdeps. unfold strip_nsg_dependency.
  by rewrite Htype, String.eqb_refl, Hdeps.
Qed.

Lemma strip_nsg_dependency_other r : rtype r ≠ vnet_type → strip_nsg_dependency r = r.
Proof.
  intros Htype%String.eqb_neq. unfold strip_nsg_dependency. by rewrite Htype.
Qed.

Lemma scan_resources_app front : ∀ rest i nsg_resource_index,
  Forall readable front →
  scan_resources (front ++ rest) i nsg_resource_index
  = let '(res, rest') :=
      scan_resources rest (i + Z.of_nat (length front))
        (last_nsg_index front i nsg_resource_index) in
    (res, (strip_nsg_dependency <$> front) ++ rest').
Proof.
  induction front as [|r front IH]; intros rest i n Hread.
  - simpl. rewrite Z.add_0_r. by destruct (scan_resources rest i n).
  - apply Forall_cons in Hread as [Hr Hfront].
    cbn [app scan_resources last_nsg_index length]. rewrite fmap_cons.
    rewrite IH by done.
    replace (i + 1 + Z.of_nat (length front)) with (i + Z.of_nat (S (length front))) by lia.
    destruct (String.eqb (rtype r) vnet_type) eqn:Hvnet.
    + apply String.eqb_eq in Hvnet. destruct (Hr Hvnet) as [deps Hdeps].
      rewrite Hdeps, (strip_nsg_dependency_vnet r deps) by done.
      by destruct (scan_resources rest _ _).
    + apply String.eqb_neq in Hvnet. rewrite strip_nsg_dependency_other by done.
      by destruct (scan_resources rest _ _).
Qed.

(** X15: a virtual network without ['dependsOn'] makes the mutator raise
    [KeyError] when the loop reaches it: the virtual networks listed before
    it have already lost their edge to the security group, and no resource
    has been removed, the security group included. *)
Theorem prepare_template_bare_vnet_raises
    (t : Template) (front : list Resource) (vnet : Resource) (rest : list Resource) :
  resources t = front ++ vnet :: rest →
  Forall readable front →
  rtype vnet = vnet_type →
  dependsOn vnet = None →
  prepare_template t
  = (Raise (KeyError "dependsOn"),
     {| resources := (strip_nsg_dependency <$> front) ++ vnet :: rest |}).
Proof.
  intros Hres Hfront Htype Hdeps. unfold prepare_template.
  rewrite Hres, scan_resources_app by done.
  cbn [scan_resources]. rewrite Htype, String.eqb_refl, Hdeps. reflexivity.
Qed.

Lemma prepare_template_bare_vnet_raises_witness :
  Forall readable (take 2 (resources template_with_bare_vnet)) ∧
  prepare_template template_with_bare_vnet
  = (Raise (KeyError "dependsOn"),
     {| resources :=
          [ {| rtype := vnet_type; rname := "vnet-a";
               dependsOn := Some ["routeTable"; nsg_dependency] |};
            {| rtype := nsg_type; rname := "nsg"; dependsOn := None |};
            {| rtype := vnet_type; rname := "vnet-b"; dependsOn := None |};
            {| rtype := "Microsoft.Compute/virtualMachines"; rname := "vm";
               dependsOn := Some ["nic"] |} ] |}).
Proof.
  assert (Hread : Forall readable (take 2 (resources template_with_bare_vnet))).
  { repeat constructor; intros Hvnet; try discriminate. simpl. eauto. }
  split; [exact Hread|].
  exact (prepare_template_bare_vnet_raises template_with_bare_vnet
           (take 2 (resources template_with_bare_vnet))
           {| rtype := vnet_type; rname := "vnet-b"; dependsOn := None |}
           (drop 3 (resources template_with_bare_vnet))
           eq_refl Hread eq_refl eq_refl).
Defined.

(** X16: on a template whose resources can all be read, the mutator removes
    the security group listed last (an earlier one stays) and nothing else;
    every virtual network loses its first edge to the security group and
    every other resource is left as it is. *)
Theorem prepare_template_removes_last_security_group
    (t : Template) (front : list Resource) (nsg : Resource) (rest : list Resource) :
  resources t = front ++ nsg :: rest →
  rtype nsg = nsg_type →
  Forall (λ r, rtype r ≠ nsg_type) rest →
  Forall readable (resources t) →
  prepare_template t
  = (Ok tt, {| resources := strip_nsg_dependency <$> (front ++ rest) |}) ∧
  (∀ r, rtype r ≠ vnet_type → strip_nsg_dependency r = r) ∧
  (∀ r deps, rtype r = vnet_type → dependsOn r = Some deps →
     strip_nsg_dependency r
     = {| rtype := rtype r; rname := rname r;
          dependsOn := Some (pop_nsg_dependency deps) |}).
Proof.
  intros Hres Hnsg Hrest Hread.
  split; [by apply (prepare_template_removes_nsg t front nsg rest)|].
  split; [apply strip_nsg_dependency_other|apply strip_nsg_dependency_vnet].
Qed.

Lemma prepare_template_removes_last_security_group_witness :
  Forall readable (resources sample_template) ∧
  prepare_template sample_template
  = (Ok tt,
     {| resources :=
          [ {| rtype := vnet_type; rname := "vnet"; dependsOn := Some ["routeTable"] |};
            {| rtype := "Microsoft.Compute/virtualMachines"; rname := "vm";
               dependsOn := Some ["nic"] |} ] |}).
Proof.
  assert (Hread : Forall readable (resources sample_template)).
  { repeat constructor; intros Hvnet; try discriminate; simpl; eauto. }
  split; [exact Hread|].
  exact (proj1 (prepare_template_removes_last_security_group sample_template []
                  {| rtype := nsg_type; rname := "nsg"; dependsOn := None |}
                  (drop 1 (resources sample_template)) eq_refl eq_refl
                  ltac:(repeat constructor; discriminate) Hread)).
Defined.

(** ** Further properties: redeploys *)

(** X17: when the template preprocessing of a scale-up raises, the pass
    raises the same exception after its one serialized call; the provider is
    never asked to redeploy, yet the stored parameters already carry the
    written [Count]/[Offset] entries and the stored template is as the
    failed preprocessing left it. *)
Theorem failed_preprocessing_leaves_written_parameters
    (st : State) (sizes : gmap string Z)
    (lp lt : loc) (ps : gmap string ParamValue) (t t' : Template) (e : Exn) :
  is_acs_engine (self st) = true →
  engine_shape lp lt ps t st →
  NoDup (name <$> agent_pools (self st)) →
  covers sizes (agent_pools (self st)) →
  (∃ pool, pool ∈ agent_pools (self st) ∧ target sizes pool ≠ actual_capacity pool) →
  prepare_template t = (Raise e, t') →
  let pools := agent_pools (self st) in
  let sizes' := clamp_all pools sizes in
  scale_pools sizes false true st
  = (Raise e,
     {| self := self st;
        templates := <[lt := t']> (templates st);
        parameters := <[lp := write_parameters true sizes' pools ps]> (parameters st);
        trace := trace st ++ first_loop_events false pools sizes
                          ++ [Deploy (OpDeployPools true) sizes'] |}).
Proof.
  intros Hengine Hshape Hnd Hcov Hoff Hprep pools sizes'.
  assert (Hcov' : covers sizes' pools).
  { intros pool Hin. unfold sizes'. rewrite clamp_all_lookup by done. eauto. }
  set (st1 := with_trace st (first_loop_events false pools sizes
                             ++ [Deploy (OpDeployPools true) sizes'])).
  pose proof (deploy_pools_run true sizes' lp lt ps t st1 Hshape Hcov') as Hdeploy.
  unfold deploy_pools_outcome in Hdeploy. rewrite Hprep in Hdeploy.
  unfold scale_pools. rewrite (bind_ok _ _ _ (self st) st) by reflexivity.
  rewrite (bind_ok _ _ _ _ _ (scale_pools_loop_run _ _ _ _ _ Hcov)).
  fold pools. rewrite (any_change_true pools sizes Hnd Hoff), Hengine.
  simpl negb. simpl andb. cbv iota. fold sizes'.
  unfold deploy. rewrite !bind_bind.
  rewrite (bind_ok _ _ _ _ _ (emit_with_trace _ _)). cbv beta.
  rewrite with_trace_app. fold st1.
  rewrite (bind_raise _ _ _ _ _ Hdeploy). simpl. by rewrite app_nil_r.
Qed.

Lemma failed_preprocessing_leaves_written_parameters_witness :
  is_acs_engine (self sample_engine) = true ∧
  prepare_template template_with_bare_vnet
  = (Raise (KeyError "dependsOn"), (prepare_template template_with_bare_vnet).2) ∧
  ∃ st',
    scale_pools sample_sizes false true
      {| self := self sample_engine;
         templates := {[ 0%nat := template_with_bare_vnet ]};
         parameters := parameters sample_engine; trace := [] |}
    = (Raise (KeyError "dependsOn"), st') ∧
    parameters st' !! 1%nat
    = Some (write_parameters true (clamp_all sample_pools sample_sizes) sample_pools
              {[ "location" := FileValue "westeurope" ]}).
Proof.
  split; [reflexivity|]. split; [reflexivity|].
  eexists. split.
  - apply (failed_preprocessing_leaves_written_parameters
             {| self := self sample_engine;
                templates := {[ 0%nat := template_with_bare_vnet ]};
                parameters := parameters sample_engine; trace := [] |}
             sample_sizes 1%nat 0%nat {[ "location" := FileValue "westeurope" ]}
             template_with_bare_vnet (prepare_template template_with_bare_vnet).2
             (KeyError "dependsOn")).
    + reflexivity.
    + by repeat split.
    + compute_done.
    + apply covers_Forall. compute_done.
    + exists (sample_pool "poola" 3 5). split; [left|compute_done].
    + reflexivity.
  - simpl. by rewrite lookup_insert_eq.
Defined.

Lemma write_parameters_scale_down_other sizes (pools : list AgentPool) : ∀ ps key,
  (∀ pool, pool ∈ pools → key ≠ name pool +:+ "Count") →
  write_parameters false sizes pools ps !! key = ps !! key.
Proof.
  induction pools as [|p rest IH]; intros ps key Hother; simpl; [done|].
  rewrite IH by (intros q Hq; apply Hother; by right).
  unfold write_pool. simpl. rewrite lookup_insert_ne; [done|].
  apply not_eq_sym, Hother. left.
Qed.

(** X18: a redeploy that is not a scale-up leaves the stored template alone
    and sends it as it is; in the stored parameters it writes the [Count] of
    every pool and nothing else: no [Offset], and every other entry, an
    [Offset] left by an earlier scale-up included, stays as it was. *)
Theorem scale_down_redeploy_writes_counts_only
    (st : State) (sizes : gmap string Z)
    (lp lt : loc) (ps : gmap string ParamValue) (t : Template) :
  engine_shape lp lt ps t st →
  NoDup (name <$> agent_pools (self st)) →
  covers sizes (agent_pools (self st)) →
  let pools := agent_pools (self st) in
  let ps' := write_parameters false sizes pools ps in
  deploy_pools sizes false st
  = (Ok tt,
     {| self := self st; templates := templates st;
        parameters := <[lp := ps']> (parameters st);
        trace := trace st ++ [DeploymentsCreateOrUpdate (resource_group_name (self st))
                                "autoscaler-deployment" (Some t) (Some ps') "incremental"] |}) ∧
  (∀ pool c, pool ∈ pools → sizes !! name pool = Some c →
             ps' !! (name pool +:+ "Count") = Some (IntValue c)) ∧
  (∀ key, (∀ pool, pool ∈ pools → key ≠ name pool +:+ "Count") → ps' !! key = ps !! key).
Proof.
  intros Hshape Hnd Hcov pools ps'. split; [|split].
  - by rewrite (deploy_pools_run false sizes lp lt ps t st Hshape Hcov).
  - intros pool c Hin Hc. unfold ps'. rewrite write_parameters_count by done. by rewrite Hc.
  - intros key Hkey. by apply write_parameters_scale_down_other.
Qed.

Lemma scale_down_redeploy_writes_counts_only_witness :
  engine_shape 1 0 {[ "location" := FileValue "westeurope" ]} sample_template sample_engine ∧
  NoDup (name <$> agent_pools (self sample_engine)) ∧
  covers steady_sizes (agent_pools (self sample_engine)) ∧
  write_parameters false steady_sizes sample_pools {[ "location" := FileValue "westeurope" ]}
    !! (name (sample_pool "poola" 3 5) +:+ "Count") = Some (IntValue 3).
Proof.
  assert (Hshape : engine_shape 1 0 {[ "location" := FileValue "westeurope" ]}
                     sample_template sample_engine) by (by repeat split).
  assert (Hnd : NoDup (name <$> agent_pools (self sample_engine))) by compute_done.
  assert (Hcov : covers steady_sizes (agent_pools (self sample_engine)))
    by (apply covers_Forall; compute_done).
  split; [exact Hshape|]. split; [exact Hnd|]. split; [exact Hcov|].
  destruct (scale_down_redeploy_writes_counts_only sample_engine steady_sizes 1%nat 0%nat
              _ _ Hshape Hnd Hcov) as (_ & Hcount & _).
  exact (Hcount (sample_pool "poola" 3 5) 3 ltac:(left) eq_refl).
Defined.

(** ** Further properties: node teardown *)

(** X19: as the module stands, [delete_node] never tears anything down: for
    every pool and node it hands the snapshot to the serializer, logs the
    node's name and raises [NameError] at the lookup of
    [ComputeManagementClient], before the first call to the provider. *)
Theorem delete_node_raises_name_error
    (provider : Provider) (st : State) (pool : AgentPool) (node : Node) :
  let owner := default pool (last (agent_pools (self st))) in
  delete_node provider pool node st
  = (Raise (NameError "ComputeManagementClient"),
     with_trace st
       [ Deploy (OpDeleteResourcesForNode (node_name node))
           (<[name owner := actual_capacity owner - 1]>
              (capacities (agent_pools (self st)) ∅));
         LogInfo ("deleting node " +:+ node_name node) ]).
Proof.
  intros owner. unfold delete_node, delete_node_in.
  rewrite (bind_ok _ _ _ (self st) st) by reflexivity. cbv beta.
  rewrite delete_node_loop_run. fold owner. unfold deploy.
  rewrite (bind_ok _ _ _ _ _ (emit_with_trace _ _)). cbv beta.
  pose proof (delete_resources_for_node_name_error provider node) as Hraise.
  unfold delete_resources_for_node in Hraise. rewrite Hraise.
  by rewrite with_trace_app.
Qed.

Lemma bind_emit {B} e (k : unit → M B) st :
  bind (emit e) k st = k tt (with_trace st [e]).
Proof. reflexivity. Qed.

Lemma bind_get_self {B} (k : ContainerService → M B) st :
  bind get_self k st = k (self st) st.
Proof. reflexivity. Qed.

Lemma bind_global_name {B} globals ident (k : unit → M B) st :
  ident ∈ globals → bind (global_name globals ident) k st = k tt st.
Proof. intros Hin. by rewrite (bind_ok _ _ _ _ _ (global_name_bound _ _ _ Hin)). Qed.

Lemma bind_getindex_some {A B} (l : list A) i v (k : A → M B) st :
  l !! i = Some v → bind (getindex l i) k st = k v st.
Proof. intros Hv. unfold bind, getindex. by rewrite Hv. Qed.

Lemma bind_getindex_none {A B} (l : list A) i (k : A → M B) st :
  l !! i = None → bind (getindex l i) k st = (Raise IndexError, st).
Proof. intros Hv. unfold bind, getindex. by rewrite Hv. Qed.

(** The names [delete_resources_for_node] reads are bound. *)
Lemma teardown_names_bound globals :
  module_globals ⊆ globals → "ComputeManagementClient" ∈ globals →
  "get_mgmt_service_client" ∈ globals ∧ "ResourceManagementClient" ∈ globals ∧
  "ComputeManagementClient" ∈ globals ∧ "StorageManagementClient" ∈ globals ∧
  "BlockBlobService" ∈ globals.
Proof.
  intros Hsub Hcompute. repeat split; [apply Hsub..|done|apply Hsub|apply Hsub]; compute_done.
Qed.

(** Teardown up to the reading of the instance metadata. *)
Lemma teardown_prologue provider globals node st :
  module_globals ⊆ globals → "ComputeManagementClient" ∈ globals →
  ∃ k : M unit,
    delete_resources_for_node_in provider globals node st
    = k (with_trace st [ LogInfo ("deleting node " +:+ node_name node);
                         VirtualMachinesGet (resource_group_name (self st)) (node_name node) ]) ∧
    k = (let rg := resource_group_name (self st) in
         let storage_infos := split "/" (vhd_uri provider rg (node_name node)) in
         let* host := getindex storage_infos 2 in
         let* account_name := getindex (split "." host) 0 in
         let* container_name := getindex storage_infos 3 in
         let* blob_name := getindex storage_infos 4 in
         logger_info "Deleting VM" ;;;
         emit (ResourcesDelete rg "Microsoft.Compute" EmptyString "virtualMachines"
                 (node_name node) "2016-03-30") ;;;
         emit (OperationWait (node_name node)) ;;;
         logger_info "Deleting NIC" ;;;
         let name_parts := split "-" (node_name node) in
         let* p0 := getindex name_parts 0 in
         let* p1 := getindex name_parts 1 in
         let* p2 := getindex name_parts 2 in
         let* p3 := getindex name_parts 3 in
         let nic_name := p0 +:+ "-" +:+ p1 +:+ "-" +:+ p2 +:+ "-nic-" +:+ p3 in
         emit (ResourcesDelete rg "Microsoft.Network" EmptyString "networkInterfaces"
                 nic_name "2016-03-30") ;;;
         emit (OperationWait nic_name) ;;;
         logger_info "Deleting OS disk" ;;;
         emit (StorageListKeys rg account_name) ;;;
         let* key := getindex (storage_keys provider rg account_name) 0 in
         global_name globals "BlockBlobService" ;;;
         emit (DeleteBlob account_name key container_name blob_name)).
Proof.
  intros Hsub Hcompute.
  destruct (teardown_names_bound globals Hsub Hcompute) as (? & ? & ? & ? & ?).
  eexists. split; [|reflexivity].
  unfold delete_resources_for_node_in, logger_info.
  rewrite bind_emit, bind_get_self. cbv beta zeta.
  rewrite !bind_global_name by done.
  by rewrite bind_emit, with_trace_app.
Qed.

(** Teardown when nothing fails. *)
Lemma teardown_run
    (provider : Provider) (globals : list string) (st : State) (node : Node)
    (scheme empty host container blob account key p0 p1 p2 p3 : string)
    (more domain keys extra : list string) :
  module_globals ⊆ globals →
  "ComputeManagementClient" ∈ globals →
  split "/" (vhd_uri provider (resource_group_name (self st)) (node_name node))
  = scheme :: empty :: host :: container :: blob :: more →
  split "." host = account :: domain →
  storage_keys provider (resource_group_name (self st)) account = key :: keys →
  split "-" (node_name node) = p0 :: p1 :: p2 :: p3 :: extra →
  let rg := resource_group_name (self st) in
  let nic_name := p0 +:+ "-" +:+ p1 +:+ "-" +:+ p2 +:+ "-nic-" +:+ p3 in
  delete_resources_for_node_in provider globals node st
  = (Ok tt,
     with_trace st
       [ LogInfo ("deleting node " +:+ node_name node);
         VirtualMachinesGet rg (node_name node);
         LogInfo "Deleting VM";
         ResourcesDelete rg "Microsoft.Compute" EmptyString "virtualMachines"
           (node_name node) "2016-03-30";
         OperationWait (node_name node);
         LogInfo "Deleting NIC";
         ResourcesDelete rg "Microsoft.Network" EmptyString "networkInterfaces"
           nic_name "2016-03-30";
         OperationWait nic_name;
         LogInfo "Deleting OS disk";
         StorageListKeys rg account;
         DeleteBlob account key container blob ]).
Proof.
  intros Hsub Hcompute Huri Hhost Hkeys Hname rg nic_name. subst rg nic_name.
  destruct (teardown_prologue provider globals node st Hsub Hcompute) as (k & -> & ->).
  destruct (teardown_names_bound globals Hsub Hcompute) as (_ & _ & _ & _ & Hblob).
  cbv zeta. unfold logger_info.
  rewrite Huri.
  rewrite (bind_getindex_some _ 2 host) by reflexivity. rewrite Hhost.
  rewrite (bind_getindex_some _ 0 account) by reflexivity.
  rewrite (bind_getindex_some _ 3 container) by reflexivity.
  rewrite (bind_getindex_some _ 4 blob) by reflexivity.
  rewrite !bind_emit. rewrite Hname.
  rewrite (bind_getindex_some _ 0 p0) by reflexivity.
  rewrite (bind_getindex_some _ 1 p1) by reflexivity.
  rewrite (bind_getindex_some _ 2 p2) by reflexivity.
  rewrite (bind_getindex_some _ 3 p3) by reflexivity.
  rewrite !bind_emit. rewrite Hkeys.
  rewrite (bind_getindex_some _ 0 key) by reflexivity.
  rewrite bind_global_name by done.
  rewrite emit_with_trace. by rewrite !with_trace_app.
Qed.

(** X20: where the names the method reads are bound, the disk URI has its
    five fields, the account has a key and the node's name has at least four
    dash-separated fields, teardown returns after exactly this sequence: read
    the instance metadata, delete the instance and wait, delete the interface
    named by the first three fields, ["nic"] and the fourth field and wait,
    list the account keys, delete the blob at the location read at the
    start, with the first key. *)
Theorem teardown_runs_in_sequence
    (provider : Provider) (globals : list string) (st : State) (node : Node)
    (scheme empty host container blob account key p0 p1 p2 p3 : string)
    (more domain keys extra : list string) :
  module_globals ⊆ globals →
  "ComputeManagementClient" ∈ globals →
  split "/" (vhd_uri provider (resource_group_name (self st)) (node_name node))
  = scheme :: empty :: host :: container :: blob :: more →
  split "." host = account :: domain →
  storage_keys provider (resource_group_name (self st)) account = key :: keys →
  split "-" (node_name node) = p0 :: p1 :: p2 :: p3 :: extra →
  let rg := resource_group_name (self st) in
  let nic_name := p0 +:+ "-" +:+ p1 +:+ "-" +:+ p2 +:+ "-nic-" +:+ p3 in
  delete_resources_for_node_in provider globals node st
  = (Ok tt,
     with_trace st
       [ LogInfo ("deleting node " +:+ node_name node);
         VirtualMachinesGet rg (node_name node);
         LogInfo "Deleting VM";
         ResourcesDelete rg "Microsoft.Compute" EmptyString "virtualMachines"
           (node_name node) "2016-03-30";
         OperationWait (node_name node);
         LogInfo "Deleting NIC";
         ResourcesDelete rg "Microsoft.Network" EmptyString "networkInterfaces"
           nic_name "2016-03-30";
         OperationWait nic_name;
         LogInfo "Deleting OS disk";
         StorageListKeys rg account;
         DeleteBlob account key container blob ]).
Proof. apply teardown_run. Qed.

Lemma teardown_runs_in_sequence_witness :
  module_globals ⊆ globals_with_compute_client ∧
  "ComputeManagementClient" ∈ globals_with_compute_client ∧
  delete_resources_for_node_in sample_provider globals_with_compute_client
    {| node_name := "k8s-poola-12345678-0" |} sample_acs
  = (Ok tt,
     with_trace sample_acs
       [ LogInfo "deleting node k8s-poola-12345678-0";
         VirtualMachinesGet "rg" "k8s-poola-12345678-0";
         LogInfo "Deleting VM";
         ResourcesDelete "rg" "Microsoft.Compute" EmptyString "virtualMachines"
           "k8s-poola-12345678-0" "2016-03-30";
         OperationWait "k8s-poola-12345678-0";
         LogInfo "Deleting NIC";
         ResourcesDelete "rg" "Microsoft.Network" EmptyString "networkInterfaces"
           "k8s-poola-12345678-nic-0" "2016-03-30";
         OperationWait "k8s-poola-12345678-nic-0";
         LogInfo "Deleting OS disk";
         StorageListKeys "rg" "acct";
         DeleteBlob "acct" "key1" "vhds" "k8s-poola-12345678-0-osdisk.vhd" ]).
Proof.
  assert (Hglobals : module_globals ⊆ globals_with_compute_client)
    by (intros ident Hin; by right).
  assert (Hcompute : "ComputeManagementClient" ∈ globals_with_compute_client) by left.
  split; [exact Hglobals|]. split; [exact Hcompute|].
  exact (teardown_runs_in_sequence sample_provider globals_with_compute_client sample_acs
           {| node_name := "k8s-poola-12345678-0" |}
           "https:" EmptyString "acct.blob.core.windows.net" "vhds"
           "k8s-poola-12345678-0-osdisk.vhd" "acct" "key1" "k8s" "poola" "12345678" "0"
           [] ["blob"; "core"; "windows"; "net"] ["key2"] []
           Hglobals Hcompute eq_refl eq_refl eq_refl eq_refl).
Defined.

(** X21: a node whose name has fewer than four dash-separated fields is
    torn down half-way: with the names bound and the disk URI in order, the
    instance is deleted and waited for, then the composition of the
    interface name raises [IndexError]; neither the interface nor the blob is
    deleted. *)
Theorem teardown_of_short_name_stops_after_the_instance
    (provider : Provider) (globals : list string) (st : State) (node : Node)
    (scheme empty host container blob account : string) (more domain : list string) :
  module_globals ⊆ globals →
  "ComputeManagementClient" ∈ globals →
  split "/" (vhd_uri provider (resource_group_name (self st)) (node_name node))
  = scheme :: empty :: host :: container :: blob :: more →
  split "." host = account :: domain →
  (length (split "-" (node_name node)) < 4)%nat →
  let rg := resource_group_name (self st) in
  delete_resources_for_node_in provider globals node st
  = (Raise IndexError,
     with_trace st
       [ LogInfo ("deleting node " +:+ node_name node);
         VirtualMachinesGet rg (node_name node);
         LogInfo "Deleting VM";
         ResourcesDelete rg "Microsoft.Compute" EmptyString "virtualMachines"
           (node_name node) "2016-03-30";
         OperationWait (node_name node);
         LogInfo "Deleting NIC" ]).
Proof.
  intros Hsub Hcompute Huri Hhost Hshort rg. subst rg.
  destruct (teardown_prologue provider globals node st Hsub Hcompute) as (k & -> & ->).
  cbv zeta. unfold logger_info.
  rewrite Huri.
  rewrite (bind_getindex_some _ 2 host) by reflexivity. rewrite Hhost.
  rewrite (bind_getindex_some _ 0 account) by reflexivity.
  rewrite (bind_getindex_some _ 3 container) by reflexivity.
  rewrite (bind_getindex_some _ 4 blob) by reflexivity.
  rewrite !bind_emit, !with_trace_app. simpl app.
  destruct (split "-" (node_name node)) as [|a [|b [|c [|d rest]]]];
    [| | | |simpl in Hshort; lia].
  - by rewrite bind_getindex_none.
  - rewrite (bind_getindex_some _ 0 a) by reflexivity. by rewrite bind_getindex_none.
  - rewrite (bind_getindex_some _ 0 a), (bind_getindex_some _ 1 b) by reflexivity.
    by rewrite bind_getindex_none.
  - rewrite (bind_getindex_some _ 0 a), (bind_getindex_some _ 1 b),
      (bind_getindex_some _ 2 c) by reflexivity.
    by rewrite bind_getindex_none.
Qed.

Lemma teardown_of_short_name_stops_after_the_instance_witness :
  module_globals ⊆ globals_with_compute_client ∧
  (length (split "-" "agent-7") < 4)%nat ∧
  delete_resources_for_node_in sample_provider globals_with_compute_client
    {| node_name := "agent-7" |} sample_acs
  = (Raise IndexError,
     with_trace sample_acs
       [ LogInfo "deleting node agent-7";
         VirtualMachinesGet "rg" "agent-7";
         LogInfo "Deleting VM";
         ResourcesDelete "rg" "Microsoft.Compute" EmptyString "virtualMachines"
           "agent-7" "2016-03-30";
         OperationWait "agent-7";
         LogInfo "Deleting NIC" ]).
Proof.
  assert (Hglobals : module_globals ⊆ globals_with_compute_client)
    by (intros ident Hin; by right).
  assert (Hshort : (length (split "-" "agent-7") < 4)%nat) by (vm_compute; lia).
  split; [exact Hglobals|]. split; [exact Hshort|].
  exact (teardown_of_short_name_stops_after_the_instance sample_provider
           globals_with_compute_client sample_acs {| node_name := "agent-7" |}
           "https:" EmptyString "acct.blob.core.windows.net" "vhds" "agent-7-osdisk.vhd"
           "acct" [] ["blob"; "core"; "windows"; "net"]
           Hglobals ltac:(left) eq_refl eq_refl Hshort).
Defined.

(** X22: a disk URI with fewer than five slash-separated fields stops
    teardown before anything is deleted: with the names bound, the instance
    metadata is read and [IndexError] is raised. *)
Theorem teardown_with_short_uri_deletes_nothing
    (provider : Provider) (globals : list string) (st : State) (node : Node) :
  module_globals ⊆ globals →
  "ComputeManagementClient" ∈ globals →
  (length (split "/" (vhd_uri provider (resource_group_name (self st)) (node_name node)))
   < 5)%nat →
  delete_resources_for_node_in provider globals node st
  = (Raise IndexError,
     with_trace st
       [ LogInfo ("deleting node " +:+ node_name node);
         VirtualMachinesGet (resource_group_name (self st)) (node_name node) ]).
Proof.
  intros Hsub Hcompute Hshort.
  destruct (teardown_prologue provider globals node st Hsub Hcompute) as (k & -> & ->).
  cbv zeta.
  destruct (split "/" _) as [|a [|b [|host [|container [|blob rest]]]]];
    [| | | | |simpl in Hshort; lia]; try (by rewrite bind_getindex_none).
  - rewrite (bind_getindex_some _ 2 host) by reflexivity.
    destruct (split "." host) as [|account domain]; [by rewrite bind_getindex_none|].
    rewrite (bind_getindex_some _ 0 account) by reflexivity.
    by rewrite bind_getindex_none.
  - rewrite (bind_getindex_some _ 2 host) by reflexivity.
    destruct (split "." host) as [|account domain]; [by rewrite bind_getindex_none|].
    rewrite (bind_getindex_some _ 0 account), (bind_getindex_some _ 3 container)
      by reflexivity.
    by rewrite bind_getindex_none.
Qed.

Lemma teardown_with_short_uri_deletes_nothing_witness :
  module_globals ⊆ globals_with_compute_client ∧
  (length (split "/" (vhd_uri provider_with_short_uri "rg" "k8s-poola-12345678-0")) < 5)%nat ∧
  delete_resources_for_node_in provider_with_short_uri globals_with_compute_client
    {| node_name := "k8s-poola-12345678-0" |} sample_acs
  = (Raise IndexError,
     with_trace sample_acs
       [ LogInfo "deleting node k8s-poola-12345678-0";
         VirtualMachinesGet "rg" "k8s-poola-12345678-0" ]).
Proof.
  assert (Hglobals : module_globals ⊆ globals_with_compute_client)
    by (intros ident Hin; by right).
  assert (Hshort : (length (split "/" (vhd_uri provider_with_short_uri "rg"
                                         "k8s-poola-12345678-0")) < 5)%nat)
    by (vm_compute; lia).
  split; [exact Hglobals|]. split; [exact Hshort|].
  exact (teardown_with_short_uri_deletes_nothing provider_with_short_uri
           globals_with_compute_client sample_acs
           {| node_name := "k8s-poola-12345678-0" |} Hglobals ltac:(left) Hshort).
Defined.

(** X23: when the storage account lists no key, teardown raises
    [IndexError] after the instance and the interface are gone: with the
    names bound, the disk URI in order and a node name of four fields or
    more, both are deleted and waited for, the keys are listed, and the blob
    is never deleted. *)
Theorem teardown_without_key_leaves_the_blob
    (provider : Provider) (globals : list string) (st : State) (node : Node)
    (scheme empty host container blob account p0 p1 p2 p3 : string)
    (more domain extra : list string) :
  module_globals ⊆ globals →
  "ComputeManagementClient" ∈ globals →
  split "/" (vhd_uri provider (resource_group_name (self st)) (node_name node))
  = scheme :: empty :: host :: container :: blob :: more →
  split "." host = account :: domain →
  storage_keys provider (resource_group_name (self st)) account = [] →
  split "-" (node_name node) = p0 :: p1 :: p2 :: p3 :: extra →
  let rg := resource_group_name (self st) in
  let nic_name := p0 +:+ "-" +:+ p1 +:+ "-" +:+ p2 +:+ "-nic-" +:+ p3 in
  delete_resources_for_node_in provider globals node st
  = (Raise IndexError,
     with_trace st
       [ LogInfo ("deleting node " +:+ node_name node);
         VirtualMachinesGet rg (node_name node);
         LogInfo "Deleting VM";
         ResourcesDelete rg "Microsoft.Compute" EmptyString "virtualMachines"
           (node_name node) "2016-03-30";
         OperationWait (node_name node);
         LogInfo "Deleting NIC";
         ResourcesDelete rg "Microsoft.Network" EmptyString "networkInterfaces"
           nic_name "2016-03-30";
         OperationWait nic_name;
         LogInfo "Deleting OS disk";
         StorageListKeys rg account ]).
Proof.
  intros Hsub Hcompute Huri Hhost Hkeys Hname rg nic_name. subst rg nic_name.
  destruct (teardown_prologue provider globals node st Hsub Hcompute) as (k & -> & ->).
  cbv zeta. unfold logger_info.
  rewrite Huri.
  rewrite (bind_getindex_some _ 2 host) by reflexivity. rewrite Hhost.
  rewrite (bind_getindex_some _ 0 account) by reflexivity.
  rewrite (bind_getindex_some _ 3 container) by reflexivity.
  rewrite (bind_getindex_some _ 4 blob) by reflexivity.
  rewrite !bind_emit. rewrite Hname.
  rewrite (bind_getindex_some _ 0 p0) by reflexivity.
  rewrite (bind_getindex_some _ 1 p1) by reflexivity.
  rewrite (bind_getindex_some _ 2 p2) by reflexivity.
  rewrite (bind_getindex_some _ 3 p3) by reflexivity.
  rewrite !bind_emit. rewrite Hkeys.
  rewrite bind_getindex_none by reflexivity. by rewrite !with_trace_app.
Qed.

Lemma teardown_without_key_leaves_the_blob_witness :
  module_globals ⊆ globals_with_compute_client ∧
  storage_keys provider_without_keys "rg" "acct" = [] ∧
  ∃ evs,
    delete_resources_for_node_in provider_without_keys globals_with_compute_client
      {| node_name := "k8s-poola-12345678-0" |} sample_acs
    = (Raise IndexError, with_trace sample_acs evs) ∧
    last evs = Some (StorageListKeys "rg" "acct").
Proof.
  assert (Hglobals : module_globals ⊆ globals_with_compute_client)
    by (intros ident Hin; by right).
  split; [exact Hglobals|]. split; [reflexivity|].
  eexists. split.
  - exact (teardown_without_key_leaves_the_blob provider_without_keys
             globals_with_compute_client sample_acs
             {| node_name := "k8s-poola-12345678-0" |}
             "https:" EmptyString "acct.blob.core.windows.net" "vhds"
             "k8s-poola-12345678-0-osdisk.vhd" "acct" "k8s" "poola" "12345678" "0"
             [] ["blob"; "core"; "windows"; "net"] []
             Hglobals ltac:(left) eq_refl eq_refl eq_refl eq_refl).
  - reflexivity.
Defined.

Lemma split_of_free_string sep (s : string) :
  sep ∉ String.list_ascii_of_string s → split sep s = [s].
Proof.
  induction s as [|c s IH]; intros Hfree; [done|].
  simpl in Hfree. apply not_elem_of_cons in Hfree as [Hne Hfree].
  cbn [split]. apply not_eq_sym, Ascii.eqb_neq in Hne. rewrite Hne.
  by rewrite (IH Hfree).
Qed.

Lemma split_at_separator sep (a b : string) :
  sep ∉ String.list_ascii_of_string a →
  split sep (a +:+ String sep b) = a :: split sep b.
Proof.
  induction a as [|c a IH]; intros Hfree.
  - simpl. by rewrite Ascii.eqb_refl.
  - simpl in Hfree. apply not_elem_of_cons in Hfree as [Hne Hfree].
    change (String c a +:+ String sep b) with (String c (a +:+ String sep b)).
    cbn [split]. apply not_eq_sym, Ascii.eqb_neq in Hne. rewrite Hne.
    by rewrite (IH Hfree).
Qed.

(** X24: for a node called [a-b-c-d], with no dash inside the four fields,
    the name splits back into those fields, and teardown (names bound, disk
    URI in order, a key at hand) deletes one interface, [a-b-c-nic-d]. *)
Theorem teardown_of_four_field_node
    (provider : Provider) (globals : list string) (st : State) (a b c d : string)
    (scheme empty host container blob account key : string)
    (more domain keys : list string) :
  dash_free a → dash_free b → dash_free c → dash_free d →
  let node := {| node_name := a +:+ "-" +:+ b +:+ "-" +:+ c +:+ "-" +:+ d |} in
  module_globals ⊆ globals →
  "ComputeManagementClient" ∈ globals →
  split "/" (vhd_uri provider (resource_group_name (self st)) (node_name node))
  = scheme :: empty :: host :: container :: blob :: more →
  split "." host = account :: domain →
  storage_keys provider (resource_group_name (self st)) account = key :: keys →
  split "-" (node_name node) = [a; b; c; d] ∧
  ∃ evs,
    delete_resources_for_node_in provider globals node st = (Ok tt, with_trace st evs) ∧
    nic_deletions evs = [a +:+ "-" +:+ b +:+ "-" +:+ c +:+ "-nic-" +:+ d].
Proof.
  intros Ha Hb Hc Hd node Hsub Hcompute Huri Hhost Hkeys.
  assert (Hparts : split "-" (node_name node) = [a; b; c; d]).
  { unfold node. cbn [node_name].
    change (a +:+ "-" +:+ b +:+ "-" +:+ c +:+ "-" +:+ d)
      with (a +:+ String "-" (b +:+ String "-" (c +:+ String "-" d))).
    rewrite !split_at_separator by done. by rewrite split_of_free_string. }
  split; [done|]. eexists. split.
  - exact (teardown_run provider globals st node scheme empty host container blob account
             key a b c d more domain keys [] Hsub Hcompute Huri Hhost Hkeys Hparts).
  - reflexivity.
Qed.

Lemma teardown_of_four_field_node_witness :
  dash_free "k8s" ∧ dash_free "agentpool1" ∧ dash_free "12345678" ∧ dash_free "0" ∧
  module_globals ⊆ globals_with_compute_client ∧
  split "-" ("k8s" +:+ "-" +:+ "agentpool1" +:+ "-" +:+ "12345678" +:+ "-" +:+ "0")
  = ["k8s"; "agentpool1"; "12345678"; "0"] ∧
  ∃ evs,
    delete_resources_for_node_in sample_provider globals_with_compute_client
      {| node_name := "k8s" +:+ "-" +:+ "agentpool1" +:+ "-" +:+ "12345678" +:+ "-" +:+ "0" |}
      sample_acs
    = (Ok tt, with_trace sample_acs evs) ∧
    nic_deletions evs = ["k8s" +:+ "-" +:+ "agentpool1" +:+ "-" +:+ "12345678" +:+ "-nic-" +:+ "0"].
Proof.
  assert (Ha : dash_free "k8s") by (unfold dash_free; compute_done).
  assert (Hb : dash_free "agentpool1") by (unfold dash_free; compute_done).
  assert (Hc : dash_free "12345678") by (unfold dash_free; compute_done).
  assert (Hd : dash_free "0") by (unfold dash_free; compute_done).
  assert (Hglobals : module_globals ⊆ globals_with_compute_client)
    by (intros ident Hin; by right).
  repeat (split; [done|]).
  exact (proj2 (teardown_of_four_field_node sample_provider globals_with_compute_client
                  sample_acs "k8s" "agentpool1" "12345678" "0"
                  "https:" EmptyString "acct.blob.core.windows.net" "vhds"
                  "k8s-agentpool1-12345678-0-osdisk.vhd" "acct" "key1"
                  [] ["blob"; "core"; "windows"; "net"] ["key2"]
                  Ha Hb Hc Hd Hglobals ltac:(left) eq_refl eq_refl eq_refl)).
Defined.

(** ** Further properties: the polling loop *)

(** X25: with a negative [--sleep] the loop does not survive its first
    iteration and never sleeps: [time.sleep] is handed a negative length,
    [--sleep] after a pass that scaled and twice [--sleep], after the
    warning, otherwise, and raises [ValueError], or [OverflowError] when the
    length is below [- time_t_max]. *)
Theorem negative_sleep_stops_the_loop (sleep : Z) (scaled : bool) (rest : list bool) :
  sleep < 0 →
  let asked := if scaled then sleep else sleep * 2 in
  main sleep (scaled :: rest)
  = (Raise (if asked <? - time_t_max then OverflowError else ValueError),
     if scaled then [] else [LogWarn ("backoff: " +:+ pretty sleep)]).
Proof.
  intros Hneg asked. unfold main. cbn [main_loop]. unfold loop_iteration, time_sleep.
  assert (Hasked : asked < 0) by (unfold asked; destruct scaled; lia).
  assert (Hhigh : (time_t_max <? asked) = false) by (rewrite time_t_max_value; lia).
  assert (Hsign : (asked <? 0) = true) by lia.
  destruct scaled; fold asked; rewrite Hhigh, orb_false_r, Hsign;
    by destruct (asked <? - time_t_max).
Qed.

Lemma negative_sleep_stops_the_loop_witness :
  -5 < 0 ∧ -9223372037 < 0 ∧
  main (-5) [false; true] = (Raise ValueError, [LogWarn "backoff: -5"]) ∧
  main (-9223372037) [true] = (Raise OverflowError, []).
Proof.
  split; [lia|]. split; [lia|]. split.
  - exact (negative_sleep_stops_the_loop (-5) false [true] ltac:(lia)).
  - exact (negative_sleep_stops_the_loop (-9223372037) true [] ltac:(lia)).
Defined.







(** ** Further properties: [login] *)

Lemma prefix_spec (a b : string) :
  String.prefix a b = true ↔ ∃ post, b = a +:+ post.
Proof.
  revert b. induction a as [|c a IH]; intros b.
  - split; [intros _; by exists b|by destruct b].
  - destruct b as [|c' b]; simpl; [split; [done|by intros [post ?]]|].
    destruct (Ascii.ascii_dec c c') as [->|Hne].
    + rewrite IH. split; intros [post Hpost]; exists post; [by rewrite Hpost|].
      by injection Hpost.
    + split; [done|]. intros [post Hpost]. injection Hpost as Hc _. by symmetry in Hc.
Qed.

(** [contains] is the substring test. *)
Lemma contains_spec (needle hay : string) :
  contains needle hay = true ↔ ∃ pre post, hay = pre +:+ needle +:+ post.
Proof.
  split.
  - induction hay as [|c hay IH]; cbn [contains]; intros Hfound.
    + rewrite orb_false_r in Hfound. apply prefix_spec in Hfound as [post ->].
      by exists EmptyString, post.
    + apply orb_true_iff in Hfound as [Hhere|Hlater].
      * apply prefix_spec in Hhere as [post ->]. by exists EmptyString, post.
      * destruct (IH Hlater) as (pre & post & ->). by exists (String c pre), post.
  - intros (pre & post & ->). induction pre as [|c pre IH].
    + destruct (needle +:+ post) eqn:Heq; cbn [contains];
        (apply orb_true_iff; left; apply prefix_spec; exists post; by rewrite <- Heq).
    + change (String c pre +:+ needle +:+ post) with (String c (pre +:+ needle +:+ post)).
      cbn [contains]. rewrite IH. apply orb_true_r.
Qed.

(** X27: [login] hands back as many subscriptions as were found, in the
    same order, each with its ['environmentName'] entry removed and
    ['cloudName'] set to the value that entry had, or to [None] when there
    was none, an earlier ['cloudName'] being overwritten; no other entry
    changes.  The renaming is not idempotent: applied to its own result it
    sets ['cloudName'] to [None]. *)
Theorem login_renames_environment (subscriptions : list (gmap string PyValue)) :
  ∃ renamed,
    login (Found subscriptions) = LoggedIn renamed ∧
    length renamed = length subscriptions ∧
    ∀ i sub, subscriptions !! i = Some sub →
      ∃ sub', renamed !! i = Some sub' ∧
              sub' !! "environmentName" = None ∧
              sub' !! "cloudName" = Some (default PyNone (sub !! "environmentName")) ∧
              (∀ key, key ≠ "environmentName" → key ≠ "cloudName" →
                      sub' !! key = sub !! key) ∧
              rename_environment sub' !! "cloudName" = Some PyNone.
Proof.
  exists (rename_environment <$> subscriptions). split; [done|].
  split; [apply length_fmap|].
  intros i sub Hsub. exists (rename_environment sub).
  split; [by rewrite list_lookup_fmap, Hsub|].
  assert (Hgone : rename_environment sub !! "environmentName" = None).
  { unfold rename_environment. rewrite lookup_insert_ne by done. apply lookup_delete_eq. }
  split; [done|]. split; [unfold rename_environment; by rewrite lookup_insert_eq|].
  split.
  - intros key Henv Hcloud. unfold rename_environment.
    rewrite lookup_insert_ne by done. by rewrite lookup_delete_ne.
  - unfold rename_environment at 1. by rewrite lookup_insert_eq, Hgone.
Qed.

Lemma login_renames_environment_witness :
  ∃ renamed sub',
    login (Found [sample_subscription]) = LoggedIn renamed ∧
    renamed !! 0%nat = Some sub' ∧
    sub' !! "environmentName" = None ∧
    sub' !! "cloudName" = Some (default PyNone (sample_subscription !! "environmentName")) ∧
    sub' !! "id" = sample_subscription !! "id".
Proof.
  destruct (login_renames_environment [sample_subscription])
    as (renamed & Hlogin & _ & Hall).
  destruct (Hall 0%nat sample_subscription eq_refl)
    as (sub' & Hsub & Hgone & Hcloud & Hother & _).
  exists renamed, sub'. repeat split; [done..|].
  apply Hother; discriminate.
Defined.

(** X28: [login] returns subscriptions exactly when the lookup found them;
    every failure it catches leaves as a [CLIError].  An ADAL error whose
    text holds ["ID3242:"] anywhere is reported as an invalid user name, also
    when it holds the RSTR marker as well; one that holds none of the three
    markers is passed on with its own text. *)
Theorem login_reports_failures_as_cli_errors :
  (∀ found, (∃ subs, login found = LoggedIn subs) ↔ (∃ subs, found = Found subs)) ∧
  (∀ pre post,
     login (AdalError (pre +:+ "ID3242:" +:+ post))
     = CLIError ("The user name might be invalid. " +:+ suggestion)) ∧
  (∀ msg,
     (∀ pre post, msg ≠ pre +:+ "ID3242:" +:+ post) →
     (∀ pre post, msg ≠ pre +:+ "Server returned an unknown AccountType" +:+ post) →
     (∀ pre post, msg ≠ pre +:+ "Server returned error in RSTR - ErrorCode" +:+ post) →
     login (AdalError msg) = CLIError msg).
Proof.
  split; [|split].
  - intros found. split.
    + intros [subs Hlogin]. destruct found as [found|msg|msg]; [by eexists|..].
      * simpl in Hlogin. by repeat case_match.
      * discriminate.
    + intros [subs ->]. by eexists.
  - intros pre post. unfold login.
    assert (Hhit : contains "ID3242:" (pre +:+ "ID3242:" +:+ post) = true)
      by (apply contains_spec; eauto).
    by rewrite Hhit.
  - intros msg Hid Haccount Hrstr. unfold login.
    assert (Hmiss : ∀ needle, (∀ pre post, msg ≠ pre +:+ needle +:+ post) →
                              contains needle msg = false).
    { intros needle Hnone. apply not_true_is_false.
      intros (pre & post & Heq)%contains_spec. by apply (Hnone pre post). }
    by rewrite !Hmiss.
Qed.

Lemma login_reports_failures_as_cli_errors_witness :
  login (AdalError ("AADSTS: " +:+ "ID3242:" +:+ " Server returned error in RSTR - ErrorCode"))
  = CLIError ("The user name might be invalid. " +:+ suggestion) ∧
  login (AdalError "invalid_client") = CLIError "invalid_client".
Proof.
  assert (Hnone : ∀ needle, contains needle "invalid_client" = false →
                    ∀ pre post, "invalid_client" ≠ pre +:+ needle +:+ post).
  { intros needle Hmiss pre post Heq.
    assert (Hhit : contains needle "invalid_client" = true)
      by (apply contains_spec; by exists pre, post).
    rewrite Hmiss in Hhit. discriminate. }
  destruct login_reports_failures_as_cli_errors as (_ & Hid & Hplain).
  split.
  - exact (Hid "AADSTS: " " Server returned error in RSTR - ErrorCode").
  - exact (Hplain "invalid_client"
             (Hnone "ID3242:" eq_refl)
             (Hnone "Server returned an unknown AccountType" eq_refl)
             (Hnone "Server returned error in RSTR - ErrorCode" eq_refl)).
Defined.

(** ** Further properties: a pass on a freshly built object *)

Lemma init_agent_pools provider get_pool_name ceiling rg input csn lt lp st :
  agent_pools (self (init provider get_pool_name ceiling rg input csn lt lp st).2)
  = get_agent_pools get_pool_name ceiling input.
Proof. by destruct csn as [[|c cs]|]. Qed.

Lemma first_loop_events_dry pools : ∀ sizes,
  length (first_loop_events true pools sizes) = length pools ∧
  Forall (λ e, is_log e = true) (first_loop_events true pools sizes).
Proof.
  induction pools as [|pool rest IH]; intros sizes; [by split|].
  cbn [first_loop_events]. destruct (IH (clamp pool sizes)) as [Hlen Hlog].
  unfold first_loop_event. destruct (at_capacity sizes pool); simpl.
  - split; [by rewrite Hlen|by constructor].
  - split; [by rewrite Hlen|by constructor].
Qed.

(** X3: on the object that [__init__] has just built, on either branch, the
    pool names are distinct, and a dictionary with an entry for the pool name
    of every node has an entry for every pool.  A dry-run [scale_pools] with
    such a dictionary returns after one log line per pool; in the dictionary
    it returns, the entry of every node's pool is the smaller of the ceiling
    and the requested size, and the entries that name no node's pool are
    untouched. *)
Theorem fresh_object_dry_run
    (provider : Provider) (get_pool_name : Node → string) (ceiling : Z) (rg : string)
    (input : list Node) (csn : option string) (lt lp : option loc) (st : State)
    (sizes : gmap string Z) (is_scale_up : bool) :
  (∀ n, n ∈ input → is_Some (sizes !! get_pool_name n)) →
  let st0 := (init provider get_pool_name ceiling rg input csn lt lp st).2 in
  let pools := agent_pools (self st0) in
  NoDup (name <$> pools) ∧ covers sizes pools ∧
  ∃ sizes' evs,
    scale_pools sizes true is_scale_up st0 = (Ok sizes', with_trace st0 evs) ∧
    length evs = length pools ∧
    Forall (λ e, is_log e = true) evs ∧
    (∀ n v, n ∈ input → sizes !! get_pool_name n = Some v →
            sizes' !! get_pool_name n = Some (Z.min ceiling v)) ∧
    (∀ key, (∀ n, n ∈ input → get_pool_name n ≠ key) → sizes' !! key = sizes !! key).
Proof.
  intros Hsizes st0 pools.
  assert (Hpools : pools = get_agent_pools get_pool_name ceiling input)
    by apply init_agent_pools.
  destruct (get_agent_pools_distinct_nonempty get_pool_name ceiling input) as [Hnd _].
  destruct (group_nodes_grouped get_pool_name input) as (_ & Hentries & Hkeys).
  assert (Hnames : ∀ pool, pool ∈ pools →
            max_size pool = ceiling ∧ ∃ n, n ∈ input ∧ get_pool_name n = name pool).
  { intros pool Hin. rewrite Hpools in Hin. unfold get_agent_pools in Hin.
    apply list_elem_of_fmap in Hin as ([k ns] & -> & Hin). simpl. split; [done|].
    destruct (Hentries k ns Hin) as [Hnonempty Hfilter].
    destruct ns as [|n ns']; [done|]. exists n.
    assert (Hn : n ∈ filter (λ n, get_pool_name n = k) input) by (rewrite <- Hfilter; left).
    by apply list_elem_of_filter in Hn as [? ?]. }
  assert (Hmembers : ∀ n, n ∈ input → ∃ pool, pool ∈ pools ∧ name pool = get_pool_name n).
  { intros n Hn. specialize (Hkeys n Hn).
    apply list_elem_of_fmap in Hkeys as ([k ns] & Hk & Hin). simpl in Hk. subst k.
    eexists. split; [rewrite Hpools; apply list_elem_of_fmap_2, Hin|done]. }
  assert (Hcov : covers sizes pools).
  { intros pool Hin. destruct (Hnames pool Hin) as (_ & n & Hn & <-). by apply Hsizes. }
  rewrite <- Hpools in Hnd.
  split; [done|]. split; [done|].
  exists (clamp_all pools sizes), (first_loop_events true pools sizes).
  destruct (first_loop_events_dry pools sizes) as [Hlen Hlog].
  split; [|split; [done|split; [done|split]]].
  - unfold scale_pools. rewrite (bind_ok _ _ _ (self st0) st0) by reflexivity.
    fold pools. rewrite (bind_ok _ _ _ _ _ (scale_pools_loop_run _ _ _ _ _ Hcov)).
    reflexivity.
  - intros n v Hn Hv. destruct (Hmembers n Hn) as (pool & Hin & Hname).
    rewrite <- Hname, clamp_all_lookup by done. unfold target.
    destruct (Hnames pool Hin) as [-> _]. by rewrite Hname, Hv.
  - intros key Hkey. apply clamp_all_lookup_notin.
    intros (pool & -> & Hin)%list_elem_of_fmap.
    destruct (Hnames pool Hin) as (_ & n & Hn & Heq). by apply (Hkey n).
Qed.

Lemma fresh_object_dry_run_witness :
  (∀ n, n ∈ sample_nodes → is_Some (sample_sizes !! second_field n)) ∧
  let st0 := (init sample_provider second_field 5 "rg" sample_nodes (Some "cs") None None
                sample_acs).2 in
  let pools := agent_pools (self st0) in
  NoDup (name <$> pools) ∧ covers sample_sizes pools ∧
  ∃ sizes' evs,
    scale_pools sample_sizes true true st0 = (Ok sizes', with_trace st0 evs) ∧
    length evs = length pools ∧
    Forall (λ e, is_log e = true) evs ∧
    (∀ n v, n ∈ sample_nodes → sample_sizes !! second_field n = Some v →
            sizes' !! second_field n = Some (Z.min 5 v)) ∧
    (∀ key, (∀ n, n ∈ sample_nodes → second_field n ≠ key) →
            sizes' !! key = sample_sizes !! key).
Proof.
  assert (Hsizes : ∀ n, n ∈ sample_nodes → is_Some (sample_sizes !! second_field n)).
  { intros n Hn. unfold sample_nodes in Hn.
    repeat (apply elem_of_cons in Hn as [->|Hn]); [by vm_compute; eexists..|].
    by apply elem_of_nil in Hn. }
  split; [exact Hsizes|].
  exact (fresh_object_dry_run sample_provider second_field 5 "rg" sample_nodes (Some "cs")
           None None sample_acs sample_sizes true Hsizes).
Defined.
